(** * system-monitoring-app: telemetry sampling and real-time distribution

    A shallow embedding of the collectors ([server/src/utils/system.js],
    [server/src/utils/processes.js]), of the broadcast scheduler
    ([server/src/utils/monitor.js]) and of the client reconnection hook
    ([src/hooks/useWebSocket.ts]), followed by the properties of the
    specification that were settled on them.  After the collectors come
    the process routes ([server/src/routes/processes.js]), the uptime
    route ([server/src/routes/system.js]) and two formatters of the
    client ([src/utils/formatters.ts]), and after the properties of the
    specification those of the code around it.

    Conventions of the embedding:
    - a JavaScript number is a [JS.number]: [NaN], the two infinities, or a
      rational, [-0] being identified with [0].  [JS.quotient] and
      [JS.product] round their result to binary64, as the machine does.
      [JS.add], [JS.sub], [JS.mul] and [JS.div] are exact: they stand
      where the result of the machine is exact too (integers up to
      [2 ^ 53], divided by a power of two at most), and where it goes
      through [Math.round] or [Math.floor] at once and its rounding is too
      small to change the outcome (the thousandth of an integer up to
      [2 ^ 53]; the days, hours and minutes of an uptime).  A numeral is
      read as the integer it writes, which is what [parseInt] gives up to
      [2 ^ 53];
    - a JavaScript string is a [string] of code units below 256;
    - asynchronous functions are split at their [await]: the part that runs
      when the function is called, and the part that runs when the awaited
      promise settles; console output and socket writes are recorded in a
      trace of effects. *)

From Stdlib Require Import ZArith QArith Qround Qabs Qpower Bool List String Ascii Lia Lqa.
From Stdlib Require Import Sorting.Sorted Sorting.Permutation.
From Stdlib Require Import Structures.OrderedTypeEx.
From Stdlib Require DecimalString DecimalPos SpecFloat.
Import ListNotations.

#[local] Set Warnings "-register-all".

Local Open Scope Z_scope.

(* ================================================================== *)
(** * The JavaScript run-time the sources rely on                      *)
(* ================================================================== *)

Module JS.

(** ** Numbers *)

Inductive number : Type :=
| NaN : number
| Infinity (negative : bool) : number
| Num (q : Q) : number.

Definition of_Z (z : Z) : number := Num (inject_Z z).

Definition Qsign (q : Q) : Z := Z.sgn (Qnum q).

Definition is_NaN (n : number) : bool :=
  match n with NaN => true | _ => false end.

(** [a + b]. *)
Definition add (a b : number) : number :=
  match a, b with
  | NaN, _ | _, NaN => NaN
  | Infinity s, Infinity t => if Bool.eqb s t then Infinity s else NaN
  | Infinity s, Num _ => Infinity s
  | Num _, Infinity t => Infinity t
  | Num x, Num y => Num (Qred (x + y))
  end.

(** [a - b]. *)
Definition sub (a b : number) : number :=
  match a, b with
  | NaN, _ | _, NaN => NaN
  | Infinity s, Infinity t => if Bool.eqb s t then NaN else Infinity s
  | Infinity s, Num _ => Infinity s
  | Num _, Infinity t => Infinity (negb t)
  | Num x, Num y => Num (Qred (x - y))
  end.

(** The exact product [a * b]. *)
Definition mul (a b : number) : number :=
  match a, b with
  | NaN, _ | _, NaN => NaN
  | Infinity s, Infinity t => Infinity (xorb s t)
  | Infinity s, Num y | Num y, Infinity s =>
      match Qsign y with
      | 0 => NaN
      | Zpos _ => Infinity s
      | Zneg _ => Infinity (negb s)
      end
  | Num x, Num y => Num (Qred (x * y))
  end.

(** The exact quotient [a / b]: a zero divisor gives [NaN] for [0 / 0]
    and an infinity otherwise. *)
Definition div (a b : number) : number :=
  match a, b with
  | NaN, _ | _, NaN => NaN
  | Infinity _, Infinity _ => NaN
  | Infinity s, Num y =>
      match Qsign y with
      | Zneg _ => Infinity (negb s)
      | _ => Infinity s
      end
  | Num _, Infinity _ => Num 0
  | Num x, Num y =>
      match Qsign y with
      | 0 => match Qsign x with
             | 0 => NaN
             | Zpos _ => Infinity false
             | Zneg _ => Infinity true
             end
      | _ => Num (Qred (x / y))
      end
  end.

(** *** Rounding to binary64

    The quotient and the product of two binary64 values are the exact
    results rounded to the nearest binary64 value, a tie going to the even
    significand.  [Qlog2 q] is the exponent of a positive [q], the
    integer [k] with [2 ^ k <= q < 2 ^ (k + 1)]. *)
Definition Qlog2 (q : Q) : Z :=
  let k := Z.log2 (Qnum q) - Z.log2 (Z.pos (Qden q)) in
  if Qle_bool (2 ^ k) q then k else k - 1.

(** The integer nearest to [x], the even one of two that are equally
    near. *)
Definition nearest_even (x : Q) : Z :=
  let f := Qfloor x in
  match (x - inject_Z f ?= 1 # 2)%Q with
  | Lt => f
  | Gt => f + 1
  | Eq => if Z.even f then f else f + 1
  end.

(** The binary64 value nearest to [q]: a significand of 53 bits at the
    exponent of [q], which is not taken below that of the subnormal
    numbers; a result of [2 ^ 1024] or more is an infinity. *)
Definition binary64 (q : Q) : number :=
  match Qnum q with
  | 0 => Num 0
  | _ =>
      let e := Z.max (Qlog2 (Qabs q) - 52) (-1074) in
      let m := nearest_even (Qabs q / 2 ^ e) in
      if Qle_bool (2 ^ 1024) (inject_Z m * 2 ^ e) then Infinity (Qnum q <? 0)
      else Num (Qred (inject_Z (Z.sgn (Qnum q) * m) * 2 ^ e))
  end.

Definition rounded (n : number) : number :=
  match n with
  | Num q => binary64 q
  | _ => n
  end.

(** [a / b] and [a * b] as the machine computes them. *)
Definition quotient (a b : number) : number := rounded (div a b).

Definition product (a b : number) : number := rounded (mul a b).

(** *** The specification of the Standard Library

    [SpecFloat] specifies the operations of IEEE 754 on significands and
    exponents.  [of_spec] is the number one of its values stands for and
    [to_spec] its value for an integer, with the 53 bits and the exponents
    of binary64; [agree a b] compares [a / b] and [a / b * 100] as
    computed here and there. *)
Definition of_spec (f : SpecFloat.spec_float) : number :=
  match f with
  | SpecFloat.S754_zero _ => Num 0
  | SpecFloat.S754_infinity s => Infinity s
  | SpecFloat.S754_nan => NaN
  | SpecFloat.S754_finite s m e =>
      Num (Qred (inject_Z (if s then Z.neg m else Z.pos m) * 2 ^ e))
  end.

Definition to_spec (z : Z) : SpecFloat.spec_float :=
  SpecFloat.binary_normalize 53 1024 z 0 false.

Definition same_number (a b : number) : bool :=
  match a, b with
  | NaN, NaN => true
  | Infinity s, Infinity t => Bool.eqb s t
  | Num x, Num y => Qeq_bool x y
  | _, _ => false
  end.

Definition agree (a b : Z) : bool :=
  same_number (quotient (of_Z a) (of_Z b))
    (of_spec (SpecFloat.SFdiv 53 1024 (to_spec a) (to_spec b))) &&
  same_number (product (quotient (of_Z a) (of_Z b)) (of_Z 100))
    (of_spec (SpecFloat.SFmul 53 1024 (SpecFloat.SFdiv 53 1024 (to_spec a) (to_spec b))
                (to_spec 100))).

(** The integers from 0 to 40 and some others. *)
Definition samples : list Z :=
  map Z.of_nat (seq 0 41) ++
  [-7; 1000; 5888; 10240; 31858892285737; 40074078346839; 2 ^ 53 - 1; 2 ^ 53].

(** [Math.round]: the nearest integer, halves towards [+Infinity]. *)
Definition Math_round (a : number) : number :=
  match a with
  | Num x => of_Z (Qfloor (x + (1 # 2)))
  | _ => a
  end.

(** [a < b]; false as soon as one side is [NaN]. *)
Definition lt (a b : number) : bool :=
  match a, b with
  | NaN, _ | _, NaN => false
  | Infinity s, Infinity t => s && negb t
  | Infinity s, Num _ => s
  | Num _, Infinity t => negb t
  | Num x, Num y =>
      match Qcompare x y with Lt => true | _ => false end
  end.

(** [Math.min] and [Math.max] of two arguments: [NaN] if either is. *)
Definition Math_min (a b : number) : number :=
  if is_NaN a || is_NaN b then NaN else if lt b a then b else a.

Definition Math_max (a b : number) : number :=
  if is_NaN a || is_NaN b then NaN else if lt a b then b else a.

(** [Boolean(n)]. *)
Definition truthy (n : number) : bool :=
  match n with
  | NaN => false
  | Infinity _ => true
  | Num x => negb (Qsign x =? 0)
  end.

(** [n || d] on numbers. *)
Definition or_else (n d : number) : number := if truthy n then n else d.

(** The integer a number holds, if it is one. *)
Definition to_integer (n : number) : option Z :=
  match n with
  | Num x => if Qeq_bool x (inject_Z (Qfloor x)) then Some (Qfloor x) else None
  | _ => None
  end.

(** [reduce((a, b) => a + b, 0)]. *)
Definition sum (l : list number) : number := fold_left add l (of_Z 0).

(** ** Strings *)

Local Open Scope char_scope.

Definition code (c : ascii) : N := N_of_ascii c.

(** [\s] of regular expressions, which is also what [trim], [parseInt] and
    [parseFloat] strip: TAB, LF, VT, FF, CR, space and NBSP among the code
    units below 256. *)
Definition is_space (c : ascii) : bool :=
  match code c with
  | 9 | 10 | 11 | 12 | 13 | 32 | 160 => true
  | _ => false
  end%N.

Definition is_digit (c : ascii) : bool :=
  ((48 <=? code c) && (code c <=? 57))%N.

Definition digit_value (c : ascii) : Z := Z.of_N (code c) - 48.

(** The value of a digit in radix 16, for [parseInt] of a [0x] literal. *)
Definition hex_value (c : ascii) : option Z :=
  let n := code c in
  if ((48 <=? n) && (n <=? 57))%N then Some (Z.of_N n - 48)
  else if ((97 <=? n) && (n <=? 102))%N then Some (Z.of_N n - 87)
  else if ((65 <=? n) && (n <=? 70))%N then Some (Z.of_N n - 55)
  else None.

Local Open Scope string_scope.

Fixpoint trimStart (s : string) : string :=
  match s with
  | String c r => if is_space c then trimStart r else s
  | EmptyString => EmptyString
  end.

Fixpoint trimEnd (s : string) : string :=
  match s with
  | EmptyString => EmptyString
  | String c r =>
      match trimEnd r with
      | EmptyString => if is_space c then EmptyString else String c EmptyString
      | r' => String c r'
      end
  end.

Definition trim (s : string) : string := trimEnd (trimStart s).

(** [s.split(sep)] for a separator of one code unit. *)
Fixpoint split_char (sep : ascii) (s : string) : list string :=
  match s with
  | EmptyString => [EmptyString]
  | String c r =>
      if Ascii.eqb c sep then EmptyString :: split_char sep r
      else match split_char sep r with
           | t :: ts => String c t :: ts
           | [] => [String c EmptyString]
           end
  end.

(** [s.split(/\s+/)]: the pieces between maximal runs of white space; a run
    at either end leaves an empty piece there. *)
Fixpoint split_spaces_from (in_run : bool) (s : string) : list string :=
  match s with
  | EmptyString => [EmptyString]
  | String c r =>
      if is_space c then
        if in_run then split_spaces_from true r
        else EmptyString :: split_spaces_from true r
      else match split_spaces_from false r with
           | t :: ts => String c t :: ts
           | [] => [String c EmptyString]
           end
  end.

Definition split_spaces (s : string) : list string := split_spaces_from false s.

(** [s.split(sep)] for a non-empty separator string: occurrences are found
    from the left and do not overlap ([skip] counts the code units of the
    occurrence still to pass over). *)
Fixpoint split_string_from (sep : string) (skip : nat) (s : string) : list string :=
  match s with
  | EmptyString => [EmptyString]
  | String c r =>
      match skip with
      | S k => split_string_from sep k r
      | O =>
          if prefix sep s then EmptyString :: split_string_from sep (String.length sep - 1) r
          else match split_string_from sep O r with
               | t :: ts => String c t :: ts
               | [] => [String c EmptyString]
               end
      end
  end.

Definition split_string (sep s : string) : list string := split_string_from sep O s.

(** [s.replace(/[class]/g, '')]. *)
Fixpoint remove_all (class : ascii -> bool) (s : string) : string :=
  match s with
  | EmptyString => EmptyString
  | String c r => if class c then remove_all class r else String c (remove_all class r)
  end.

(** [s.includes(sub)]. *)
Fixpoint includes (sub s : string) : bool :=
  prefix sub s ||
  match s with
  | EmptyString => false
  | String _ r => includes sub r
  end.

(** [s || d] on strings: the empty string is falsy. *)
Definition str_or_else (s d : string) : string :=
  match s with EmptyString => d | _ => s end.

(** [parts[i]], [undefined] past the end. *)
Definition at_ (parts : list string) (i : nat) : option string := nth_error parts i.

(** [parts[i] || d]. *)
Definition at_or (parts : list string) (i : nat) (d : string) : string :=
  match nth_error parts i with
  | Some s => str_or_else s d
  | None => d
  end.

(** [parts.slice(n).join(' ')]. *)
Definition join (sep : string) (parts : list string) : string := String.concat sep parts.

(** [a.slice(0, limit)] for an integer [limit]: a negative one counts from
    the end. *)
Definition slice0 {A : Type} (limit : Z) (a : list A) : list A :=
  if (limit <? 0)%Z then firstn (Z.to_nat (Z.of_nat (List.length a) + limit)) a
  else firstn (Z.to_nat limit) a.

(** *** [parseInt] *)

(** The longest run of decimal digits at the head: their value, their
    number, and the rest. *)
Fixpoint digits_from (acc : Z) (n : nat) (s : string) : Z * nat * string :=
  match s with
  | String c r => if is_digit c then digits_from (10 * acc + digit_value c) (S n) r
                  else (acc, n, s)
  | EmptyString => (acc, n, s)
  end.

Fixpoint hex_digits_from (acc : Z) (n : nat) (s : string) : Z * nat :=
  match s with
  | String c r => match hex_value c with
                  | Some d => hex_digits_from (16 * acc + d) (S n) r
                  | None => (acc, n)
                  end
  | EmptyString => (acc, n)
  end.

(** An optional sign at the head: whether it is a minus, and the rest. *)
Definition sign_of (s : string) : bool * string :=
  match s with
  | String "-" r => (true, r)
  | String "+" r => (false, r)
  | _ => (false, s)
  end.

Definition signed (negative : bool) (z : Z) : Z := if negative then - z else z.

(** The digits read in radix 10 and in radix 16, with the sign; no digit
    gives [NaN]. *)
Definition decimal_integer (negative : bool) (s : string) : number :=
  let '(v, n, _) := digits_from 0 O s in
  match n with O => NaN | _ => of_Z (signed negative v) end.

Definition hex_integer (negative : bool) (s : string) : number :=
  let '(v, n) := hex_digits_from 0 O s in
  match n with O => NaN | _ => of_Z (signed negative v) end.

(** [parseInt(s)] with no radix: leading white space and a sign are
    skipped, [0x] or [0X] selects radix 16, and the longest run of digits
    is read.  The argument is [undefined] when the caller indexed past the
    end of an array. *)
Definition parseInt_string (s : string) : number :=
  let '(neg, r) := sign_of (trimStart s) in
  match r with
  | String z (String x h) =>
      if (Ascii.eqb z "0" && (Ascii.eqb x "x" || Ascii.eqb x "X"))%bool
      then hex_integer neg h
      else decimal_integer neg r
  | _ => decimal_integer neg r
  end.

Definition parseInt (s : option string) : number :=
  match s with
  | Some s => parseInt_string s
  | None => parseInt_string "undefined"
  end.

(** *** [parseFloat] *)

(** [m * 10 ^ e]. *)
Definition decimal (m e : Z) : Q :=
  if (e <? 0)%Z then Qred (m # Z.to_pos (10 ^ (- e))) else inject_Z (m * 10 ^ e).

(** An exponent part [e], [e+] or [e-] followed by at least one digit;
    otherwise nothing is consumed and the exponent is 0. *)
Definition exponent_of (s : string) : Z :=
  match s with
  | String x r =>
      if (Ascii.eqb x "e" || Ascii.eqb x "E")%bool then
        let '(neg, r') := sign_of r in
        let '(v, n, _) := digits_from 0 O r' in
        match n with O => 0 | _ => signed neg v end
      else 0
  | EmptyString => 0
  end.

(** [parseFloat(s)]: the longest prefix that is a decimal literal, after
    leading white space: a sign, then [Infinity], or digits with an
    optional fraction and exponent, or a fraction that starts with the
    point. *)
Definition parseFloat_string (s : string) : number :=
  let '(neg, r) := sign_of (trimStart s) in
  if prefix "Infinity" r then Infinity neg
  else
    let '(ip, ni, r1) := digits_from 0 O r in
    match r1 with
    | String "." r2 =>
        let '(fp, nf, r3) := digits_from ip O r2 in
        match ni, nf with
        | O, O => NaN
        | _, _ => Num (decimal (signed neg fp) (exponent_of r3 - Z.of_nat nf))
        end
    | _ =>
        match ni with
        | O => NaN
        | _ => Num (decimal (signed neg ip) (exponent_of r1))
        end
    end.

Definition parseFloat (s : option string) : number :=
  match s with
  | Some s => parseFloat_string s
  | None => parseFloat_string "undefined"
  end.

(** ** [Array.prototype.sort] with a comparator

    The comparator's result is read as the language prescribes: [NaN]
    counts as 0, a positive result puts the second argument first.  The
    sort is stable; for a consistent comparator the result below is the
    one every conforming engine returns.  For a comparator that is not
    consistent the language leaves the order to the engine, and the order
    below need not be the one of Node. *)

Section Sort.
Context {A : Type} (comparefn : A -> A -> number).

(** [comparefn(x, y) > 0]. *)
Definition after (x y : A) : bool := lt (of_Z 0) (comparefn x y).

(** [x] may stand before [y]: [comparefn(x, y)] is not positive. *)
Definition precedes (x y : A) : Prop := after x y = false.

Fixpoint insert (x : A) (l : list A) : list A :=
  match l with
  | [] => [x]
  | y :: r => if after x y then y :: insert x r else x :: l
  end.

Fixpoint sort (l : list A) : list A :=
  match l with
  | [] => []
  | x :: r => insert x (sort r)
  end.
End Sort.

End JS.

(* ================================================================== *)
(** * server/src/utils/system.js                                       *)
(* ================================================================== *)

Module System.
Import JS.
Local Open Scope string_scope.

(** One entry of [os.cpus()]: the tick counters are whole milliseconds. *)
Record times : Type := {
  user : Z;
  nice : Z;
  sys : Z;
  idle : Z;
  irq : Z
}.

Record cpu : Type := {
  model : string;
  speed : Z;
  cpu_times : times
}.

(** [Object.values(cpu.times)], in the order the keys are created. *)
Definition values (t : times) : list number :=
  [of_Z (user t); of_Z (nice t); of_Z (sys t); of_Z (idle t); of_Z (irq t)].

(** The [for] loop of [getCPUPercent]: [cpus2[i]] is [undefined] when the
    second reading is shorter, and reading [.times] of it throws ([None]). *)
Fixpoint accumulate (cpus1 cpus2 : list cpu) (totalIdle totalTick : number)
  : option (number * number) :=
  match cpus1 with
  | [] => Some (totalIdle, totalTick)
  | cpu1 :: rest1 =>
      match cpus2 with
      | [] => None
      | cpu2 :: rest2 =>
          let idle1 := of_Z (idle (cpu_times cpu1)) in
          let idle2 := of_Z (idle (cpu_times cpu2)) in
          let total1 := sum (values (cpu_times cpu1)) in
          let total2 := sum (values (cpu_times cpu2)) in
          accumulate rest1 rest2
            (add totalIdle (sub idle2 idle1))
            (add totalTick (sub total2 total1))
      end
  end.

(** [getCPUPercent], given the reading taken at the call and the one taken
    100 ms later. *)
Definition getCPUPercent (cpus1 cpus2 : list cpu) : option number :=
  match accumulate cpus1 cpus2 (of_Z 0) (of_Z 0) with
  | None => None
  | Some (totalIdle, totalTick) =>
      let usage :=
        sub (of_Z 100) (Math_round (product (quotient totalIdle totalTick) (of_Z 100))) in
      Some (Math_max (of_Z 0) (Math_min (of_Z 100) usage))
  end.

(** [getCPUTemperature]: the thermal zones in order, each the content of
    the file or [None] when reading it throws. *)
Fixpoint getCPUTemperature (thermal : list (option string)) : option number :=
  match thermal with
  | [] => None
  | None :: rest => getCPUTemperature rest
  | Some temp :: rest =>
      let tempValue := parseInt_string (trim temp) in
      if is_NaN tempValue then getCPUTemperature rest
      else Some (Math_round (div tempValue (of_Z 1000)))
  end.

Record cpuInfo : Type := {
  info_model : string;
  cores : Z;
  info_speed : number;
  architecture : string;
  usage : number;
  temperature : option number
}.

(** [getCPUUsage]: [cpus] is the reading for the static fields, [cpus1] and
    [cpus2] the two readings of [getCPUPercent]. *)
Definition getCPUUsage (platform arch : string) (cpus cpus1 cpus2 : list cpu)
    (thermal : list (option string)) : option cpuInfo :=
  match getCPUPercent cpus1 cpus2 with
  | None => None
  | Some u =>
      Some {|
        info_model := match cpus with c :: _ => str_or_else (model c) "Unknown" | [] => "Unknown" end;
        cores := Z.of_nat (List.length cpus);
        info_speed := match cpus with c :: _ => or_else (of_Z (speed c)) (of_Z 0) | [] => of_Z 0 end;
        architecture := arch;
        usage := u;
        temperature := if String.eqb platform "linux" then getCPUTemperature thermal else None
      |}
  end.

(** The extended fields read from [/proc/meminfo]. *)
Record extended : Type := {
  available : number;
  buffers : number;
  cached : number;
  swapTotal : number;
  swapFree : number;
  swapUsed : number
}.

Record memInfo : Type := {
  total : number;
  free : number;
  used : number;
  percentage : number;
  more : option extended
}.

(** [line.match(/(\d+)/)]: the first run of digits of the line. *)
Fixpoint first_digits (line : string) : option string :=
  match line with
  | EmptyString => None
  | String c r =>
      if is_digit c then
        let '(_, n, _) := digits_from 0 O line in
        Some (substring 0 n line)
      else first_digits r
  end.

Definition getMemValue (lines : list string) (name : string) : number :=
  match find (fun l => prefix name l) lines with
  | Some line =>
      match first_digits line with
      | Some m => Math_round (div (parseInt_string m) (of_Z 1024))
      | None => of_Z 0
      end
  | None => of_Z 0
  end.

(** [getMemoryUsage]: [totalMemory] and [freeMemory] are [os.totalmem()]
    and [os.freemem()] in bytes; [meminfo] is the content of
    [/proc/meminfo], [None] when reading it throws. *)
Definition getMemoryUsage (platform : string) (totalMemory freeMemory : Z)
    (meminfo : option string) : memInfo :=
  let usedMemory := sub (of_Z totalMemory) (of_Z freeMemory) in
  {|
    total := Math_round (div (div (of_Z totalMemory) (of_Z 1024)) (of_Z 1024));
    free := Math_round (div (div (of_Z freeMemory) (of_Z 1024)) (of_Z 1024));
    used := Math_round (div (div usedMemory (of_Z 1024)) (of_Z 1024));
    percentage := Math_round (product (quotient usedMemory (of_Z totalMemory)) (of_Z 100));
    more :=
      if String.eqb platform "linux" then
        match meminfo with
        | Some text =>
            let lines := split_char "010"%char text in
            let st := getMemValue lines "SwapTotal:" in
            let sf := getMemValue lines "SwapFree:" in
            Some {|
              available := getMemValue lines "MemAvailable:";
              buffers := getMemValue lines "Buffers:";
              cached := getMemValue lines "Cached:";
              swapTotal := st;
              swapFree := sf;
              swapUsed := sub st sf
            |}
        | None => None
        end
      else None
  |}.

(** *** Sample readings *)

(** A machine of four cores whose counters did not move between the two
    readings, and the same machine after 100 ms of which one core was
    busy for 60. *)
Definition core (busy idle_ms : Z) : cpu :=
  {| model := "Cortex-A76"; speed := 2400;
     cpu_times := {| user := busy; nice := 0; sys := 0; idle := idle_ms; irq := 0 |} |}.

Definition reading1 : list cpu := [core 5000 90000; core 4000 91000; core 100 95000; core 0 95100].
Definition reading2 : list cpu := [core 5060 90040; core 4000 91100; core 100 95100; core 0 95200].

End System.

(* ================================================================== *)
(** * server/src/utils/processes.js                                    *)
(* ================================================================== *)

Module Processes.
Import JS.
Local Open Scope string_scope.

(** A process object.  The three parsers build objects of different
    shapes; a key one of them does not set is [None] here. *)
Record process : Type := {
  pid : number;
  ppid : option number;
  user : string;
  cpu : number;
  memory : number;
  memoryMB : option number;
  vsz : option number;
  rss : option number;
  status : option string;
  start : option string;
  time : option string;
  name : string;
  command : string;
  sessionName : option string;
  sessionId : option number
}.

(** [calculateMemoryMB(vsz, rss)]. *)
Definition calculateMemoryMB (vsz rss : option string) : number :=
  let rssKB := or_else (parseInt rss) (of_Z 0) in
  Math_round (div rssKB (of_Z 1024)).

(** The object built from a line of [ps aux], if it has 11 columns. *)
Definition aux_process (line : string) : option process :=
  let parts := split_spaces line in
  if (11 <=? List.length parts)%nat then
    Some {|
      pid := parseInt (at_ parts 1);
      ppid := Some (of_Z 0);
      user := nth 0 parts "";
      cpu := or_else (parseFloat (at_ parts 2)) (of_Z 0);
      memory := or_else (parseFloat (at_ parts 3)) (of_Z 0);
      memoryMB := Some (calculateMemoryMB (at_ parts 4) (at_ parts 5));
      vsz := Some (or_else (parseInt (at_ parts 4)) (of_Z 0));
      rss := Some (or_else (parseInt (at_ parts 5)) (of_Z 0));
      status := Some (at_or parts 7 "unknown");
      start := Some (at_or parts 8 "");
      time := Some (at_or parts 9 "");
      name := at_or parts 10 "unknown";
      command := join " " (skipn 10 parts);
      sessionName := None;
      sessionId := None
    |}
  else None.

(** The object built from a line of the other [ps] formats, if it has 6
    columns. *)
Definition other_process (line : string) : option process :=
  let parts := split_spaces line in
  if (6 <=? List.length parts)%nat then
    Some {|
      pid := parseInt (at_ parts 0);
      ppid := Some (or_else (parseInt (at_ parts 1)) (of_Z 0));
      user := at_or parts 2 "unknown";
      cpu := or_else (parseFloat (at_ parts 3)) (of_Z 0);
      memory := or_else (parseFloat (at_ parts 4)) (of_Z 0);
      memoryMB := None;
      vsz := None;
      rss := None;
      status := None;
      start := None;
      time := None;
      name := at_or parts 5 "unknown";
      command := str_or_else (join " " (skipn 6 parts)) (nth 5 parts "");
      sessionName := None;
      sessionId := None
    |}
  else None.

(** The body of the [for] loop of [parseUnixProcesses] for one line: the
    object pushed, if any.  [process && process.pid] keeps an object whose
    [pid] is truthy. *)
Definition unix_line (commandUsed : string) (raw : string) : option process :=
  let line := trim raw in
  match line with
  | EmptyString => None
  | _ =>
      match (if includes "aux" commandUsed then aux_process line else other_process line) with
      | Some p => if truthy (pid p) then Some p else None
      | None => None
      end
  end.

(** The lines after the header line ([i] starts at 1). *)
Definition body_lines (stdout : string) : list string :=
  tl (split_char "010"%char (trim stdout)).

(** The loop: the objects pushed, in the order of the lines. *)
Fixpoint collect (parse : string -> option process) (lines : list string) : list process :=
  match lines with
  | [] => []
  | l :: rest =>
      match parse l with
      | Some p => p :: collect parse rest
      | None => collect parse rest
      end
  end.

(** The double quote, and the separator of [line.split('","')]. *)
Definition quote : ascii := "034"%char.
Definition separator : string := String quote (String ","%char (String quote EmptyString)).

(** The object built from a line of [tasklist /FO CSV], if it has 5
    fields. *)
Definition windows_line (raw : string) : option process :=
  let line := trim raw in
  match line with
  | EmptyString => None
  | _ =>
      let parts := map (remove_all (Ascii.eqb quote)) (split_string separator line) in
      if (5 <=? List.length parts)%nat then
        let memoryStr :=
          remove_all (fun c => Ascii.eqb c ","%char || is_space c) (nth 4 parts "") in
        let memoryKB := or_else (parseInt_string memoryStr) (of_Z 0) in
        Some {|
          pid := parseInt (at_ parts 1);
          ppid := None;
          user := "unknown";
          cpu := of_Z 0;
          memory := memoryKB;
          memoryMB := Some (Math_round (div memoryKB (of_Z 1024)));
          vsz := None;
          rss := None;
          status := None;
          start := None;
          time := None;
          name := nth 0 parts "";
          command := nth 0 parts "";
          sessionName := Some (nth 2 parts "");
          sessionId := Some (or_else (parseInt (at_ parts 3)) (of_Z 0))
        |}
      else None
  end.

Section WithCollation.
(** [a.localeCompare(b)]: the collation of the host's locale, negative,
    zero or positive. *)
Variable localeCompare : string -> string -> number.

(** The comparator of [parseUnixProcesses]. *)
Definition unix_compare (sortBy : string) (a b : process) : number :=
  if String.eqb sortBy "memory" then
    sub (or_else (memory b) (of_Z 0)) (or_else (memory a) (of_Z 0))
  else if String.eqb sortBy "name" then
    localeCompare (str_or_else (name a) "") (str_or_else (name b) "")
  else if String.eqb sortBy "pid" then
    sub (pid a) (pid b)
  else
    sub (or_else (cpu b) (of_Z 0)) (or_else (cpu a) (of_Z 0)).

Definition parseUnixProcesses (stdout : string) (limit : Z) (sortBy commandUsed : string)
  : list process :=
  let processes := collect (unix_line commandUsed) (body_lines stdout) in
  slice0 limit (sort (unix_compare sortBy) processes).

(** The comparator of [getWindowsProcesses]: any other key falls back to
    memory, the CPU usage not being available. *)
Definition windows_compare (sortBy : string) (a b : process) : number :=
  if String.eqb sortBy "memory" then sub (memory b) (memory a)
  else if String.eqb sortBy "name" then localeCompare (name a) (name b)
  else if String.eqb sortBy "pid" then sub (pid a) (pid b)
  else sub (memory b) (memory a).

(** [getWindowsProcesses] once [tasklist /FO CSV] has answered with
    [stdout]. *)
Definition parseWindowsProcesses (stdout : string) (limit : Z) (sortBy : string)
  : list process :=
  let processes := collect windows_line (body_lines stdout) in
  slice0 limit (sort (windows_compare sortBy) processes).

(** The shell: [exec cmd] is the standard output of the command, [None]
    when running it fails. *)
Variable exec : string -> option string.

Definition getWindowsProcesses (limit : Z) (sortBy : string) : option (list process) :=
  match exec "tasklist /FO CSV" with
  | Some stdout => Some (parseWindowsProcesses stdout limit sortBy)
  | None => None
  end.

Definition commands : list string :=
  [ "ps aux --sort=-%cpu";
    "ps aux";
    "ps -eo pid,ppid,user,cpu,pmem,comm,args";
    "ps -A" ].

(** The first command that runs: its output and itself. *)
Fixpoint first_success (cmds : list string) : string * string :=
  match cmds with
  | [] => ("", "")
  | cmd :: rest =>
      match exec cmd with
      | Some stdout => (stdout, cmd)
      | None => first_success rest
      end
  end.

(** [getUnixProcesses]: [None] when it throws, no command having
    produced any output. *)
Definition getUnixProcesses (limit : Z) (sortBy : string) : option (list process) :=
  let '(stdout, commandUsed) := first_success commands in
  match stdout with
  | EmptyString => None
  | _ => Some (parseUnixProcesses stdout limit sortBy commandUsed)
  end.

(** [getProcessList]: on failure the single entry that describes the
    monitoring process itself, [self]. *)
Definition getProcessList (platform : string) (self : process) (limit : Z) (sortBy : string)
  : list process :=
  match (if String.eqb platform "win32" then getWindowsProcesses limit sortBy
         else getUnixProcesses limit sortBy) with
  | Some l => l
  | None => [self]
  end.

(** *** The order the specification asks for *)

(** [a <= b] between two numbers, neither of them [NaN]. *)
Definition num_le (a b : number) : Prop :=
  a <> NaN /\ b <> NaN /\ lt b a = false.

(** [a] may stand before [b] in a batch sorted by [sortBy]: descending
    [memory], ascending [name] in the collation, ascending [pid], and for
    any other key descending [cpu]. *)
Definition in_order (sortBy : string) (a b : process) : Prop :=
  if String.eqb sortBy "memory" then num_le (memory b) (memory a)
  else if String.eqb sortBy "name" then
    lt (of_Z 0) (localeCompare (name a) (name b)) = false
  else if String.eqb sortBy "pid" then num_le (pid a) (pid b)
  else num_le (cpu b) (cpu a).
End WithCollation.

(** *** What the parsers guarantee of an object *)

(** An object pushed by [parseUnixProcesses]: [cpu] and [memory] went
    through [|| 0], and [pid] is truthy. *)
Definition unix_object (p : process) : Prop :=
  or_else (cpu p) (of_Z 0) = cpu p /\
  or_else (memory p) (of_Z 0) = memory p /\
  truthy (pid p) = true.

(** An object pushed by [getWindowsProcesses]: [cpu] is 0 and [memory]
    went through [|| 0]. *)
Definition windows_object (p : process) : Prop :=
  cpu p = of_Z 0 /\ or_else (memory p) (of_Z 0) = memory p.

(** [pid] is a positive integer. *)
Definition valid_pid (p : process) : Prop :=
  exists z, pid p = of_Z z /\ (0 < z)%Z.

(** *** Sample outputs *)

Definition LF : string := String "010"%char EmptyString.
Definition CRLF : string := String "013"%char LF.

(** A line of [tasklist /FO CSV]. *)
Definition csv (fields : list string) : string :=
  String quote (join separator fields ++ String quote EmptyString).

(** What [tasklist /FO CSV] prints on a machine with three processes; the
    first entry is always the idle process, with PID 0. *)
Definition tasklist_output : string :=
  csv ["Image Name"; "PID"; "Session Name"; "Session#"; "Mem Usage"] ++ CRLF ++
  csv ["System Idle Process"; "0"; "Services"; "0"; "8 K"] ++ CRLF ++
  csv ["System"; "4"; "Services"; "0"; "2,184 K"] ++ CRLF ++
  csv ["chrome.exe"; "1234"; "Console"; "1"; "123,456 K"] ++ CRLF.

(** A listing whose PID column does not hold a number in one line. *)
Definition tasklist_garbled : string :=
  csv ["Image Name"; "PID"; "Session Name"; "Session#"; "Mem Usage"] ++ CRLF ++
  csv ["b.exe"; "30"; "Console"; "1"; "10 K"] ++ CRLF ++
  csv ["a.exe"; "N/A"; "Console"; "1"; "20 K"] ++ CRLF ++
  csv ["c.exe"; "10"; "Console"; "1"; "30 K"] ++ CRLF.

(** What [ps aux] prints, with a truncated line and a line whose PID
    column is not a number. *)
Definition ps_aux_output : string :=
  "USER       PID %CPU %MEM    VSZ   RSS TTY      STAT START   TIME COMMAND" ++ LF ++
  "root         1  0.0  0.1 168000 11264 ?        Ss   09:12   0:01 /sbin/init splash" ++ LF ++
  "bob       2210 12.5  3.0 999999 204800 pts/0   R+   10:01   1:00 node src/index.js" ++ LF ++
  "bob       2301  0.3  7.5 555555 614400 ?       Sl   10:02   0:09 chrome" ++ LF ++
  "truncated line" ++ LF ++
  "eve          ?  1.0  1.0      1      1 ?        S    10:03   0:00 ghost" ++ LF.

(** A listing of [ps aux] with a negative number in the PID column. *)
Definition ps_aux_negative : string :=
  "USER       PID %CPU %MEM    VSZ   RSS TTY      STAT START   TIME COMMAND" ++ LF ++
  "eve         -7  5.0  1.0      1      1 ?        S    10:03   0:00 ghost" ++ LF.

(** The order of the code units, as a collation. *)
Definition code_unit_compare (a b : string) : number :=
  match String.compare a b with
  | Lt => of_Z (-1)
  | Eq => of_Z 0
  | Gt => of_Z 1
  end.

End Processes.

(* ================================================================== *)
(** * server/src/utils/monitor.js                                      *)
(* ================================================================== *)

Module Monitor.
Import JS.
Local Open Scope string_scope.
Local Open Scope list_scope.

(** The values that travel as JSON.  An object is the list of its own
    keys with their values, in creation order. *)
Inductive json : Type :=
| JNull : json
| JBool (b : bool) : json
| JNum (n : number) : json
| JStr (s : string) : json
| JArr (items : list json) : json
| JObj (members : list (string * json)) : json.

(** [data.key] of a parsed message; [None] is [undefined]. *)
Fixpoint member (key : string) (members : list (string * json)) : option json :=
  match members with
  | [] => None
  | (k, v) :: rest => if String.eqb k key then Some v else member key rest
  end.

(** The keys of an object, [[]] for any other value. *)
Definition keys (v : json) : list string :=
  match v with
  | JObj members => map fst members
  | _ => []
  end.

(** A [WebSocket] object is known by its identity. *)
Definition ws : Type := nat.

(** What the monitor reads of a socket: the [subscribed] property it sets
    itself ([undefined], which is falsy, until then), [readyState], and
    whether [send] throws. *)
Record socket : Type := {
  subscribed : bool;
  readyState : Z;
  send_throws : bool
}.

Definition OPEN : Z := 1.
Definition CLOSED : Z := 3.

(** One element of the array [Promise.allSettled] resolves to, when it
    does; for a rejection, [message] is [reason?.message], [None] when
    [undefined]. *)
Inductive settled : Type :=
| fulfilled (value : json) : settled
| rejected (message : option string) : settled.

Inductive collector : Type := getCPUUsage | getMemoryUsage | getProcessList.

(** What a handler does besides changing the state. *)
Inductive effect : Type :=
| Invoke (c : collector) : effect            (* the collector is called *)
| Sent (to : ws) (data : json) : effect      (* ws.send(JSON.stringify(data)) returned *)
| Console (text : string) : effect.          (* console.log, warn or error *)

(** An asynchronous function suspended at its [await Promise.allSettled]:
    [broadcastSystemUpdate] with its array [subscribedClients], or
    [sendSystemUpdate] with its argument. *)
Inductive task : Type :=
| Broadcast (subscribedClients : list ws) : task
| Reply (target : ws) : task.

Record state : Type := {
  monitoringInterval : bool;      (* the interval is set *)
  connectedClients : list ws;     (* the Set, in insertion order *)
  sockets : ws -> socket;
  pending : list task
}.

(** [Set.prototype.add], [delete] and [size]. *)
Definition Set_add (w : ws) (s : list ws) : list ws :=
  if existsb (Nat.eqb w) s then s else s ++ [w].

Definition Set_delete (w : ws) (s : list ws) : list ws :=
  filter (fun x => negb (Nat.eqb x w)) s.

Definition update (f : ws -> socket) (w : ws) (v : socket) : ws -> socket :=
  fun x => if Nat.eqb x w then v else f x.

Definition with_clients (st : state) (c : list ws) : state :=
  {| monitoringInterval := monitoringInterval st; connectedClients := c;
     sockets := sockets st; pending := pending st |}.

Definition with_socket (st : state) (w : ws) (v : socket) : state :=
  {| monitoringInterval := monitoringInterval st; connectedClients := connectedClients st;
     sockets := update (sockets st) w v; pending := pending st |}.

Definition with_pending (st : state) (p : list task) : state :=
  {| monitoringInterval := monitoringInterval st; connectedClients := connectedClients st;
     sockets := sockets st; pending := p |}.

Definition with_interval (st : state) (b : bool) : state :=
  {| monitoringInterval := b; connectedClients := connectedClients st;
     sockets := sockets st; pending := pending st |}.

(** The module's initial state. *)
Definition initial : state :=
  {| monitoringInterval := false; connectedClients := [];
     sockets := fun _ => {| subscribed := false; readyState := CLOSED; send_throws := true |};
     pending := [] |}.

(** [array.filter(Boolean)] on an array of strings, [null] and
    [undefined]: the non-empty strings. *)
Fixpoint filter_Boolean (a : list (option string)) : list string :=
  match a with
  | [] => []
  | Some (String c r) :: rest => String c r :: filter_Boolean rest
  | _ :: rest => filter_Boolean rest
  end.

(** [d.status === 'fulfilled' ? d.value : otherwise]. *)
Definition value_or (d : settled) (otherwise : json) : json :=
  match d with fulfilled v => v | rejected _ => otherwise end.

(** [d.status === 'rejected' ? d.reason?.message : null]. *)
Definition message_or_null (d : settled) : option string :=
  match d with fulfilled _ => None | rejected m => m end.

(** The object [updateData] of [broadcastSystemUpdate]; [now] is
    [new Date().toISOString()]. *)
Definition broadcast_data (now : string) (cpuData memoryData topProcesses : settled) : json :=
  JObj [
    ("type", JStr "systemUpdate");
    ("timestamp", JStr now);
    ("cpu", value_or cpuData JNull);
    ("memory", value_or memoryData JNull);
    ("processes", value_or topProcesses (JArr []));
    ("errors", JArr (map JStr (filter_Boolean
        [message_or_null cpuData; message_or_null memoryData; message_or_null topProcesses])))
  ].

(** The object [updateData] of [sendSystemUpdate]. *)
Definition reply_data (now : string) (cpuData memoryData : settled) : json :=
  JObj [
    ("type", JStr "systemUpdate");
    ("timestamp", JStr now);
    ("cpu", value_or cpuData JNull);
    ("memory", value_or memoryData JNull)
  ].

(** The callback of [subscribedClients.forEach] for one socket. *)
Definition push (updateData : json) (w : ws) (st : state) : state * list effect :=
  if Z.eqb (readyState (sockets st w)) OPEN then
    if send_throws (sockets st w) then
      (with_clients st (Set_delete w (connectedClients st)),
       [Console "Failed to send update to client:"])
    else (st, [Sent w updateData])
  else (st, []).

Fixpoint forEach (updateData : json) (clients : list ws) (st : state) : state * list effect :=
  match clients with
  | [] => (st, [])
  | w :: rest =>
      let '(st1, e1) := push updateData w st in
      let '(st2, e2) := forEach updateData rest st1 in
      (st2, e1 ++ e2)
  end.

(** [broadcastSystemUpdate] up to its [await]: the subscribed sockets are
    selected, and unless there is none the three collectors are called. *)
Definition broadcastSystemUpdate_call (st : state) : state * list effect :=
  let subscribedClients := filter (fun w => subscribed (sockets st w)) (connectedClients st) in
  match subscribedClients with
  | [] => (st, [])
  | _ => (with_pending st (pending st ++ [Broadcast subscribedClients]),
          [Invoke getCPUUsage; Invoke getMemoryUsage; Invoke getProcessList])
  end.

(** [broadcastSystemUpdate] from its [await] on, in the state of that
    moment. *)
Definition broadcastSystemUpdate_resume (subscribedClients : list ws)
    (cpuData memoryData topProcesses : settled) (now : string) (st : state)
  : state * list effect :=
  forEach (broadcast_data now cpuData memoryData topProcesses) subscribedClients st.

(** The callback of [setInterval], up to the [await]. *)
Definition tick (st : state) : state * list effect :=
  match connectedClients st with
  | [] => (st, [])
  | _ => broadcastSystemUpdate_call st
  end.

(** [sendSystemUpdate(ws)] up to its [await]. *)
Definition sendSystemUpdate_call (w : ws) (st : state) : state * list effect :=
  if Z.eqb (readyState (sockets st w)) OPEN then
    (with_pending st (pending st ++ [Reply w]), [Invoke getCPUUsage; Invoke getMemoryUsage])
  else (st, []).

(** [sendSystemUpdate(ws)] from its [await] on: a throwing [send] is
    caught and logged. *)
Definition sendSystemUpdate_resume (w : ws) (cpuData memoryData : settled) (now : string)
    (st : state) : state * list effect :=
  if send_throws (sockets st w) then (st, [Console "Failed to send system update:"])
  else (st, [Sent w (reply_data now cpuData memoryData)]).

Definition set_subscribed (st : state) (w : ws) (b : bool) : state :=
  with_socket st w {| subscribed := b; readyState := readyState (sockets st w);
                      send_throws := send_throws (sockets st w) |}.

(** [handleClientMessage(data, ws)] for an object [data]. *)
Definition handleClientMessage (members : list (string * json)) (w : ws) (st : state)
  : state * list effect :=
  match member "type" members with
  | Some (JStr "subscribe") =>
      (set_subscribed st w true, [Console "Client subscribed to real-time updates"])
  | Some (JStr "unsubscribe") =>
      (set_subscribed st w false, [Console "Client unsubscribed from real-time updates"])
  | Some (JStr "requestUpdate") => sendSystemUpdate_call w st
  | _ => (st, [Console "Unknown message type:"])
  end.

(** The ['message'] handler; [parsed] is the result of [JSON.parse],
    [None] when it throws.  Reading [.type] of [null] throws as well, and
    of any other value that is not an object gives [undefined]. *)
Definition on_message (parsed : option json) (w : ws) (st : state) : state * list effect :=
  match parsed with
  | None | Some JNull => (st, [Console "Invalid WebSocket message:"])
  | Some (JObj members) => handleClientMessage members w st
  | Some _ => handleClientMessage [] w st
  end.

(** What happens to the module. *)
Inductive event : Type :=
| StartMonitoring : event
| StopMonitoring : event
| Connection (w : ws) : event                          (* wss 'connection', [w] a new socket *)
| Close (w : ws) : event                               (* ws 'close' *)
| Error (w : ws) : event                               (* ws 'error' *)
| Message (w : ws) (parsed : option json) : event      (* ws 'message' *)
| Transport (w : ws) (readyState : Z) (send_throws : bool) : event
                                                       (* the connection changes under the monitor *)
| Tick : event                                         (* the interval fires *)
| Settled (k : nat) (cpuData memoryData topProcesses : settled) (now : string) : event.
                                                       (* the promise of the k-th pending task settles *)

(** The list without its [k]-th element. *)
Fixpoint remove_nth {A : Type} (k : nat) (l : list A) : list A :=
  match l, k with
  | [], _ => []
  | _ :: r, O => r
  | x :: r, S k' => x :: remove_nth k' r
  end.

Definition step (st : state) (e : event) : state * list effect :=
  match e with
  | StartMonitoring =>
      (with_interval st true, [Console "Real-time monitoring started (5s intervals)"])
  | StopMonitoring =>
      if monitoringInterval st then (with_interval st false, [Console "System monitoring stopped"])
      else (st, [])
  | Connection w =>
      (with_clients
         (with_socket st w {| subscribed := false; readyState := OPEN; send_throws := false |})
         (Set_add w (connectedClients st)), [])
  | Close w =>
      (with_clients
         (with_socket st w {| subscribed := subscribed (sockets st w); readyState := CLOSED;
                              send_throws := send_throws (sockets st w) |})
         (Set_delete w (connectedClients st)), [])
  | Error w => (with_clients st (Set_delete w (connectedClients st)), [])
  | Message w parsed => on_message parsed w st
  | Transport w r t =>
      (with_socket st w {| subscribed := subscribed (sockets st w); readyState := r;
                           send_throws := t |}, [])
  | Tick => if monitoringInterval st then tick st else (st, [])
  | Settled k cpuData memoryData topProcesses now =>
      match nth_error (pending st) k with
      | None => (st, [])
      | Some (Broadcast subscribedClients) =>
          broadcastSystemUpdate_resume subscribedClients cpuData memoryData topProcesses now
            (with_pending st (remove_nth k (pending st)))
      | Some (Reply w) =>
          sendSystemUpdate_resume w cpuData memoryData now
            (with_pending st (remove_nth k (pending st)))
      end
  end.

(** A run of events, with everything it did. *)
Fixpoint run (st : state) (es : list event) : state * list effect :=
  match es with
  | [] => (st, [])
  | e :: rest =>
      let '(st1, t1) := step st e in
      let '(st2, t2) := run st1 rest in
      (st2, t1 ++ t2)
  end.

(** One broadcast tick whose collectors settle before anything else
    happens. *)
Definition broadcast_tick (st : state) (cpuData memoryData topProcesses : settled)
    (now : string) : state * list effect :=
  let '(st1, t1) := tick st in
  match t1 with
  | [] => (st1, [])
  | _ =>
      let '(st2, t2) :=
        step st1 (Settled (List.length (pending st)) cpuData memoryData topProcesses now) in
      (st2, t1 ++ t2)
  end.

(** *** Promises that never settle

    [getCPUUsage] awaits [getCPUPercent], whose body runs in the callback
    of a timer.  When [cpus2[i]] is [undefined] there, reading [.times] of
    it throws outside every promise: [resolve] is never called, the
    promise of [getCPUUsage] stays pending, and so does the one of
    [Promise.allSettled].  (Node ends the process on an exception no one
    catches unless a handler is installed for it; [index.js] installs
    none.) *)
Inductive promise : Type :=
| settles (d : settled) : promise
| stays_pending : promise.

(** The object [getCPUUsage] returns. *)
Definition cpu_json (info : System.cpuInfo) : json :=
  JObj ([("model", JStr (System.info_model info));
         ("cores", JNum (of_Z (System.cores info)));
         ("speed", JNum (System.info_speed info));
         ("architecture", JStr (System.architecture info));
         ("usage", JNum (System.usage info))] ++
        match System.temperature info with
        | Some t => [("temperature", JNum t)]
        | None => []
        end).

(** The promise of [getCPUUsage()], given what [System.getCPUUsage]
    computes: [None] is the exception in the timer callback. *)
Definition getCPUUsage_promise (result : option System.cpuInfo) : promise :=
  match result with
  | Some info => settles (fulfilled (cpu_json info))
  | None => stays_pending
  end.

(** [await Promise.allSettled(promises)]: the outcomes once every promise
    has settled; [None] when one of them never does, and the function
    that awaits is not resumed. *)
Fixpoint allSettled (promises : list promise) : option (list settled) :=
  match promises with
  | [] => Some []
  | settles d :: rest =>
      match allSettled rest with
      | Some outcomes => Some (d :: outcomes)
      | None => None
      end
  | stays_pending :: _ => None
  end.

(** One firing of the timer with the promises of the three collectors:
    the broadcast goes on when all of them have settled, and stays at its
    [await] otherwise. *)
Definition broadcast_attempt (st : state) (cpu memory processes : promise) (now : string)
  : state * list effect :=
  match allSettled [cpu; memory; processes] with
  | Some [cpuData; memoryData; topProcesses] =>
      broadcast_tick st cpuData memoryData topProcesses now
  | _ => tick st
  end.

(** *** Observations on states and traces *)

(** The registry's active-subscriber count. *)
Definition subscriber_count (st : state) : nat :=
  List.length (filter (fun w => subscribed (sockets st w)) (connectedClients st)).

(** The collectors a trace calls, in order. *)
Fixpoint invocations (t : list effect) : list collector :=
  match t with
  | [] => []
  | Invoke c :: rest => c :: invocations rest
  | _ :: rest => invocations rest
  end.

(** What a trace delivers to socket [w], in order. *)
Fixpoint sent_to (w : ws) (t : list effect) : list json :=
  match t with
  | [] => []
  | Sent to d :: rest => if Nat.eqb to w then d :: sent_to w rest else sent_to w rest
  | _ :: rest => sent_to w rest
  end.

(** The socket [w] is open and its [send] does not throw. *)
Definition ready (st : state) (w : ws) : bool :=
  Z.eqb (readyState (sockets st w)) OPEN && negb (send_throws (sockets st w)).

(** [data.key] of a value; [None] is [undefined]. *)
Definition field (key : string) (data : json) : option json :=
  match data with
  | JObj members => member key members
  | _ => None
  end.

(** *** Sample states and messages *)

(** A registry with one socket that never subscribed. *)
Definition one_unsubscribed : state :=
  fst (run initial [StartMonitoring; Connection 7%nat]).

(** Values a collector may have returned. *)
Definition sample_cpu : json := JObj [("cores", JNum (of_Z 4)); ("usage", JNum (of_Z 12))].
Definition sample_memory : json := JObj [("total", JNum (of_Z 7951)); ("percentage", JNum (of_Z 41))].
Definition sample_processes : json := JArr [JObj [("pid", JNum (of_Z 1)); ("name", JStr "init")]].

(** Three subscribed sockets, the second of which has a [send] that
    throws and the third of which is no longer open. *)
Definition three_subscribed : state :=
  fst (run initial
         [StartMonitoring;
          Connection 1%nat; Connection 2%nat; Connection 3%nat;
          Message 1%nat (Some (JObj [("type", JStr "subscribe")]));
          Message 2%nat (Some (JObj [("type", JStr "subscribe")]));
          Message 3%nat (Some (JObj [("type", JStr "subscribe")]));
          Transport 2%nat OPEN true;
          Transport 3%nat 2 false]).

(** The same registry after a tick: a broadcast is suspended at its
    [await]. *)
Definition three_awaiting : state := fst (step three_subscribed Tick).

(** The message a client sends to ask for an immediate update. *)
Definition requestUpdate : json := JObj [("type", JStr "requestUpdate")].

End Monitor.

(* ================================================================== *)
(** * src/hooks/useWebSocket.ts                                        *)
(* ================================================================== *)

Module Client.
Import JS.
Import Monitor (json, JNull, JBool, JNum, JStr, JArr, JObj, member).
Local Open Scope string_scope.
Local Open Scope list_scope.

Definition maxReconnectAttempts : nat := 5.
Definition reconnectDelay : Z := 3000.

(** [WebSocket.readyState]. *)
Definition CONNECTING : Z := 0.
Definition OPEN : Z := 1.
Definition CLOSED : Z := 3.

(** The hook: its React state ([connected], [lastUpdate], [data]), its
    refs, and around them the browser's sockets and running timers. *)
Record hook : Type := {
  connected : bool;
  lastUpdate : option json;
  data : option json;
  wsRef : option nat;
  reconnectTimeoutRef : option nat;
  reconnectAttempts : nat;
  readyState : nat -> Z;           (* of each socket created so far *)
  sockets : nat;                   (* how many were created *)
  timers : list nat;               (* the timeouts still to fire *)
  timeouts : nat                   (* how many were set *)
}.

Inductive effect : Type :=
| NewWebSocket (socket : nat) (url : string) : effect
| Send (socket : nat) (message : json) : effect
| CloseSocket (socket : nat) : effect
| SetTimeout (timer : nat) (delay : Z) : effect     (* of [connect] *)
| ClearTimeout (timer : nat) : effect
| Console (text : string) : effect.

(** What the hook returns to the component, functions apart. *)
Record exposed : Type := {
  exposed_connected : bool;
  exposed_lastUpdate : option json;
  exposed_data : option json
}.

Definition expose (h : hook) : exposed :=
  {| exposed_connected := connected h; exposed_lastUpdate := lastUpdate h;
     exposed_data := data h |}.

Definition initial : hook :=
  {| connected := false; lastUpdate := None; data := None; wsRef := None;
     reconnectTimeoutRef := None; reconnectAttempts := O;
     readyState := fun _ => CLOSED; sockets := O; timers := []; timeouts := O |}.

Definition intent (type : string) : json := JObj [("type", JStr type)].

(** [connect()]: the constructor does not throw on the fixed URL. *)
Definition connect (h : hook) : hook * list effect :=
  let ws := sockets h in
  ({| connected := connected h; lastUpdate := lastUpdate h; data := data h;
      wsRef := Some ws;
      reconnectTimeoutRef := reconnectTimeoutRef h;
      reconnectAttempts := reconnectAttempts h;
      readyState := fun x => if Nat.eqb x ws then CONNECTING else readyState h x;
      sockets := S ws; timers := timers h; timeouts := timeouts h |},
   [NewWebSocket ws "ws://localhost:5000"]).

(** [ws.onopen]. *)
Definition onopen (ws : nat) (h : hook) : hook * list effect :=
  ({| connected := true; lastUpdate := lastUpdate h; data := data h;
      wsRef := wsRef h;
      reconnectTimeoutRef := reconnectTimeoutRef h;
      reconnectAttempts := O;
      readyState := fun x => if Nat.eqb x ws then OPEN else readyState h x;
      sockets := sockets h; timers := timers h; timeouts := timeouts h |},
   [Console "WebSocket connected"; Send ws (intent "subscribe")]).

(** [ws.onmessage]; [parsed] is the result of [JSON.parse], [None] when it
    throws. *)
Definition onmessage (parsed : option json) (h : hook) : hook * list effect :=
  match parsed with
  | None | Some JNull => (h, [Console "Failed to parse WebSocket message:"])
  | Some (JObj members) =>
      match member "type" members with
      | Some (JStr "systemUpdate") =>
          ({| connected := connected h;
              lastUpdate := member "timestamp" members;
              data := Some (JObj members);
              wsRef := wsRef h;
              reconnectTimeoutRef := reconnectTimeoutRef h;
              reconnectAttempts := reconnectAttempts h;
              readyState := readyState h;
              sockets := sockets h; timers := timers h; timeouts := timeouts h |}, [])
      | _ => (h, [])
      end
  | Some _ => (h, [])
  end.

(** [ws.onclose]. *)
Definition onclose (ws : nat) (h : hook) : hook * list effect :=
  let closed := fun x => if Nat.eqb x ws then CLOSED else readyState h x in
  if (reconnectAttempts h <? maxReconnectAttempts)%nat then
    let t := timeouts h in
    ({| connected := false; lastUpdate := lastUpdate h; data := data h;
        wsRef := None;
        reconnectTimeoutRef := Some t;
        reconnectAttempts := S (reconnectAttempts h);
        readyState := closed;
        sockets := sockets h; timers := timers h ++ [t]; timeouts := S t |},
     [Console "WebSocket disconnected"; Console "Attempting to reconnect";
      SetTimeout t reconnectDelay])
  else
    ({| connected := false; lastUpdate := lastUpdate h; data := data h;
        wsRef := None;
        reconnectTimeoutRef := reconnectTimeoutRef h;
        reconnectAttempts := reconnectAttempts h;
        readyState := closed;
        sockets := sockets h; timers := timers h; timeouts := timeouts h |},
     [Console "WebSocket disconnected"; Console "Max reconnection attempts reached"]).

(** [ws.onerror]. *)
Definition onerror (h : hook) : hook * list effect :=
  ({| connected := false; lastUpdate := lastUpdate h; data := data h;
      wsRef := wsRef h;
      reconnectTimeoutRef := reconnectTimeoutRef h;
      reconnectAttempts := reconnectAttempts h;
      readyState := readyState h;
      sockets := sockets h; timers := timers h; timeouts := timeouts h |},
   [Console "WebSocket error:"]).

(** [disconnect()]. *)
Definition disconnect (h : hook) : hook * list effect :=
  let cleared :=
    match reconnectTimeoutRef h with
    | Some t => [ClearTimeout t]
    | None => []
    end in
  let running :=
    match reconnectTimeoutRef h with
    | Some t => filter (fun x => negb (Nat.eqb x t)) (timers h)
    | None => timers h
    end in
  let closing :=
    match wsRef h with
    | Some ws =>
        (if Z.eqb (readyState h ws) OPEN then [Send ws (intent "unsubscribe")] else [])
        ++ [CloseSocket ws]
    | None => []
    end in
  ({| connected := false; lastUpdate := lastUpdate h; data := data h;
      wsRef := None;
      reconnectTimeoutRef := None;
      reconnectAttempts := reconnectAttempts h;
      readyState := readyState h;
      sockets := sockets h; timers := running; timeouts := timeouts h |},
   cleared ++ closing).

(** [requestUpdate()]. *)
Definition requestUpdate (h : hook) : hook * list effect :=
  match wsRef h with
  | Some ws =>
      if Z.eqb (readyState h ws) OPEN then (h, [Send ws (intent "requestUpdate")]) else (h, [])
  | None => (h, [])
  end.

(** What happens to the hook. *)
Inductive event : Type :=
| Mount : event                                   (* the effect that calls [connect] *)
| Open (ws : nat) : event
| Message (ws : nat) (parsed : option json) : event
| Close (ws : nat) : event
| Error (ws : nat) : event
| Timeout (timer : nat) : event                   (* a timeout fires *)
| Disconnect : event
| Reconnect : event                               (* the returned [reconnect] *)
| RequestUpdate : event.

Definition without_timer (t : nat) (h : hook) : hook :=
  {| connected := connected h; lastUpdate := lastUpdate h; data := data h;
     wsRef := wsRef h;
     reconnectTimeoutRef := reconnectTimeoutRef h;
     reconnectAttempts := reconnectAttempts h;
     readyState := readyState h;
     sockets := sockets h;
     timers := filter (fun x => negb (Nat.eqb x t)) (timers h);
     timeouts := timeouts h |}.

Definition step (h : hook) (e : event) : hook * list effect :=
  match e with
  | Mount | Reconnect => connect h
  | Open ws => onopen ws h
  | Message _ parsed => onmessage parsed h
  | Close ws => onclose ws h
  | Error _ => onerror h
  | Timeout t => if existsb (Nat.eqb t) (timers h) then connect (without_timer t h) else (h, [])
  | Disconnect => disconnect h
  | RequestUpdate => requestUpdate h
  end.

Fixpoint run (h : hook) (es : list event) : hook * list effect :=
  match es with
  | [] => (h, [])
  | e :: rest =>
      let '(h1, t1) := step h e in
      let '(h2, t2) := run h1 rest in
      (h2, t1 ++ t2)
  end.

(** The timeouts an effect list sets. *)
Fixpoint scheduled (t : list effect) : list Z :=
  match t with
  | [] => []
  | SetTimeout _ delay :: rest => delay :: scheduled rest
  | _ :: rest => scheduled rest
  end.

(** The messages an effect list sends on a socket. *)
Fixpoint sent_on (ws : nat) (t : list effect) : list json :=
  match t with
  | [] => []
  | Send s m :: rest => if Nat.eqb s ws then m :: sent_on ws rest else sent_on ws rest
  | _ :: rest => sent_on ws rest
  end.

(** The sockets an effect list opens. *)
Fixpoint attempts (t : list effect) : list nat :=
  match t with
  | [] => []
  | NewWebSocket s _ :: rest => s :: attempts rest
  | _ :: rest => attempts rest
  end.

(** *** Sample runs *)

(** The first connection is lost and a retry is pending. *)
Definition first_loss : list event := [Mount; Close 0%nat].

(** The first connection and the five retries that follow are all lost. *)
Definition six_losses : list event :=
  [Mount; Close 0; Timeout 0; Close 1; Timeout 1; Close 2; Timeout 2; Close 3;
   Timeout 3; Close 4; Timeout 4; Close 5]%nat.

(** Two losses, then a connection that opens. *)
Definition recovery : list event :=
  [Mount; Close 0; Timeout 0; Close 1; Timeout 1; Open 2]%nat.

End Client.


(* ================================================================== *)
(** * Decimal numerals                                                 *)
(* ================================================================== *)

Module Numbers.
Import JS.
Local Open Scope string_scope.

(** A string of decimal digits only. *)
Fixpoint all_digits (s : string) : bool :=
  match s with
  | EmptyString => true
  | String c r => is_digit c && all_digits r
  end.

(** The value the digits at the head of a string have in radix 10. *)
Definition digits_value (s : string) : Z := fst (fst (digits_from 0 O s)).

(** A string of digits and minus signs only. *)
Fixpoint digits_and_minus (s : string) : bool :=
  match s with
  | EmptyString => true
  | String c r => (is_digit c || Ascii.eqb c "-") && digits_and_minus r
  end.

(** The decimal numeral of an integer: [0], [42], [-7]. *)
Definition integer_text (z : Z) : string :=
  DecimalString.NilZero.string_of_int (Z.to_int z).

(** The integers binary64 holds exactly, on which the number model and
    JavaScript agree. *)
Definition safe (z : Z) : bool := (Z.abs z <=? 2 ^ 53)%Z.

(** [String(n)], which is also what a template literal puts for [n]:
    given here for [NaN], the infinities and the safe integers; the other
    numbers print by an algorithm that is not modelled ([None]). *)
Definition toString (n : number) : option string :=
  match n with
  | NaN => Some "NaN"
  | Infinity negative => Some (if negative then "-Infinity" else "Infinity")
  | Num _ =>
      match to_integer n with
      | Some z => if safe z then Some (integer_text z) else None
      | None => None
      end
  end.

End Numbers.
(* ================================================================== *)
(** * States of the scheduler that can be reached                      *)
(* ================================================================== *)

Module Scheduler.
Import JS Monitor.
Local Open Scope string_scope.
Local Open Scope list_scope.

(** The messages by which a client sets and clears its subscription. *)
Definition subscribe : json := JObj [("type", JStr "subscribe")].
Definition unsubscribe : json := JObj [("type", JStr "unsubscribe")].

(** The array of a suspended broadcast is not empty and names no socket
    twice. *)
Definition sound_task (t : task) : Prop :=
  match t with
  | Broadcast subscribedClients => subscribedClients <> [] /\ NoDup subscribedClients
  | Reply _ => True
  end.

(** What every state reached from [initial] satisfies: the registry is a
    set, and the suspended broadcasts are sound. *)
Definition sound (st : state) : Prop :=
  NoDup (connectedClients st) /\ Forall sound_task (pending st).

(** The sockets of the registry that are marked subscribed, in the order
    of the registry. *)
Definition subscribers (st : state) : list ws :=
  filter (fun w => subscribed (sockets st w)) (connectedClients st).

(** The object a tick broadcasts. *)
Definition snapshot := broadcast_data.

(** A registry of two open sockets of which the first subscribed, with a
    broadcast suspended at its [await]. *)
Definition two_awaiting : state :=
  fst (run initial
         [StartMonitoring; Connection 1%nat; Connection 2%nat;
          Message 1%nat (Some subscribe); Tick]).

End Scheduler.


(* ================================================================== *)
(** * Runs of the client hook                                          *)
(* ================================================================== *)

Module Session.
Import JS Client.
Import Monitor (json, JNull, JBool, JNum, JStr, JArr, JObj, member).
Local Open Scope string_scope.
Local Open Scope list_scope.

(** The sockets whose [open] event a list of events holds, in order. *)
Fixpoint opened (es : list event) : list nat :=
  match es with
  | [] => []
  | Open ws :: rest => ws :: opened rest
  | _ :: rest => opened rest
  end.

(** Whether a message is the object [{ type }] of the given type. *)
Definition is_intent (type : string) (m : json) : bool :=
  match m with
  | JObj [(k, JStr s)] => String.eqb k "type" && String.eqb s type
  | _ => false
  end.

(** The sockets on which an effect list sends the subscribe intent. *)
Fixpoint subscriptions (t : list effect) : list nat :=
  match t with
  | [] => []
  | Send s m :: rest =>
      if is_intent "subscribe" m then s :: subscriptions rest else subscriptions rest
  | _ :: rest => subscriptions rest
  end.

(** The messages an effect list sends, on whichever socket. *)
Fixpoint sent (t : list effect) : list json :=
  match t with
  | [] => []
  | Send _ m :: rest => m :: sent rest
  | _ :: rest => sent rest
  end.

(** [data] and [lastUpdate] belong together: both are unset, or [data] is
    a [systemUpdate] object and [lastUpdate] is its [timestamp]. *)
Definition consistent (h : hook) : Prop :=
  match data h with
  | None => lastUpdate h = None
  | Some (JObj members) =>
      member "type" members = Some (JStr "systemUpdate") /\
      lastUpdate h = member "timestamp" members
  | Some _ => False
  end.

(** A hook whose socket is open, after two lost connections. *)
Definition recovered : hook := fst (run initial recovery).

(** A [systemUpdate] message and a message of another type. *)
Definition update_message : json :=
  JObj [("type", JStr "systemUpdate"); ("timestamp", JStr "2024-01-01T00:00:00.000Z")].
Definition other_message : json := JObj [("type", JStr "pong")].

End Session.

(* ================================================================== *)
(** * The messages between the hook and the server                     *)
(* ================================================================== *)

Module Protocol.
Import JS.
Import Monitor (json, JNull, JBool, JNum, JStr, JArr, JObj, member).
Local Open Scope string_scope.
Local Open Scope list_scope.

(** [JSON.parse(JSON.stringify(v))]: what arrives of a value that is sent.
    A number that is [NaN] or infinite arrives as [null]. *)
Fixpoint wire (v : json) : json :=
  match v with
  | JNum NaN | JNum (Infinity _) => JNull
  | JArr items => JArr (map wire items)
  | JObj members => JObj (map (fun kv => (fst kv, wire (snd kv))) members)
  | _ => v
  end.

(** The greeting [server/src/index.js] sends to every socket that
    connects; [now] is [Date.now()]. *)
Definition greeting (now : number) : json :=
  JObj [("type", JStr "connected"); ("timestamp", JNum now)].

End Protocol.

(* ================================================================== *)
(** * What the samplers compute                                        *)
(* ================================================================== *)

Module Sampling.
Import JS System.
Local Open Scope string_scope.
Local Open Scope Z_scope.

(** The ticks of one core, all modes together. *)
Definition total_of (t : times) : Z := user t + nice t + sys t + idle t + irq t.

(** The idle ticks and all the ticks that passed between two readings,
    over the cores that both readings list at the same index. *)
Definition idle_delta (cpus1 cpus2 : list cpu) : Z :=
  fold_right Z.add 0
    (map (fun c => idle (cpu_times (snd c)) - idle (cpu_times (fst c))) (combine cpus1 cpus2)).

Definition tick_delta (cpus1 cpus2 : list cpu) : Z :=
  fold_right Z.add 0
    (map (fun c => total_of (cpu_times (snd c)) - total_of (cpu_times (fst c)))
       (combine cpus1 cpus2)).

(** One core that was idle for 23 of the 40 ticks between two readings:
    the idle share is 57.5 percent exactly. *)
Definition halfway1 : list cpu := [core 0 0].
Definition halfway2 : list cpu := [core 17 23].

(** A thermal zone [getCPUTemperature] passes over: its file cannot be
    read, or its content does not start with an integer. *)
Definition unusable (zone : option string) : bool :=
  match zone with
  | None => true
  | Some temp => is_NaN (parseInt_string (trim temp))
  end.

(** Zone 0 cannot be read, zone 1 holds no number, zone 2 holds 45.5
    degrees and zone 3 holds 60 degrees. *)
Definition zones : list (option string) := [None; Some "n/a"; Some "45500"; Some "60000"].

(** A string without a decimal digit, and whether a string starts with
    one. *)
Fixpoint no_digit (s : string) : bool :=
  match s with
  | EmptyString => true
  | String c r => negb (is_digit c) && no_digit r
  end.

Definition starts_with_digit (s : string) : bool :=
  match s with
  | String c _ => is_digit c
  | EmptyString => false
  end.

Definition LF : string := String "010"%char EmptyString.

(** A [/proc/meminfo] without the lines [Buffers:] and [SwapFree:]. *)
Definition meminfo_sample : string :=
  "MemTotal:        8000000 kB" ++ LF ++
  "MemAvailable:    2048000 kB" ++ LF ++
  "SwapCached:           77 kB" ++ LF ++
  "Cached:             1535 kB" ++ LF ++
  "SwapTotal:       1048576 kB" ++ LF.

End Sampling.

(* ================================================================== *)
(** * The description of the host ([getSystemInfo])                    *)
(* ================================================================== *)

Module Host.
Import JS.
Local Open Scope string_scope.

Definition double_quote : ascii := "034"%char.

(** The literal head of the regular expression of [getSystemInfo]: the
    key, the equals sign and the opening double quote. *)
Definition pretty_key : string := "PRETTY_NAME=" ++ String double_quote EmptyString.

(** The code units before the next double quote; [None] when the string
    ends before one comes. *)
Fixpoint until_quote (s : string) : option string :=
  match s with
  | EmptyString => None
  | String c r =>
      if Ascii.eqb c double_quote then Some EmptyString
      else match until_quote r with
           | Some t => Some (String c t)
           | None => None
           end
  end.

(** [s.slice(n)]. *)
Fixpoint drop (n : nat) (s : string) : string :=
  match n, s with
  | O, _ => s
  | S k, String _ r => drop k r
  | S _, EmptyString => EmptyString
  end.

(** [osRelease.match(..)] with that expression, whose group is a run of one
    or more code units other than the double quote, closed by a double
    quote: the group of the leftmost match.  At a position where the key stands, the group is the run of
    code units up to the next double quote, which has to be there, and the
    run must not be empty; otherwise the search goes on one position to
    the right. *)
Fixpoint pretty_name (text : string) : option string :=
  match text with
  | EmptyString => None
  | String _ r =>
      if prefix pretty_key text then
        match until_quote (drop (String.length pretty_key) text) with
        | Some (String c t) => Some (String c t)
        | _ => pretty_name r
        end
      else pretty_name r
  end.

Record systemInfo : Type := {
  hostname : string;
  platform : string;
  architecture : string;
  nodeVersion : string;
  totalMemory : number;
  cpuCount : Z;
  networkInterfaces : Z;
  osName : option string;
  kernelVersion : option string;
  windowsVersion : option string;
  macVersion : option string
}.

(** [getSystemInfo]: the values of [os] and [process], the content of
    [/etc/os-release] ([None] when reading it throws) and the shell
    ([None] when the command fails). *)
Definition getSystemInfo (host platform_ arch version : string) (totalmem : Z)
    (cpus interfaces : nat) (os_release : option string) (exec : string -> option string)
  : systemInfo :=
  let linux := String.eqb platform_ "linux" in
  let win32 := String.eqb platform_ "win32" in
  let darwin := String.eqb platform_ "darwin" in
  {|
    hostname := host;
    platform := platform_;
    architecture := arch;
    nodeVersion := version;
    totalMemory :=
      quotient
        (Math_round (product (div (div (div (of_Z totalmem) (of_Z 1024)) (of_Z 1024)) (of_Z 1024))
                       (of_Z 100)))
        (of_Z 100);
    cpuCount := Z.of_nat cpus;
    networkInterfaces := Z.of_nat interfaces;
    osName :=
      if linux then
        match os_release with
        | Some osRelease => pretty_name osRelease
        | None => Some "Linux"
        end
      else if win32 then Some "Windows"
      else if darwin then Some "macOS"
      else None;
    kernelVersion :=
      if linux then
        match exec "uname -r" with
        | Some stdout => Some (trim stdout)
        | None => Some "Unknown"
        end
      else None;
    windowsVersion :=
      if linux then None
      else if win32 then
        match exec "ver" with
        | Some stdout => Some (trim stdout)
        | None => None
        end
      else None;
    macVersion :=
      if linux then None
      else if win32 then None
      else if darwin then
        match exec "sw_vers -productVersion" with
        | Some stdout => Some (trim stdout)
        | None => None
        end
      else None
  |}.

(** Whether a string holds a double quote. *)
Fixpoint has_quote (s : string) : bool :=
  match s with
  | EmptyString => false
  | String c r => Ascii.eqb c double_quote || has_quote r
  end.

(** The key stands at none of the positions of [before] in the text
    [before ++ rest]. *)
Fixpoint key_not_before (before rest : string) : bool :=
  match before with
  | EmptyString => true
  | String _ b => negb (prefix pretty_key (before ++ rest)) && key_not_before b rest
  end.

(** An [/etc/os-release] as Debian writes it, and one without the key. *)
Definition LF : string := String "010"%char EmptyString.

Definition os_release_sample : string :=
  pretty_key ++ "Debian GNU/Linux 12 (bookworm)" ++ String double_quote LF ++
  "NAME=" ++ String double_quote ("Debian GNU/Linux" ++ String double_quote LF) ++
  "ID=debian" ++ LF.

(** The lines Fedora writes before the one with the key, and its file. *)
Definition fedora_head : string :=
  "NAME=" ++ String double_quote ("Fedora Linux" ++ String double_quote LF) ++
  "ID=fedora" ++ LF ++
  "PLATFORM_ID=" ++ String double_quote ("platform:f39" ++ String double_quote LF).

Definition os_release_fedora : string :=
  fedora_head ++
  pretty_key ++ "Fedora Linux 39 (Workstation Edition)" ++ String double_quote LF ++
  "ANSI_COLOR=" ++ String double_quote ("0;38;2;60;110;180" ++ String double_quote LF).

Definition os_release_bare : string := "ID=alpine" ++ LF ++ "VERSION_ID=3.19" ++ LF.

End Host.

(* ================================================================== *)
(** * The process list: hosts, lines and batches                       *)
(* ================================================================== *)

Module Listing.
Import JS Processes.
Local Open Scope string_scope.

(** The entry [getProcessList] falls back to: the monitoring process. *)
Definition node_self : process :=
  {| pid := of_Z 4242; ppid := Some (of_Z 1); user := "app"; cpu := of_Z 0;
     memory := of_Z 58; memoryMB := None; vsz := None; rss := None;
     status := Some "running"; start := None; time := None;
     name := "node"; command := "node src/index.js";
     sessionName := None; sessionId := None |}.

(** A host on which no command runs. *)
Definition nothing_runs (cmd : string) : option string := None.

(** A host whose [ps] does not know [--sort] but knows [aux]. *)
Definition plain_ps (cmd : string) : option string :=
  if String.eqb cmd "ps aux" then Some ps_aux_output else None.

(** A host whose first command runs and prints nothing, while the others
    would print a listing. *)
Definition silent_first (cmd : string) : option string :=
  if String.eqb cmd "ps aux --sort=-%cpu" then Some "" else Some ps_aux_output.

(** The objects the loops push, before they are sorted and cut. *)
Definition unix_parsed (stdout commandUsed : string) : list process :=
  collect (unix_line commandUsed) (body_lines stdout).

Definition windows_parsed (stdout : string) : list process :=
  collect windows_line (body_lines stdout).

(** How many entries [slice(0, limit)] leaves of [n]. *)
Definition kept (limit : Z) (n : nat) : Z :=
  if (limit <? 0)%Z then Z.max 0 (Z.of_nat n + limit) else Z.min limit (Z.of_nat n).

(** A column of a listing: not empty and free of white space.  A gap
    between two columns: a run of white space that is not empty. *)
Fixpoint no_space (s : string) : bool :=
  match s with
  | EmptyString => true
  | String c r => negb (is_space c) && no_space r
  end.

Fixpoint all_space (s : string) : bool :=
  match s with
  | EmptyString => true
  | String c r => is_space c && all_space r
  end.

Definition column (s : string) : bool :=
  match s with EmptyString => false | _ => no_space s end.

Definition gap (s : string) : bool :=
  match s with EmptyString => false | _ => all_space s end.

(** A line of columns: the first one, and then gaps and columns in
    turn. *)
Fixpoint row (first : string) (rest : list (string * string)) : string :=
  match rest with
  | [] => first
  | (g, c) :: more => first ++ g ++ row c more
  end.

Definition well_spaced (rest : list (string * string)) : Prop :=
  Forall (fun gc => gap (fst gc) = true /\ column (snd gc) = true) rest.

(** The line of [chrome] in a [ps aux] listing, by columns. *)
Definition chrome_row : list (string * string) :=
  [("       ", "2301"); ("  ", "0.3"); ("  ", "7.5"); (" ", "555555"); (" ", "614400");
   (" ", "?"); ("       ", "Sl"); ("   ", "10:02"); ("   ", "0:09");
   (" ", "/opt/chrome/chrome"); ("   ", "--type=renderer"); (" ", "--lang=en")].

(** A field of a [tasklist] line: free of double quotes. *)
Fixpoint quote_free (s : string) : bool :=
  match s with
  | EmptyString => true
  | String c r => negb (Ascii.eqb quote c) && quote_free r
  end.

Definition starts_with_comma (s : string) : bool :=
  match s with
  | String c _ => Ascii.eqb c ","%char
  | EmptyString => false
  end.

(** The pieces of a line of fields after its opening quote: the last one
    keeps the closing quote. *)
Fixpoint closed (fields : list string) : list string :=
  match fields with
  | [] => [String quote EmptyString]
  | [f] => [f ++ String quote EmptyString]
  | f :: rest => f :: closed rest
  end.

End Listing.

(* ================================================================== *)
(** * The process routes ([server/src/routes/processes.js])            *)
(* ================================================================== *)

Module Routes.
Import JS Processes Numbers.
Local Open Scope string_scope.
Local Open Scope list_scope.

(** [a === b] on numbers; the rationals of the model are in lowest
    terms. *)
Definition strict_equal (a b : number) : bool :=
  match a, b with
  | Infinity s, Infinity t => Bool.eqb s t
  | Num x, Num y => Qeq_bool x y
  | _, _ => false
  end.

(** The integer a number holds; [parseInt(..) || 20] always holds one. *)
Definition integer_of (n : number) : Z :=
  match to_integer n with Some z => z | None => 0%Z end.

(** [proc.ppid || 0]: the key under which [/tree/view] files a process. *)
Definition parent_of (proc : process) : number :=
  match ppid proc with
  | Some n => or_else n (of_Z 0)
  | None => of_Z 0
  end.

(** [if (!tree[ppid]) tree[ppid] = []; tree[ppid].push(proc)].  The object
    is the list of its keys with their groups; the list is in the order
    in which the keys were created, which is not the order in which
    JavaScript lists them (integer keys first, ascending): only the group
    of a key is read off it. *)
Fixpoint file_under (key : number) (proc : process) (tree : list (number * list process))
  : list (number * list process) :=
  match tree with
  | [] => [(key, [proc])]
  | (k, group) :: rest =>
      if strict_equal k key then (k, group ++ [proc]) :: rest
      else (k, group) :: file_under key proc rest
  end.

(** The [reduce] of [/tree/view]. *)
Definition processTree (processes : list process) : list (number * list process) :=
  fold_left (fun tree proc => file_under (parent_of proc) proc tree) processes [].

(** [tree[key]]. *)
Fixpoint group_of (key : number) (tree : list (number * list process))
  : option (list process) :=
  match tree with
  | [] => None
  | (k, group) :: rest => if strict_equal k key then Some group else group_of key rest
  end.

(** The answers of [GET /:pid]. *)
Inductive detail : Type :=
| invalid_pid : detail                (* 400, [{ error: 'Invalid PID' }] *)
| found (pid ppid : number) (user : option string) (cpu memory : number)
        (runtime : option string) (command : string) : detail
| not_found : detail                  (* 404, [{ error: 'Process not found' }] *)
| not_implemented : detail            (* the answer on Windows *)
| self_fallback : detail              (* the entry of the Node.js process *)
| not_found_or_denied : detail.       (* 404, with the message of the error *)

Definition ps_command (pid : string) : string :=
  "ps -p " ++ pid ++ " -o pid,ppid,user,cpu,pmem,etime,comm,args --no-headers".

Definition tasklist_command (pid : string) : string :=
  "tasklist /FI " ++ String quote ("PID eq " ++ pid ++ String quote " /FO CSV").

Section WithHost.
Variable localeCompare : string -> string -> number.
(** The shell, as in [Processes]: [None] when running the command fails. *)
Variable exec : string -> option string.
Variable platform : string.
(** The entry that describes the Node.js process, and its [process.pid]. *)
Variable self : process.
Variable self_pid : Z.

(** [parseInt(req.query.limit) || 20]. *)
Definition limit_of (query_limit : option string) : number :=
  or_else (parseInt query_limit) (of_Z 20).

(** [req.query.sort || 'cpu']. *)
Definition sort_of (query_sort : option string) : string :=
  match query_sort with
  | Some s => str_or_else s "cpu"
  | None => "cpu"
  end.

(** [GET /]: the [count] and the [processes] of the answer. *)
Definition list_route (query_limit query_sort : option string) : Z * list process :=
  let limit := limit_of query_limit in
  let sortBy := sort_of query_sort in
  let processes := getProcessList localeCompare exec platform self (integer_of limit) sortBy in
  (Z.of_nat (List.length processes), processes).

(** [GET /:pid]: the answer and the commands that were run; [None] where
    the numeral of the pid is not modelled. *)
Definition detail_route (param : string) : option (detail * list string) :=
  let pid := parseInt_string param in
  if is_NaN pid then Some (invalid_pid, [])
  else
    match toString pid with
    | None => None
    | Some text =>
        let on_error :=
          if strict_equal (parseInt_string param) (of_Z self_pid) then self_fallback
          else not_found_or_denied in
        if negb (String.eqb platform "win32") then
          match exec (ps_command text) with
          | Some stdout =>
              match trim stdout with
              | EmptyString => Some (not_found, [ps_command text])
              | line =>
                  let parts := split_spaces line in
                  Some (found (parseInt (at_ parts 0)) (parseInt (at_ parts 1))
                          (at_ parts 2) (parseFloat (at_ parts 3)) (parseFloat (at_ parts 4))
                          (at_ parts 5) (join " " (skipn 6 parts)),
                        [ps_command text])
              end
          | None => Some (on_error, [ps_command text])
          end
        else
          match exec (tasklist_command text) with
          | Some _ => Some (not_implemented, [tasklist_command text])
          | None => Some (on_error, [tasklist_command text])
          end
    end.

(** [GET /tree/view]: the [tree] of the answer. *)
Definition tree_route : list (number * list process) :=
  processTree (getProcessList localeCompare exec platform self 50 "cpu").

End WithHost.

(** A host whose [ps] knows one process, 2210. *)
Definition one_process (cmd : string) : option string :=
  if String.eqb cmd (ps_command "2210")
  then Some " 2210     1 bob      12.5  3.0    01:00 node node src/index.js"
  else if String.eqb cmd "ps aux" then Some ps_aux_output
  else None.

End Routes.

(* ================================================================== *)
(** * Formatting ([server/src/routes/system.js], [src/utils/formatters.ts]) *)
(* ================================================================== *)

Module Format.
Import JS Numbers.
Local Open Scope string_scope.

(** [Math.floor]. *)
Definition Math_floor (a : number) : number :=
  match a with
  | Num x => of_Z (Qfloor x)
  | _ => a
  end.

(** [a % b]: the remainder has the sign of the dividend; the quotient is
    cut towards zero. *)
Definition rem (a b : number) : number :=
  match a, b with
  | NaN, _ | _, NaN => NaN
  | Infinity _, _ => NaN
  | Num x, Infinity _ => Num x
  | Num x, Num y =>
      match Qsign y with
      | 0%Z => NaN
      | _ =>
          let q := (x / y)%Q in
          Num (Qred (x - y * inject_Z (Z.quot (Qnum q) (Z.pos (Qden q)))))
      end
  end.

(** The three numbers both [formatUptime] functions compute. *)
Definition days_of (seconds : number) : number :=
  Math_floor (div seconds (of_Z 86400)).
Definition hours_of (seconds : number) : number :=
  Math_floor (div (rem seconds (of_Z 86400)) (of_Z 3600)).
Definition minutes_of (seconds : number) : number :=
  Math_floor (div (rem seconds (of_Z 3600)) (of_Z 60)).

(** A template literal of one number and a unit. *)
Definition with_unit (n : number) (unit : string) : option string :=
  match toString n with
  | Some text => Some (text ++ unit)
  | None => None
  end.

(** The concatenation of parts of which each may lie outside the number
    printing that is modelled. *)
Fixpoint pieces (parts : list (option string)) : option (list string) :=
  match parts with
  | [] => Some []
  | Some p :: rest =>
      match pieces rest with
      | Some ps => Some (p :: ps)
      | None => None
      end
  | None :: _ => None
  end.

Definition joined (sep : string) (parts : list (option string)) : option string :=
  match pieces parts with
  | Some ps => Some (join sep ps)
  | None => None
  end.

(** [formatUptime] of the server. *)
Definition formatUptime (seconds : number) : option string :=
  let days := days_of seconds in
  let hours := hours_of seconds in
  let minutes := minutes_of seconds in
  if lt (of_Z 0) days then
    joined " " [with_unit days "d"; with_unit hours "h"; with_unit minutes "m"]
  else if lt (of_Z 0) hours then
    joined " " [with_unit hours "h"; with_unit minutes "m"]
  else with_unit minutes "m".

(** [GET /uptime]: the fields [uptime] and [uptimeFormatted] of the
    answer, for the value of [os.uptime()]. *)
Definition uptime_route (uptime : number) : number * option string :=
  (Math_floor uptime, formatUptime uptime).

(** [formatUptime] of the client: a part is pushed when its number is
    positive. *)
Definition client_formatUptime (seconds : number) : option string :=
  let days := days_of seconds in
  let hours := hours_of seconds in
  let minutes := minutes_of seconds in
  let parts :=
    ((if lt (of_Z 0) days then [with_unit days "d"] else []) ++
     (if lt (of_Z 0) hours then [with_unit hours "h"] else []) ++
     (if lt (of_Z 0) minutes then [with_unit minutes "m"] else []))%list in
  match parts with
  | [] => Some "0m"
  | _ => joined " " parts
  end.

(** [formatCommand(command, maxLength)] for an integer [maxLength];
    [substring] takes a negative end for 0. *)
Definition formatCommand (command : string) (maxLength : Z) : string :=
  if (Z.of_nat (String.length command) <=? maxLength)%Z then command
  else substring 0 (Z.to_nat (maxLength - 3)) command ++ "...".

(** The decomposition of a whole number of seconds. *)
Definition whole_days (s : Z) : Z := (s / 86400)%Z.
Definition whole_hours (s : Z) : Z := ((s mod 86400) / 3600)%Z.
Definition whole_minutes (s : Z) : Z := ((s mod 3600) / 60)%Z.

(** The part the client shows for one of them: nothing for 0. *)
Definition shown (z : Z) (unit : string) : list string :=
  if (0 <? z)%Z then [integer_text z ++ unit] else [].

End Format.
(* ================================================================== *)
(** * Properties of the broadcast scheduler                            *)
(* ================================================================== *)

Module MonitorFacts.
Import JS Monitor.
Local Open Scope string_scope.
Local Open Scope list_scope.

(** ** The [forEach] over the subscribed sockets *)

Lemma push_frame : forall d w st,
  sockets (fst (push d w st)) = sockets st /\
  pending (fst (push d w st)) = pending st /\
  monitoringInterval (fst (push d w st)) = monitoringInterval st.
Proof.
  intros d w st. unfold push.
  destruct (Z.eqb (readyState (sockets st w)) OPEN); [|now cbn].
  destruct (send_throws (sockets st w)); now cbn.
Qed.

Lemma forEach_frame : forall d l st,
  sockets (fst (forEach d l st)) = sockets st /\
  pending (fst (forEach d l st)) = pending st /\
  monitoringInterval (fst (forEach d l st)) = monitoringInterval st.
Proof.
  intros d l. induction l as [|w l IH]; intros st; cbn [forEach].
  - now cbn.
  - destruct (push d w st) as [st1 e1] eqn:E1.
    destruct (forEach d l st1) as [st2 e2] eqn:E2. cbn [fst].
    specialize (IH st1). rewrite E2 in IH. cbn [fst] in IH.
    pose proof (push_frame d w st) as F. rewrite E1 in F. cbn [fst] in F.
    destruct IH as (-> & -> & ->). exact F.
Qed.

Lemma Set_delete_In : forall w x s,
  In x (Set_delete w s) <-> In x s /\ x <> w.
Proof.
  intros w x s. unfold Set_delete. rewrite filter_In.
  rewrite negb_true_iff, Nat.eqb_neq. tauto.
Qed.

(** A socket is dropped by the loop exactly when it is in the array, open,
    and its [send] throws. *)
Lemma forEach_clients : forall d l st x,
  In x (connectedClients (fst (forEach d l st))) <->
  In x (connectedClients st) /\
  ~ (In x l /\ readyState (sockets st x) = OPEN /\ send_throws (sockets st x) = true).
Proof.
  intros d l. induction l as [|w l IH]; intros st x; cbn [forEach].
  - cbn. tauto.
  - destruct (push d w st) as [st1 e1] eqn:E1.
    destruct (forEach d l st1) as [st2 e2] eqn:E2. cbn [fst].
    specialize (IH st1 x). rewrite E2 in IH. cbn [fst] in IH. rewrite IH.
    pose proof (push_frame d w st) as (Fs & _). rewrite E1 in Fs. cbn [fst] in Fs.
    rewrite Fs. clear IH E2.
    unfold push in E1.
    destruct (Z.eqb (readyState (sockets st w)) OPEN) eqn:Eo.
    + apply Z.eqb_eq in Eo.
      destruct (send_throws (sockets st w)) eqn:Et; inversion E1; subst; clear E1.
      * cbn [connectedClients with_clients]. rewrite Set_delete_In. cbn [In].
        split.
        -- intros ((Hx & Hne) & Hn). split; [exact Hx|].
           intros ([->|Hl] & Ho & Hs); [now apply Hne|]. apply Hn. tauto.
        -- intros (Hx & Hn). split; [split; [exact Hx|]|].
           ++ intros ->. apply Hn. tauto.
           ++ intros (Hl & Ho & Hs). apply Hn. tauto.
      * cbn [In]. split.
        -- intros (Hx & Hn). split; [exact Hx|].
           intros ([->|Hl] & Ho & Hs); [congruence|]. apply Hn. tauto.
        -- intros (Hx & Hn). split; [exact Hx|]. intros (Hl & Ho & Hs). apply Hn. tauto.
    + apply Z.eqb_neq in Eo. inversion E1; subst; clear E1. cbn [In]. split.
      * intros (Hx & Hn). split; [exact Hx|].
        intros ([->|Hl] & Ho & Hs); [congruence|]. apply Hn. tauto.
      * intros (Hx & Hn). split; [exact Hx|]. intros (Hl & Ho & Hs). apply Hn. tauto.
Qed.

Lemma sent_to_app : forall w t1 t2, sent_to w (t1 ++ t2) = sent_to w t1 ++ sent_to w t2.
Proof.
  intros w t1 t2. induction t1 as [|e t1 IH]; [reflexivity|].
  destruct e; cbn [sent_to app]; try exact IH.
  destruct (Nat.eqb to w); cbn; now rewrite IH.
Qed.

(** What the loop delivers to [w] only depends on [w] itself: the
    snapshot, once for each time [w] stands in the array, if it is ready. *)
Lemma forEach_sent_to : forall d l st w,
  sent_to w (snd (forEach d l st)) =
  (if ready st w then repeat d (count_occ Nat.eq_dec l w) else []).
Proof.
  intros d l. induction l as [|x l IH]; intros st w; cbn [forEach].
  - cbn. now destruct (ready st w).
  - destruct (push d x st) as [st1 e1] eqn:E1.
    destruct (forEach d l st1) as [st2 e2] eqn:E2. cbn [snd].
    rewrite sent_to_app.
    specialize (IH st1 w). rewrite E2 in IH. cbn [snd] in IH. rewrite IH.
    pose proof (push_frame d x st) as (Fs & _). rewrite E1 in Fs. cbn [fst] in Fs.
    assert (Hr : ready st1 w = ready st w) by (unfold ready; now rewrite Fs).
    rewrite Hr. clear IH E2 Hr.
    cbn [count_occ]. unfold push in E1.
    destruct (Nat.eq_dec x w) as [->|Hne].
    + unfold ready.
      destruct (Z.eqb (readyState (sockets st w)) OPEN);
        [destruct (send_throws (sockets st w))|]; inversion E1; subst; cbn;
        rewrite ?Nat.eqb_refl; reflexivity.
    + assert (Hs : sent_to w e1 = []).
      { destruct (Z.eqb (readyState (sockets st x)) OPEN);
          [destruct (send_throws (sockets st x))|]; inversion E1; subst; cbn; try reflexivity.
        apply Nat.eqb_neq in Hne. now rewrite Hne. }
      rewrite Hs. reflexivity.
Qed.

(** Everything the loop sends is the one snapshot. *)
Lemma forEach_same_snapshot : forall d l st w d',
  In (Sent w d') (snd (forEach d l st)) -> d' = d /\ In w l.
Proof.
  intros d l. induction l as [|x l IH]; intros st w d'; cbn [forEach].
  - cbn. tauto.
  - destruct (push d x st) as [st1 e1] eqn:E1.
    destruct (forEach d l st1) as [st2 e2] eqn:E2. cbn [snd].
    rewrite in_app_iff. intros [H|H].
    + unfold push in E1.
      destruct (Z.eqb (readyState (sockets st x)) OPEN);
        [destruct (send_throws (sockets st x))|]; inversion E1; subst; cbn in H;
        try tauto; destruct H as [H|[]]; try discriminate.
      inversion H; subst. cbn. tauto.
    + specialize (IH st1 w d'). rewrite E2 in IH. cbn [snd] in IH.
      destruct (IH H) as (-> & Hl). cbn. tauto.
Qed.

Lemma sent_to_In : forall w d t, In d (sent_to w t) <-> In (Sent w d) t.
Proof.
  intros w d t. induction t as [|e t IH]; [cbn; tauto|].
  destruct e; cbn [sent_to In]; try (rewrite IH; split; [tauto|intros [H|H]; [discriminate|tauto]]).
  destruct (Nat.eqb to w) eqn:E.
  - apply Nat.eqb_eq in E. subst. cbn [In]. rewrite IH. split.
    + intros [->|H]; tauto.
    + intros [H|H]; [inversion H|]; tauto.
  - apply Nat.eqb_neq in E. rewrite IH. split; [tauto|].
    intros [H|H]; [inversion H; congruence|tauto].
Qed.

(** ** A tick with nobody subscribed *)

(** C1. When no socket of the registry is marked subscribed, the firing of
    the interval calls no collector (neither [getCPUUsage] nor
    [getMemoryUsage] nor [getProcessList]), suspends nothing that would
    call one later, and leaves the state as it was. *)
Theorem C1_idle_tick_calls_no_collector : forall st,
  subscriber_count st = 0%nat ->
  invocations (snd (step st Tick)) = [] /\ fst (step st Tick) = st.
Proof.
  intros st H. unfold subscriber_count in H. apply length_zero_iff_nil in H.
  cbn [step]. destruct (monitoringInterval st); [|now cbn].
  unfold tick. destruct (connectedClients st) eqn:Ec; [now cbn|].
  unfold broadcastSystemUpdate_call. rewrite Ec, H. now cbn.
Qed.

Lemma C1_idle_tick_witness :
  subscriber_count one_unsubscribed = 0%nat /\
  invocations (snd (step one_unsubscribed Tick)) = [] /\
  fst (step one_unsubscribed Tick) = one_unsubscribed.
Proof.
  split; [reflexivity|].
  apply (C1_idle_tick_calls_no_collector one_unsubscribed). reflexivity.
Defined.
(** ** One broadcast tick *)

Lemma nth_error_last : forall (A : Type) (l : list A) (x : A),
  nth_error (l ++ [x]) (List.length l) = Some x.
Proof.
  intros A l x. rewrite nth_error_app2 by apply Nat.le_refl.
  now rewrite Nat.sub_diag.
Qed.

Lemma remove_nth_last : forall (A : Type) (l : list A) (x : A),
  remove_nth (List.length l) (l ++ [x]) = l.
Proof.
  intros A l x. induction l as [|y l IH]; [reflexivity|].
  cbn. now rewrite IH.
Qed.

(** A tick with subscribers, settled at once, calls the three collectors
    and then runs the loop over the sockets that were subscribed. *)
Lemma broadcast_tick_unfold : forall st cpuData memoryData topProcesses now w l,
  filter (fun w => subscribed (sockets st w)) (connectedClients st) = w :: l ->
  broadcast_tick st cpuData memoryData topProcesses now =
  (fst (forEach (broadcast_data now cpuData memoryData topProcesses) (w :: l) st),
   [Invoke getCPUUsage; Invoke getMemoryUsage; Invoke getProcessList] ++
   snd (forEach (broadcast_data now cpuData memoryData topProcesses) (w :: l) st)).
Proof.
  intros st cpuData memoryData topProcesses now w l Hf.
  unfold broadcast_tick, tick.
  destruct (connectedClients st) as [|c cs] eqn:Ec; [discriminate|].
  unfold broadcastSystemUpdate_call. rewrite Ec, Hf.
  cbn [step pending with_pending]. rewrite nth_error_last, remove_nth_last.
  unfold broadcastSystemUpdate_resume.
  replace (with_pending (with_pending st (pending st ++ [Broadcast (w :: l)])) (pending st))
    with st by (destruct st; reflexivity).
  destruct (forEach _ (w :: l) st) as [st2 t2]. reflexivity.
Qed.

(** ** Partial failure of the collectors *)

(** The timer's callback sends nothing before its [await]. *)
Lemma tick_sends_nothing : forall st w, sent_to w (snd (tick st)) = [].
Proof.
  intros st w. unfold tick, broadcastSystemUpdate_call.
  destruct (connectedClients st); [reflexivity|].
  now destruct (filter _ _).
Qed.

Lemma attempt_pending : forall st cpu memory processes now,
  cpu = stays_pending \/ memory = stays_pending \/ processes = stays_pending ->
  broadcast_attempt st cpu memory processes now = tick st.
Proof.
  intros st cpu memory processes now H. unfold broadcast_attempt.
  destruct cpu, memory, processes; cbn [allSettled]; try reflexivity.
  destruct H as [H|[H|H]]; discriminate.
Qed.




(** ** A failing push *)

Lemma forEach_skip : forall d l st w,
  readyState (sockets st w) <> OPEN ->
  forEach d l st = forEach d (remove Nat.eq_dec w l) st.
Proof.
  intros d l. induction l as [|x l IH]; intros st w Hw; [reflexivity|].
  cbn [remove]. destruct (Nat.eq_dec w x) as [<-|Hne].
  - cbn [forEach]. unfold push at 1.
    apply Z.eqb_neq in Hw. rewrite Hw. apply Z.eqb_neq in Hw.
    rewrite <- (IH st w Hw). now destruct (forEach d l st).
  - cbn [forEach]. destruct (push d x st) as [st1 e1] eqn:E1.
    pose proof (push_frame d x st) as (Fs & _). rewrite E1 in Fs. cbn [fst] in Fs.
    rewrite <- (IH st1 w) by now rewrite Fs. reflexivity.
Qed.

(** C7. When the [send] of a subscribed, open socket [c] throws during
    the loop of a broadcast, [c] leaves the registry; every other socket
    of the array that is open and whose own [send] works receives the
    snapshot; everything that is sent is that one snapshot; each other
    socket receives exactly what it would have received had the [send] of
    [c] worked; and no socket whose [send] works leaves the registry. *)
Theorem C7_failed_push_is_local :
  forall subscribedClients cpuData memoryData topProcesses now st c,
  In c subscribedClients ->
  readyState (sockets st c) = OPEN ->
  send_throws (sockets st c) = true ->
  let data := broadcast_data now cpuData memoryData topProcesses in
  let result :=
    broadcastSystemUpdate_resume subscribedClients cpuData memoryData topProcesses now st in
  let healthy :=
    broadcastSystemUpdate_resume subscribedClients cpuData memoryData topProcesses now
      (with_socket st c {| subscribed := subscribed (sockets st c); readyState := OPEN;
                           send_throws := false |}) in
  ~ In c (connectedClients (fst result)) /\
  (forall w, w <> c -> In w subscribedClients -> ready st w = true ->
             In (Sent w data) (snd result)) /\
  (forall w d, In (Sent w d) (snd result) -> d = data) /\
  (forall w, w <> c -> sent_to w (snd result) = sent_to w (snd healthy)) /\
  (forall w, In w (connectedClients st) -> send_throws (sockets st w) = false ->
             In w (connectedClients (fst result))).
Proof.
  intros l cpuData memoryData topProcesses now st c Hin Ho Ht data result healthy.
  unfold result, healthy, broadcastSystemUpdate_resume. fold data.
  repeat split.
  - rewrite forEach_clients. tauto.
  - intros w Hne Hw Hr. apply sent_to_In. rewrite forEach_sent_to, Hr.
    assert (Hc : (count_occ Nat.eq_dec l w > 0)%nat) by now apply count_occ_In.
    destruct (count_occ Nat.eq_dec l w); [lia|]. cbn. now left.
  - intros w d H. now apply forEach_same_snapshot in H.
  - intros w Hne. rewrite !forEach_sent_to.
    assert (Hr : ready (with_socket st c
                          {| subscribed := subscribed (sockets st c); readyState := OPEN;
                             send_throws := false |}) w = ready st w).
    { unfold ready, with_socket, update. cbn [sockets].
      apply Nat.eqb_neq in Hne. now rewrite Hne. }
    now rewrite Hr.
  - intros w Hw Hs. rewrite forEach_clients. split; [exact Hw|]. intros (_ & _ & H).
    congruence.
Qed.

Lemma C7_failed_push_witness :
  ~ In 2%nat (connectedClients
       (fst (broadcastSystemUpdate_resume [1; 2; 3]%nat (fulfilled sample_cpu)
               (fulfilled sample_memory) (fulfilled sample_processes) "t" three_subscribed))) /\
  In (Sent 1%nat (broadcast_data "t" (fulfilled sample_cpu) (fulfilled sample_memory)
                    (fulfilled sample_processes)))
     (snd (broadcastSystemUpdate_resume [1; 2; 3]%nat (fulfilled sample_cpu)
             (fulfilled sample_memory) (fulfilled sample_processes) "t" three_subscribed)).
Proof.
  assert (Hin : In 2%nat [1; 2; 3]%nat) by (cbn; tauto).
  assert (Ho : readyState (sockets three_subscribed 2%nat) = OPEN) by reflexivity.
  assert (Ht : send_throws (sockets three_subscribed 2%nat) = true) by reflexivity.
  pose proof (C7_failed_push_is_local [1; 2; 3]%nat (fulfilled sample_cpu)
                (fulfilled sample_memory) (fulfilled sample_processes) "t" three_subscribed
                2%nat Hin Ho Ht) as (Hgone & Hothers & _).
  split; [exact Hgone|].
  apply Hothers; [discriminate | cbn; tauto | reflexivity].
Defined.
(** ** The on-demand update *)

(** C9. The object sent in answer to [requestUpdate] has the keys [type],
    [timestamp], [cpu] and [memory] and no other, whatever the two
    collectors did: no [processes], no [errors].  When a suspended
    [sendSystemUpdate] resumes, all it may send is that object, to the
    socket that asked.  And a socket that is open and whose [send] works
    gets it whether its subscription flag [flag] is set or not. *)
Theorem C9_on_demand_reply :
  forall st w flag cpuData memoryData topProcesses now,
  readyState (sockets st w) = OPEN ->
  send_throws (sockets st w) = false ->
  keys (reply_data now cpuData memoryData) = ["type"; "timestamp"; "cpu"; "memory"] /\
  field "processes" (reply_data now cpuData memoryData) = None /\
  field "errors" (reply_data now cpuData memoryData) = None /\
  (forall k to d,
     nth_error (pending st) k = Some (Reply w) ->
     In (Sent to d) (snd (step st (Settled k cpuData memoryData topProcesses now))) ->
     to = w /\ d = reply_data now cpuData memoryData) /\
  snd (run (set_subscribed st w flag)
         [Message w (Some requestUpdate);
          Settled (List.length (pending st)) cpuData memoryData topProcesses now]) =
    [Invoke getCPUUsage; Invoke getMemoryUsage; Sent w (reply_data now cpuData memoryData)].
Proof.
  intros st w flag cpuData memoryData topProcesses now Ho Ht.
  split; [reflexivity|]. split; [reflexivity|]. split; [reflexivity|]. split.
  - intros k to d Hk H. cbn [step] in H. rewrite Hk in H.
    unfold sendSystemUpdate_resume in H. cbn [sockets with_pending] in H.
    rewrite Ht in H. cbn in H. destruct H as [H|[]]. inversion H. tauto.
  - cbn [run step on_message requestUpdate].
    change (handleClientMessage [("type", JStr "requestUpdate")] w (set_subscribed st w flag))
      with (sendSystemUpdate_call w (set_subscribed st w flag)).
    assert (Hs : sockets (set_subscribed st w flag) w =
                 {| subscribed := flag; readyState := readyState (sockets st w);
                    send_throws := send_throws (sockets st w) |}).
    { unfold set_subscribed, with_socket, update. cbn [sockets]. now rewrite Nat.eqb_refl. }
    unfold sendSystemUpdate_call. rewrite Hs. cbn [readyState]. rewrite Ho.
    change (Z.eqb OPEN OPEN) with true. cbv iota.
    cbn [pending with_pending set_subscribed with_socket].
    rewrite nth_error_last, remove_nth_last.
    unfold sendSystemUpdate_resume.
    change (sockets (with_pending _ _) w) with (sockets (set_subscribed st w flag) w).
    rewrite Hs. cbn [send_throws]. rewrite Ht. reflexivity.
Qed.

Lemma C9_on_demand_reply_witness :
  snd (run one_unsubscribed
         [Message 7%nat (Some requestUpdate);
          Settled 0 (rejected (Some "cpu")) (rejected None) (fulfilled sample_processes) "t"]) =
    [Invoke getCPUUsage; Invoke getMemoryUsage;
     Sent 7%nat (JObj [("type", JStr "systemUpdate"); ("timestamp", JStr "t");
                       ("cpu", JNull); ("memory", JNull)])].
Proof.
  assert (Ho : readyState (sockets one_unsubscribed 7%nat) = OPEN) by reflexivity.
  assert (Ht : send_throws (sockets one_unsubscribed 7%nat) = false) by reflexivity.
  pose proof (C9_on_demand_reply one_unsubscribed 7%nat false (rejected (Some "cpu"))
                (rejected None) (fulfilled sample_processes) "t" Ho Ht)
    as (_ & _ & _ & _ & E).
  exact E.
Defined.

(** ** Who leaves the registry *)

Lemma Set_add_In : forall w x s, In x s -> In x (Set_add w s).
Proof.
  intros w x s H. unfold Set_add. destruct (existsb (Nat.eqb w) s); [exact H|].
  apply in_or_app. now left.
Qed.

Lemma on_message_clients : forall parsed w st,
  connectedClients (fst (on_message parsed w st)) = connectedClients st.
Proof.
  intros parsed w st.
  assert (Hc : forall members,
             connectedClients (fst (handleClientMessage members w st)) = connectedClients st).
  { intros members. unfold handleClientMessage, sendSystemUpdate_call.
    destruct (member "type" members) as [[| | |s| |]|]; try reflexivity.
    destruct (String.eqb s "subscribe") eqn:E1;
      [apply String.eqb_eq in E1; subst; reflexivity|].
    destruct (String.eqb s "unsubscribe") eqn:E2;
      [apply String.eqb_eq in E2; subst; reflexivity|].
    destruct (String.eqb s "requestUpdate") eqn:E3.
    - apply String.eqb_eq in E3; subst.
      destruct (Z.eqb (readyState (sockets st w)) OPEN); reflexivity.
    - assert (H : forall A (a b c d : A),
                 match s with
                 | "subscribe" => a | "unsubscribe" => b | "requestUpdate" => c | _ => d
                 end = d).
      { intros A a b c d.
        apply String.eqb_neq in E1, E2, E3.
        repeat (match goal with
                | |- context [match ?x with EmptyString => _ | String _ _ => _ end] =>
                    destruct x
                | |- context [match ?x with Ascii _ _ _ _ _ _ _ _ => _ end] => destruct x
                | |- context [if ?b then _ else _] => destruct b
                end; try reflexivity; try congruence). }
      rewrite H. reflexivity. }
  destruct parsed as [[| | | | |members]|]; cbn [on_message]; try reflexivity; apply Hc.
Qed.

Lemma tick_clients : forall st, connectedClients (fst (tick st)) = connectedClients st.
Proof.
  intros st. unfold tick. destruct (connectedClients st) eqn:Ec; [now cbn|].
  unfold broadcastSystemUpdate_call. destruct (filter _ _); cbn; now rewrite Ec.
Qed.

(** C10. An event takes a socket out of the registry only if it is the
    socket's ['close'], its ['error'], or the resumption of a broadcast in
    whose array the socket stands, open, with a [send] that throws.  In
    particular a socket that is not open when the broadcast resumes is
    passed over in silence: state and trace are what they would be were it
    not in the array, nothing is sent to it, and it stays in the
    registry. *)
Theorem C10_who_leaves_the_registry :
  (forall st e w,
     In w (connectedClients st) ->
     ~ In w (connectedClients (fst (step st e))) ->
     e = Close w \/ e = Error w \/
     exists k cpuData memoryData topProcesses now subscribedClients,
       e = Settled k cpuData memoryData topProcesses now /\
       nth_error (pending st) k = Some (Broadcast subscribedClients) /\
       In w subscribedClients /\
       readyState (sockets st w) = OPEN /\ send_throws (sockets st w) = true) /\
  (forall subscribedClients cpuData memoryData topProcesses now st w,
     readyState (sockets st w) <> OPEN ->
     broadcastSystemUpdate_resume subscribedClients cpuData memoryData topProcesses now st =
     broadcastSystemUpdate_resume (remove Nat.eq_dec w subscribedClients)
       cpuData memoryData topProcesses now st /\
     sent_to w (snd (broadcastSystemUpdate_resume subscribedClients
                       cpuData memoryData topProcesses now st)) = [] /\
     (In w (connectedClients st) ->
      In w (connectedClients (fst (broadcastSystemUpdate_resume subscribedClients
                                     cpuData memoryData topProcesses now st))))).
Proof.
  split.
  - intros st e w Hin Hout. destruct e as [| |x|x|x|x parsed|x r t| |k c m p now].
    + exfalso. apply Hout. exact Hin.
    + exfalso. apply Hout. cbn [step]. destruct (monitoringInterval st); exact Hin.
    + exfalso. apply Hout. cbn. now apply Set_add_In.
    + left. cbn in Hout. rewrite Set_delete_In in Hout.
      destruct (Nat.eq_dec w x) as [->|Hne]; [reflexivity|tauto].
    + right; left. cbn in Hout. rewrite Set_delete_In in Hout.
      destruct (Nat.eq_dec w x) as [->|Hne]; [reflexivity|tauto].
    + exfalso. apply Hout. cbn [step]. now rewrite on_message_clients.
    + exfalso. apply Hout. exact Hin.
    + exfalso. apply Hout. cbn [step]. destruct (monitoringInterval st); [|exact Hin].
      now rewrite tick_clients.
    + cbn [step] in Hout. destruct (nth_error (pending st) k) as [[l|x]|] eqn:Ek.
      * right; right. exists k, c, m, p, now, l.
        unfold broadcastSystemUpdate_resume in Hout. rewrite forEach_clients in Hout.
        cbn [connectedClients sockets with_pending] in Hout.
        split; [reflexivity|]. split; [exact Ek|].
        destruct (in_dec Nat.eq_dec w l) as [Hl|Hl]; [|tauto].
        destruct (Z.eq_dec (readyState (sockets st w)) OPEN) as [Ho|Ho]; [|tauto].
        destruct (send_throws (sockets st w)) eqn:Et; [tauto|].
        exfalso. apply Hout. split; [exact Hin|]. intros (_ & _ & H). discriminate.
      * exfalso. apply Hout. unfold sendSystemUpdate_resume.
        destruct (send_throws _); exact Hin.
      * exfalso. now apply Hout.
  - intros l c m p now st w Hw. unfold broadcastSystemUpdate_resume. repeat split.
    + now apply forEach_skip.
    + rewrite forEach_sent_to. unfold ready. apply Z.eqb_neq in Hw. now rewrite Hw.
    + intros Hin. rewrite forEach_clients. tauto.
Qed.
Lemma C10_who_leaves_witness :
  (In 2%nat (connectedClients three_awaiting) /\
   ~ In 2%nat (connectedClients
        (fst (step three_awaiting
                (Settled 0 (fulfilled sample_cpu) (fulfilled sample_memory)
                   (fulfilled sample_processes) "t")))) /\
   exists subscribedClients,
     nth_error (pending three_awaiting) 0 = Some (Broadcast subscribedClients) /\
     In 2%nat subscribedClients /\
     send_throws (sockets three_awaiting 2%nat) = true) /\
  sent_to 3%nat
    (snd (broadcastSystemUpdate_resume [1; 2; 3]%nat (fulfilled sample_cpu)
            (fulfilled sample_memory) (fulfilled sample_processes) "t" three_subscribed)) = [] /\
  connectedClients
    (fst (broadcastSystemUpdate_resume [1; 2; 3]%nat (fulfilled sample_cpu)
            (fulfilled sample_memory) (fulfilled sample_processes) "t" three_subscribed))
    = [1; 3]%nat.
Proof.
  destruct C10_who_leaves_the_registry as (Hwho & Hskip).
  assert (Hin : In 2%nat (connectedClients three_awaiting)) by (cbv; tauto).
  assert (Hout : ~ In 2%nat (connectedClients
                      (fst (step three_awaiting
                              (Settled 0 (fulfilled sample_cpu) (fulfilled sample_memory)
                                 (fulfilled sample_processes) "t"))))).
  { cbv. intros [H|[H|[]]]; discriminate. }
  assert (H3 : readyState (sockets three_subscribed 3%nat) <> OPEN) by (cbv; discriminate).
  split; [split; [exact Hin|split; [exact Hout|]]|].
  - destruct (Hwho _ _ _ Hin Hout) as [H|[H|(k & c & m & p & now & l & He & Hk & Hl & _ & Ht)]];
      [discriminate|discriminate|].
    injection He as <- _ _ _ _. exists l. auto.
  - destruct (Hskip [1; 2; 3]%nat (fulfilled sample_cpu) (fulfilled sample_memory)
                (fulfilled sample_processes) "t" three_subscribed 3%nat H3)
      as (_ & Hnone & _).
    split; [exact Hnone|reflexivity].
Defined.

End MonitorFacts.

(* ================================================================== *)
(** * Properties of the client reconnection hook                       *)
(* ================================================================== *)

Module ClientFacts.
Import JS Client.
Local Open Scope string_scope.
Local Open Scope list_scope.

(** C8, as stated, does not hold in its last part but one: what the hook
    exposes after it has given up is what it exposes while a retry is
    pending.  After [first_loss] a timeout is running, after [six_losses]
    none is and the attempts are used up, and the exposed values are the
    same: there is no report of having given up. *)
Lemma C8_giving_up_is_not_reported :
  timers (fst (run initial first_loss)) = [0%nat] /\
  timers (fst (run initial six_losses)) = [] /\
  reconnectAttempts (fst (run initial six_losses)) = maxReconnectAttempts /\
  expose (fst (run initial first_loss)) = expose (fst (run initial six_losses)) /\
  expose (fst (run initial six_losses)) =
    {| exposed_connected := false; exposed_lastUpdate := None; exposed_data := None |}.
Proof. repeat split. Qed.

Lemma existsb_last : forall t l, existsb (Nat.eqb t) (l ++ [t]) = true.
Proof.
  intros t l. rewrite existsb_app. cbn. rewrite Nat.eqb_refl.
  now rewrite orb_true_r.
Qed.

(** C8, amended.  A close that finds fewer than five attempts used sets
    exactly one timeout, of 3000 ms, counts one attempt more, and the
    firing of that timeout opens exactly one new socket.  A close that
    finds the five attempts used sets no timeout and leaves none running
    that was not.  After either close the hook exposes [connected = false]
    beside the unchanged last update and data, and nothing that tells the
    two apart.  An open resets
    the count, exposes [connected = true] and sends on the opened socket
    the subscribe intent and nothing else.  From the mount on, six losses
    in a row open six sockets and set five timeouts of 3000 ms. *)
Theorem C8_bounded_retries_fixed_delay :
  (forall h ws,
     (reconnectAttempts h < maxReconnectAttempts)%nat ->
     scheduled (snd (onclose ws h)) = [3000] /\
     timers (fst (onclose ws h)) = timers h ++ [timeouts h] /\
     reconnectAttempts (fst (onclose ws h)) = S (reconnectAttempts h) /\
     expose (fst (onclose ws h)) =
       {| exposed_connected := false; exposed_lastUpdate := lastUpdate h;
          exposed_data := data h |} /\
     attempts (snd (step (fst (onclose ws h)) (Timeout (timeouts h)))) = [sockets h]) /\
  (forall h ws,
     (maxReconnectAttempts <= reconnectAttempts h)%nat ->
     scheduled (snd (onclose ws h)) = [] /\
     timers (fst (onclose ws h)) = timers h /\
     reconnectAttempts (fst (onclose ws h)) = reconnectAttempts h /\
     expose (fst (onclose ws h)) =
       {| exposed_connected := false; exposed_lastUpdate := lastUpdate h;
          exposed_data := data h |}) /\
  (forall h ws,
     reconnectAttempts (fst (onopen ws h)) = 0%nat /\
     connected (fst (onopen ws h)) = true /\
     sent_on ws (snd (onopen ws h)) = [intent "subscribe"] /\
     (forall s m, In (Send s m) (snd (onopen ws h)) -> s = ws /\ m = intent "subscribe")) /\
  attempts (snd (run initial six_losses)) = [0; 1; 2; 3; 4; 5]%nat /\
  scheduled (snd (run initial six_losses)) = [3000; 3000; 3000; 3000; 3000].
Proof.
  split; [|split; [|split; [|split; reflexivity]]].
  - intros h ws Hlt. unfold onclose. apply Nat.ltb_lt in Hlt. rewrite Hlt.
    cbn [fst snd scheduled timers reconnectAttempts connected step].
    repeat split.
    rewrite existsb_last. reflexivity.
  - intros h ws Hge. unfold onclose. apply Nat.ltb_ge in Hge. rewrite Hge.
    repeat split.
  - intros h ws. unfold onopen. cbn [fst snd sent_on]. rewrite Nat.eqb_refl.
    repeat split; cbn in H; destruct H as [H|[H|[]]]; try discriminate;
      inversion H; reflexivity.
Qed.

Lemma C8_bounded_retries_witness :
  (reconnectAttempts (fst (run initial first_loss)) < maxReconnectAttempts)%nat /\
  scheduled (snd (onclose 1%nat (fst (run initial first_loss)))) = [3000] /\
  (maxReconnectAttempts <= reconnectAttempts (fst (run initial six_losses)))%nat /\
  scheduled (snd (onclose 6%nat (fst (run initial six_losses)))) = [] /\
  reconnectAttempts (fst (run initial recovery)) = 0%nat.
Proof.
  destruct C8_bounded_retries_fixed_delay as (Hretry & Hstop & Hopen & _).
  assert (H1 : (reconnectAttempts (fst (run initial first_loss)) < maxReconnectAttempts)%nat)
    by (cbv; lia).
  assert (H2 : (maxReconnectAttempts <= reconnectAttempts (fst (run initial six_losses)))%nat)
    by (cbv; lia).
  split; [exact H1|]. split; [exact (proj1 (Hretry _ 1%nat H1))|].
  split; [exact H2|]. split; [exact (proj1 (Hstop _ 6%nat H2))|].
  exact (proj1 (Hopen (fst (run initial [Mount; Close 0; Timeout 0; Close 1; Timeout 1]%nat))
                  2%nat)).
Defined.

End ClientFacts.

(* ================================================================== *)
(** * Properties of the collectors                                     *)
(* ================================================================== *)

Module SystemFacts.
Import JS System.
Local Open Scope string_scope.
Local Open Scope Z_scope.

(** ** Arithmetic of the number model *)

Lemma Qred_inject_Z : forall z, Qred (inject_Z z) = inject_Z z.
Proof.
  intros z. unfold Qred, inject_Z.
  pose proof (Z.ggcd_gcd z 1) as Hg.
  pose proof (Z.ggcd_correct_divisors z 1) as Hd.
  destruct (Z.ggcd z 1) as [g [aa bb]]. cbn [fst] in Hg.
  rewrite Z.gcd_1_r in Hg. subst g. destruct Hd as [Ha Hb].
  rewrite Z.mul_1_l in Ha, Hb. now subst.
Qed.

Lemma sub_of_Z : forall a b, sub (of_Z a) (of_Z b) = of_Z (a - b).
Proof.
  intros a b. unfold sub, of_Z. f_equal.
  rewrite <- (Qred_inject_Z (a - b)). apply Qred_complete.
  unfold Qeq, Qminus, Qplus, Qopp, inject_Z. cbn. ring.
Qed.

Lemma add_of_Z : forall a b, add (of_Z a) (of_Z b) = of_Z (a + b).
Proof.
  intros a b. unfold add, of_Z. f_equal.
  rewrite <- (Qred_inject_Z (a + b)). apply Qred_complete.
  unfold Qeq, Qplus, inject_Z. cbn. ring.
Qed.

(** Rounding the quotient of two integers, the divisor positive. *)
Lemma round_quotient : forall q n d,
  0 < d -> q == inject_Z n / inject_Z d ->
  Math_round (Num q) = of_Z ((2 * n + d) / (2 * d)).
Proof.
  intros q n d Hd Hq. unfold Math_round. f_equal.
  assert (E : q + (1 # 2) == inject_Z (2 * n + d) / inject_Z (2 * d)).
  { assert (Hd' : ~ inject_Z d == 0).
    { intros H. unfold Qeq, inject_Z in H. cbn in H. lia. }
    rewrite Hq. rewrite !inject_Z_plus, !inject_Z_mult. field.
    exact Hd'. }
  rewrite E. symmetry. apply Zdiv_Qdiv.
Qed.

Lemma div_by_positive : forall q d,
  0 < d -> div (Num q) (of_Z d) = Num (Qred (q / inject_Z d)).
Proof.
  intros q d Hd. unfold div, of_Z, Qsign. cbn [Qnum inject_Z].
  destruct d; try lia. reflexivity.
Qed.

Lemma div_by_nonzero : forall q d,
  d <> 0 -> div (Num q) (of_Z d) = Num (Qred (q / inject_Z d)).
Proof.
  intros q d Hd. unfold div, of_Z, Qsign. cbn [Qnum inject_Z].
  destruct d; try congruence; reflexivity.
Qed.

Lemma mul_Num : forall q z, mul (Num q) (of_Z z) = Num (Qred (q * inject_Z z)).
Proof. reflexivity. Qed.

(** ** Rounding to binary64 *)

Section Rounding.
Local Open Scope Q_scope.

Lemma nearest_even_close : forall x,
  x - (1 # 2) <= inject_Z (nearest_even x) <= x + (1 # 2).
Proof.
  intros x. unfold nearest_even.
  pose proof (Qfloor_le x) as Hl. pose proof (Qlt_floor x) as Hu.
  rewrite inject_Z_plus in Hu. change (inject_Z 1) with 1 in Hu.
  destruct (Qcompare_spec (x - inject_Z (Qfloor x)) (1 # 2)) as [E|E|E].
  - destruct (Z.even (Qfloor x)); [|rewrite inject_Z_plus; change (inject_Z 1) with 1]; lra.
  - lra.
  - rewrite inject_Z_plus. change (inject_Z 1) with 1. lra.
Qed.

Lemma nearest_even_nonneg : forall x, 0 <= x -> (0 <= nearest_even x)%Z.
Proof.
  intros x Hx. unfold nearest_even.
  assert (H : (0 <= Qfloor x)%Z).
  { change 0%Z with (Qfloor 0). now apply Qfloor_resp_le. }
  destruct (x - inject_Z (Qfloor x) ?= 1 # 2); [destruct (Z.even (Qfloor x))| |]; lia.
Qed.

Lemma two_power_pos : forall k : Z, 0 < 2 ^ k.
Proof. intros k. apply Qpower_0_lt. reflexivity. Qed.

Lemma two_power_succ : forall k : Z, 2 ^ (k + 1) == 2 * 2 ^ k.
Proof.
  intros k. rewrite Qpower_plus by discriminate. change (2 ^ 1) with 2. ring.
Qed.

Lemma two_power_lt_inv : forall a b : Z, 2 ^ a < 2 ^ b -> (a < b)%Z.
Proof. intros a b H. apply (Qpower_lt_compat_l_inv 2); [exact H|reflexivity]. Qed.

(** [Qlog2] is the exponent. *)
Lemma Qlog2_spec : forall q, 0 < q -> 2 ^ Qlog2 q <= q /\ q < 2 ^ (Qlog2 q + 1).
Proof.
  intros [n d] Hq. unfold Qlog2. cbn [Qnum Qden].
  assert (Hn : (0 < n)%Z) by (unfold Qlt in Hq; cbn in Hq; lia).
  destruct (Z.log2_spec n Hn) as [Hn1 Hn2].
  destruct (Z.log2_spec (Z.pos d) (Pos2Z.is_pos d)) as [Hd1 Hd2].
  set (a := Z.log2 n) in *. set (b := Z.log2 (Z.pos d)) in *.
  assert (Ha : (0 <= a)%Z) by apply Z.log2_nonneg.
  assert (Hb : (0 <= b)%Z) by apply Z.log2_nonneg.
  assert (Hqd : (n # d) * inject_Z (Z.pos d) == inject_Z n).
  { unfold Qeq. cbn. rewrite Pos.mul_1_r. ring. }
  assert (Qn1 : 2 ^ a <= inject_Z n).
  { rewrite <- (Zpower_Qpower 2 a Ha). now rewrite <- Zle_Qle. }
  assert (Qn2 : inject_Z n < 2 * 2 ^ a).
  { rewrite <- two_power_succ. rewrite <- (Zpower_Qpower 2 (a + 1)) by lia.
    rewrite <- Zlt_Qlt. replace (a + 1)%Z with (Z.succ a) by lia. exact Hn2. }
  assert (Qd1 : 2 ^ b <= inject_Z (Z.pos d)).
  { rewrite <- (Zpower_Qpower 2 b Hb). now rewrite <- Zle_Qle. }
  assert (Qd2 : inject_Z (Z.pos d) < 2 * 2 ^ b).
  { rewrite <- two_power_succ. rewrite <- (Zpower_Qpower 2 (b + 1)) by lia.
    rewrite <- Zlt_Qlt. replace (b + 1)%Z with (Z.succ b) by lia. exact Hd2. }
  assert (Hk : 2 ^ (a - b) * 2 ^ b == 2 ^ a).
  { rewrite <- Qpower_plus by discriminate. now replace (a - b + b)%Z with a by lia. }
  pose proof (two_power_pos a) as Pa. pose proof (two_power_pos b) as Pb.
  pose proof (two_power_pos (a - b)) as Pk.
  destruct (Qle_bool (2 ^ (a - b)) (n # d)) eqn:E.
  - apply Qle_bool_iff in E. split; [exact E|].
    rewrite two_power_succ.
    apply Qnot_le_lt. intros H.
    assert (2 * 2 ^ a <= inject_Z n); [|lra].
    rewrite <- Hqd, <- Hk. nra.
  - assert (E' : (n # d) < 2 ^ (a - b)).
    { apply Qnot_le_lt. intros H. apply Qle_bool_iff in H. congruence. }
    replace (a - b - 1 + 1)%Z with (a - b)%Z by lia. split; [|exact E'].
    assert (Hk1 : 2 * 2 ^ (a - b - 1) == 2 ^ (a - b)).
    { rewrite <- two_power_succ. now replace (a - b - 1 + 1)%Z with (a - b)%Z by lia. }
    pose proof (two_power_pos (a - b - 1)) as Pk1.
    apply Qnot_lt_le. intros H.
    assert (inject_Z n < 2 ^ a); [|lra].
    rewrite <- Hqd, <- Hk, <- Hk1. nra.
Qed.

(** The rounding of a positive number in the range of the normal
    numbers: the relative error is at most [2 ^ -53]. *)
Lemma binary64_normal : forall q,
  2 ^ (-1022) <= q -> q < 2 ^ 1023 ->
  exists r, binary64 q = Num r /\
            q * (1 - 2 ^ (-53)) <= r <= q * (1 + 2 ^ (-53)).
Proof.
  intros q Hlo Hhi.
  assert (Hq : 0 < q) by (pose proof (two_power_pos (-1022)); lra).
  destruct (Qlog2_spec q Hq) as [L1 L2].
  assert (HL : (-1022 <= Qlog2 q <= 1022)%Z).
  { split.
    - assert (H : 2 ^ (-1022) < 2 ^ (Qlog2 q + 1)) by lra.
      apply two_power_lt_inv in H. lia.
    - assert (H : 2 ^ Qlog2 q < 2 ^ 1023) by lra.
      apply two_power_lt_inv in H. lia. }
  unfold binary64.
  destruct q as [[|n|n] d]; [discriminate Hq| |discriminate Hq].
  cbn [Qnum Z.sgn Qabs Z.abs]. rewrite Z.mul_1_l.
  set (q := Z.pos n # d) in *.
  replace (Z.max (Qlog2 q - 52) (-1074)) with (Qlog2 q - 52)%Z by lia.
  set (e := (Qlog2 q - 52)%Z).
  assert (He : 2 ^ Qlog2 q == 2 ^ e * 2 ^ 52).
  { rewrite <- Qpower_plus by discriminate.
    now replace (e + 52)%Z with (Qlog2 q) by (unfold e; lia). }
  pose proof (two_power_pos e) as Pe. set (P := 2 ^ e) in *.
  change (2 ^ 52) with 4503599627370496 in He.
  pose proof (nearest_even_close (q / P)) as [M1 M2].
  set (m := nearest_even (q / P)) in *.
  assert (Hs : q / P * P == q) by (field; lra).
  assert (R1 : q - P * (1 # 2) <= inject_Z m * P) by (rewrite <- Hs at 1; nra).
  assert (R2 : inject_Z m * P <= q + P * (1 # 2)) by (rewrite <- Hs at 1; nra).
  change (2 ^ (-53)) with (1 # 9007199254740992).
  change (2 ^ 1023) with (inject_Z (2 ^ 1023)) in Hhi.
  assert (Hov : Qle_bool (2 ^ 1024) (inject_Z m * P) = false).
  { destruct (Qle_bool (2 ^ 1024) (inject_Z m * P)) eqn:E; [|reflexivity].
    apply Qle_bool_iff in E. exfalso.
    change (2 ^ 1024) with (2 * inject_Z (2 ^ 1023)) in E. lra. }
  rewrite Hov. eexists. split; [reflexivity|]. rewrite Qred_correct. lra.
Qed.

End Rounding.

(** On every pair of the samples, zero divisors included, the quotient
    and the product computed here are those of the specification of the
    Standard Library. *)
Lemma binary64_agrees_with_the_specification :
  forallb (fun ab => agree (fst ab) (snd ab)) (list_prod samples samples) = true.
Proof. vm_compute. reflexivity. Qed.

Section Percentage.
Local Open Scope Q_scope.

(** [Math.round((a / b) * 100)] for integers [0 <= a <= b] with [b] up to
    [2 ^ 53]: an integer between 0 and 100 that is within
    [1/2 + 2 ^ -45] of the exact percentage. *)
Lemma percent_of_ratio : forall a b,
  (0 <= a <= b)%Z -> (0 < b <= 2 ^ 53)%Z ->
  exists p,
    Math_round (product (quotient (of_Z a) (of_Z b)) (of_Z 100)) = of_Z p /\
    (0 <= p <= 100)%Z /\
    (2 ^ 45 * Z.abs (100 * a - p * b) <= (2 ^ 44 + 1) * b)%Z.
Proof.
  intros a b Ha Hb. unfold quotient. unfold of_Z at 1.
  rewrite div_by_positive by lia. cbn [rounded].
  destruct (Z.eq_dec a 0) as [->|Hne].
  - replace (Qred (inject_Z 0 / inject_Z b)) with (Qred 0)
      by (apply Qred_complete; unfold Qdiv; ring).
    exists 0%Z. split; [reflexivity|]. split; lia.
  - set (x := Qred (inject_Z a / inject_Z b)).
    assert (HB : 0 < inject_Z b) by (change 0 with (inject_Z 0); rewrite <- Zlt_Qlt; lia).
    assert (Hx : x * inject_Z b == inject_Z a).
    { unfold x. rewrite Qred_correct. field. lra. }
    assert (HA : 1 <= inject_Z a) by (change 1 with (inject_Z 1); rewrite <- Zle_Qle; lia).
    assert (HAB : inject_Z a <= inject_Z b) by (rewrite <- Zle_Qle; lia).
    assert (HB2 : inject_Z b <= 9007199254740992).
    { change 9007199254740992 with (inject_Z (2 ^ 53)). rewrite <- Zle_Qle. lia. }
    assert (Hx1 : x <= 1).
    { apply Qnot_lt_le. intros H. assert (inject_Z b < x * inject_Z b) by nra. lra. }
    assert (Hx0 : (1 # 9007199254740992) <= x).
    { apply Qnot_lt_le. intros H.
      assert (x * inject_Z b < (1 # 9007199254740992) * 9007199254740992) by nra. lra. }
    destruct (binary64_normal x) as (r1 & E1 & B1).
    { apply Qle_trans with (1 # 9007199254740992); [discriminate|exact Hx0]. }
    { apply Qle_lt_trans with 1; [exact Hx1|reflexivity]. }
    rewrite E1. unfold product. rewrite mul_Num. cbn [rounded].
    change (2 ^ (-53)) with (1 # 9007199254740992) in B1.
    change (inject_Z 100) with 100.
    destruct (binary64_normal (Qred (r1 * 100))) as (y1 & E2 & B2).
    { rewrite Qred_correct.
      apply Qle_trans with (1 # 18014398509481984); [discriminate|lra]. }
    { rewrite Qred_correct. apply Qlt_trans with 200; [lra|reflexivity]. }
    rewrite E2. rewrite Qred_correct in B2.
    change (2 ^ (-53)) with (1 # 9007199254740992) in B2.
    unfold Math_round. exists (Qfloor (y1 + (1 # 2))). split; [reflexivity|].
    pose proof (Qfloor_le (y1 + (1 # 2))) as F1.
    pose proof (Qlt_floor (y1 + (1 # 2))) as F2.
    rewrite inject_Z_plus in F2. change (inject_Z 1) with 1 in F2.
    set (p := Qfloor (y1 + (1 # 2))) in *.
    assert (D1 : inject_Z p - 100 * x <= (1 # 2) + (1 # 35184372088832)) by nra.
    assert (D2 : - ((1 # 2) + (1 # 35184372088832)) <= inject_Z p - 100 * x) by nra.
    split.
    + split.
      * apply Z.lt_succ_r. rewrite Zlt_Qlt. change (inject_Z 0) with 0.
        rewrite <- Z.add_1_r, inject_Z_plus. change (inject_Z 1) with 1. lra.
      * apply Z.lt_succ_r. rewrite Zlt_Qlt.
        change (inject_Z (Z.succ 100)) with 101. lra.
    + assert (G1 : (2 ^ 45 * (100 * a - p * b) <= (2 ^ 44 + 1) * b)%Z).
      { rewrite Zle_Qle. unfold Z.sub.
        rewrite !inject_Z_mult, inject_Z_plus, inject_Z_opp, !inject_Z_mult.
        change (inject_Z (2 ^ 45)) with 35184372088832.
        change (inject_Z (2 ^ 44 + 1)) with 17592186044417.
        change (inject_Z 100) with 100. rewrite <- Hx. nra. }
      assert (G2 : (2 ^ 45 * (p * b - 100 * a) <= (2 ^ 44 + 1) * b)%Z).
      { rewrite Zle_Qle. unfold Z.sub.
        rewrite !inject_Z_mult, inject_Z_plus, inject_Z_opp, !inject_Z_mult.
        change (inject_Z (2 ^ 45)) with 35184372088832.
        change (inject_Z (2 ^ 44 + 1)) with 17592186044417.
        change (inject_Z 100) with 100. rewrite <- Hx. nra. }
      lia.
Qed.

End Percentage.

(** The rounding of a number is a number. *)
Lemma binary64_not_NaN : forall q, binary64 q <> NaN.
Proof.
  intros q. unfold binary64. destruct (Qnum q); [discriminate| |];
    destruct (Qle_bool _ _); discriminate.
Qed.

Lemma rounded_NaN : forall n, rounded n = NaN -> n = NaN.
Proof.
  intros [| |q] H; [reflexivity|discriminate|]. now apply binary64_not_NaN in H.
Qed.

Lemma product_NaN : forall n z, z <> 0 -> product n (of_Z z) = NaN -> n = NaN.
Proof.
  intros n z Hz H. apply rounded_NaN in H. destruct n as [|s|q]; [reflexivity| |discriminate].
  unfold mul, of_Z, Qsign in H. cbn [Qnum inject_Z] in H. destruct z; [congruence| |]; discriminate.
Qed.

Lemma quotient_NaN : forall i t, quotient (of_Z i) (of_Z t) = NaN -> i = 0 /\ t = 0.
Proof.
  intros i t H. apply rounded_NaN in H.
  unfold div, of_Z, Qsign in H. cbn [Qnum inject_Z] in H.
  destruct t; [destruct i; [auto|discriminate|discriminate]|discriminate|discriminate].
Qed.

(** ** The memory sample *)

(** Bytes to whole megabytes, as [Math.round(n / 1024 / 1024)] does it. *)
Lemma megabytes : forall n,
  Math_round (div (div (of_Z n) (of_Z 1024)) (of_Z 1024)) = of_Z ((n + 524288) / 1048576).
Proof.
  intros n. unfold of_Z at 1. rewrite !div_by_positive by lia.
  rewrite (round_quotient _ n 1048576); [|lia|].
  - f_equal. replace (2 * n + 1048576) with (2 * (n + 524288)) by ring.
    apply Z.div_mul_cancel_l; lia.
  - rewrite !Qred_correct. field.
Qed.

(** The quotient of two integers is that of any two integers in the same
    ratio. *)
Lemma quotient_scaled : forall k a b,
  0 < k -> 0 < b ->
  quotient (of_Z (k * a)) (of_Z (k * b)) = quotient (of_Z a) (of_Z b).
Proof.
  intros k a b Hk Hb. unfold quotient. unfold of_Z at 1 3.
  rewrite !div_by_positive by lia. cbn [rounded]. f_equal.
  apply Qred_complete. rewrite !inject_Z_mult.
  assert (Hk' : ~ inject_Z k == 0) by (intros H; unfold Qeq, inject_Z in H; cbn in H; lia).
  assert (Hb' : ~ inject_Z b == 0) by (intros H; unfold Qeq, inject_Z in H; cbn in H; lia).
  field. split; assumption.
Qed.

(** C3, as stated, does not hold.  With 8 GiB of memory of which 3072.5
    MiB are free, [total] is 8192, [free] is 3073 and [used] is 5120, not
    5119; and [percentage] is 62, taken from the byte counts, where the
    megabyte fields give 63.  And with 10 GiB of which 4.25 GiB are free,
    where every field is exact and [used / total * 100] is 57.5,
    [percentage] is 57, not the 58 that rounding 57.5 gives: the quotient
    is rounded to binary64 before it is multiplied. *)
Lemma C3_rounded_fields_do_not_add_up :
  total (getMemoryUsage "linux" 8589934592 3221749760 None) = of_Z 8192 /\
  free (getMemoryUsage "linux" 8589934592 3221749760 None) = of_Z 3073 /\
  used (getMemoryUsage "linux" 8589934592 3221749760 None) = of_Z 5120 /\
  used (getMemoryUsage "linux" 8589934592 3221749760 None) <>
    sub (total (getMemoryUsage "linux" 8589934592 3221749760 None))
        (free (getMemoryUsage "linux" 8589934592 3221749760 None)) /\
  percentage (getMemoryUsage "linux" 8589934592 3221749760 None) = of_Z 62 /\
  Math_round (product (quotient (used (getMemoryUsage "linux" 8589934592 3221749760 None))
                                (total (getMemoryUsage "linux" 8589934592 3221749760 None)))
                      (of_Z 100))
    = of_Z 63 /\
  total (getMemoryUsage "linux" 10737418240 4563402752 None) = of_Z 10240 /\
  used (getMemoryUsage "linux" 10737418240 4563402752 None) = of_Z 5888 /\
  mul (div (of_Z 5888) (of_Z 10240)) (of_Z 100) = Num (115 # 2) /\
  Math_round (Num (115 # 2)) = of_Z 58 /\
  percentage (getMemoryUsage "linux" 10737418240 4563402752 None) = of_Z 57.
Proof.
  repeat split; try (vm_compute; reflexivity). vm_compute. discriminate.
Qed.

(** C3, amended.  Given byte counts with [0 <= free <= total] and
    [0 < total <= 2 ^ 53], the fields [total], [free] and [used] are
    integers, each the rounding to whole megabytes of its own byte count,
    so that [used] is within 1 of [total - free], and equal to it when
    both byte counts are whole megabytes.  [percentage] is taken from the
    byte counts by a quotient and a product that are each rounded to
    binary64: it is an integer between 0 and 100 that differs from a
    hundred times the ratio of the used to the total bytes by no more
    than [1/2 + 2 ^ -45]; when both byte counts are whole megabytes it is
    what the same two operations give on the fields [used] and [total]. *)
Theorem C3_memory_fields_rounded_apart : forall platform totalMemory freeMemory meminfo,
  0 < totalMemory <= 2 ^ 53 ->
  0 <= freeMemory <= totalMemory ->
  exists t f u p,
    total (getMemoryUsage platform totalMemory freeMemory meminfo) = of_Z t /\
    free (getMemoryUsage platform totalMemory freeMemory meminfo) = of_Z f /\
    used (getMemoryUsage platform totalMemory freeMemory meminfo) = of_Z u /\
    percentage (getMemoryUsage platform totalMemory freeMemory meminfo) = of_Z p /\
    t = (totalMemory + 524288) / 1048576 /\
    f = (freeMemory + 524288) / 1048576 /\
    u = (totalMemory - freeMemory + 524288) / 1048576 /\
    t - f - 1 <= u <= t - f + 1 /\
    (totalMemory mod 1048576 = 0 -> freeMemory mod 1048576 = 0 ->
     u = t - f /\
     of_Z p = Math_round (product (quotient (of_Z u) (of_Z t)) (of_Z 100))) /\
    0 <= p <= 100 /\
    2 ^ 45 * Z.abs (100 * (totalMemory - freeMemory) - p * totalMemory)
      <= (2 ^ 44 + 1) * totalMemory.
Proof.
  intros platform T F meminfo HT HF.
  destruct (percent_of_ratio (T - F) T) as (p & Hp & Hrange & Hnear); [lia|lia|].
  exists ((T + 524288) / 1048576), ((F + 524288) / 1048576),
         ((T - F + 524288) / 1048576), p.
  unfold getMemoryUsage. cbn [total free used percentage].
  rewrite sub_of_Z, !megabytes.
  split; [reflexivity|]. split; [reflexivity|]. split; [reflexivity|].
  split; [exact Hp|].
  split; [reflexivity|]. split; [reflexivity|]. split; [reflexivity|].
  split; [|split; [|split]].
  - Z.div_mod_to_equations. lia.
  - intros H1 H2.
    assert (Ht : T = 1048576 * ((T + 524288) / 1048576)) by (Z.div_mod_to_equations; lia).
    assert (Hu : T - F = 1048576 * ((T - F + 524288) / 1048576)) by (Z.div_mod_to_equations; lia).
    split; [Z.div_mod_to_equations; lia|].
    rewrite <- Hp. rewrite Hu at 1. rewrite Ht at 2.
    rewrite quotient_scaled; [reflexivity|lia|Z.div_mod_to_equations; lia].
  - exact Hrange.
  - exact Hnear.
Qed.

Lemma C3_memory_fields_witness :
  0 < 8589934592 <= 2 ^ 53 /\ 0 <= 3221225472 <= 8589934592 /\
  exists t f u p,
    total (getMemoryUsage "darwin" 8589934592 3221225472 None) = of_Z t /\
    free (getMemoryUsage "darwin" 8589934592 3221225472 None) = of_Z f /\
    used (getMemoryUsage "darwin" 8589934592 3221225472 None) = of_Z u /\
    percentage (getMemoryUsage "darwin" 8589934592 3221225472 None) = of_Z p /\
    t = (8589934592 + 524288) / 1048576 /\
    f = (3221225472 + 524288) / 1048576 /\
    u = (8589934592 - 3221225472 + 524288) / 1048576 /\
    t - f - 1 <= u <= t - f + 1 /\
    (8589934592 mod 1048576 = 0 -> 3221225472 mod 1048576 = 0 ->
     u = t - f /\
     of_Z p = Math_round (product (quotient (of_Z u) (of_Z t)) (of_Z 100))) /\
    0 <= p <= 100 /\
    2 ^ 45 * Z.abs (100 * (8589934592 - 3221225472) - p * 8589934592)
      <= (2 ^ 44 + 1) * 8589934592.
Proof.
  assert (H1 : 0 < 8589934592 <= 2 ^ 53) by lia.
  assert (H2 : 0 <= 3221225472 <= 8589934592) by lia.
  split; [exact H1|]. split; [exact H2|].
  exact (C3_memory_fields_rounded_apart "darwin" 8589934592 3221225472 None H1 H2).
Defined.

(** ** The CPU sample *)

Lemma sum_values : forall t,
  sum (values t) = of_Z (0 + user t + nice t + sys t + idle t + irq t).
Proof.
  intros t. unfold sum, values. cbn [fold_left]. now rewrite !add_of_Z.
Qed.

(** The loop keeps integers. *)
Lemma accumulate_integers : forall cpus1 cpus2 a b,
  accumulate cpus1 cpus2 (of_Z a) (of_Z b) = None \/
  exists a' b', accumulate cpus1 cpus2 (of_Z a) (of_Z b) = Some (of_Z a', of_Z b').
Proof.
  induction cpus1 as [|c1 cpus1 IH]; intros cpus2 a b; cbn [accumulate].
  - right. now exists a, b.
  - destruct cpus2 as [|c2 cpus2]; [now left|].
    rewrite !sum_values, !sub_of_Z, !add_of_Z. apply IH.
Qed.

(** Two equal readings leave both totals at 0. *)
Lemma accumulate_same : forall cpus a b,
  accumulate cpus cpus (of_Z a) (of_Z b) = Some (of_Z a, of_Z b).
Proof.
  induction cpus as [|c cpus IH]; intros a b; cbn [accumulate]; [reflexivity|].
  rewrite !sum_values, !sub_of_Z, !add_of_Z, !Z.sub_diag, !Z.add_0_r. apply IH.
Qed.

(** C4 fails on the code.  When the two readings of the tick counters are
    equal (and so when [os.cpus()] is empty), the total delta is 0, the
    ratio is [0 / 0], and [NaN] passes through [Math.round], the
    subtraction, [Math.min] and [Math.max]: the usage is [NaN], which is no
    integer between 0 and 100. *)
Theorem C4_equal_readings_give_NaN :
  (forall cpus, getCPUPercent cpus cpus = Some NaN) /\
  getCPUPercent reading1 reading1 = Some NaN /\
  getCPUPercent [] [] = Some NaN /\
  to_integer NaN = None /\
  getCPUPercent reading1 reading2 = Some (of_Z 15).
Proof.
  split; [|repeat split; vm_compute; reflexivity].
  intros cpus. unfold getCPUPercent. rewrite accumulate_same. reflexivity.
Qed.

Lemma lt_of_Z : forall a b, lt (of_Z a) (of_Z b) = (a <? b).
Proof.
  intros a b. unfold lt, of_Z, Qcompare, inject_Z. cbn [Qnum Qden].
  rewrite !Z.mul_1_r. unfold Z.ltb. reflexivity.
Qed.

Lemma clamp_of_Z : forall v,
  Math_max (of_Z 0) (Math_min (of_Z 100) (of_Z v)) = of_Z (Z.max 0 (Z.min 100 v)).
Proof.
  intros v. unfold Math_min. cbn [is_NaN of_Z orb]. fold (of_Z v). fold (of_Z 100).
  rewrite lt_of_Z. destruct (Z.ltb_spec v 100).
  - unfold Math_max. cbn [is_NaN of_Z orb]. fold (of_Z v). fold (of_Z 0).
    rewrite lt_of_Z. destruct (Z.ltb_spec 0 v); f_equal; lia.
  - unfold Math_max. cbn [is_NaN of_Z orb]. fold (of_Z 100). fold (of_Z 0).
    rewrite lt_of_Z. cbn. f_equal. lia.
Qed.

(** The clamp of [100 - Math.round(n)] for a number [n], infinite or
    not. *)
Lemma clamp_of_number : forall n,
  n <> NaN ->
  exists z,
    Math_max (of_Z 0) (Math_min (of_Z 100) (sub (of_Z 100) (Math_round n))) = of_Z z /\
    0 <= z <= 100.
Proof.
  intros [|s|q] Hn; [congruence| |].
  - destruct s; [exists 100|exists 0]; split; try reflexivity; lia.
  - unfold Math_round. rewrite sub_of_Z. eexists. split; [apply clamp_of_Z|lia].
Qed.

Lemma usage_of_totals : forall i t,
  Math_max (of_Z 0) (Math_min (of_Z 100)
    (sub (of_Z 100) (Math_round (product (quotient (of_Z i) (of_Z t)) (of_Z 100))))) = NaN \/
  exists z,
    Math_max (of_Z 0) (Math_min (of_Z 100)
      (sub (of_Z 100) (Math_round (product (quotient (of_Z i) (of_Z t)) (of_Z 100))))) = of_Z z /\
    0 <= z <= 100.
Proof.
  intros i t.
  destruct (product (quotient (of_Z i) (of_Z t)) (of_Z 100)) as [|s|q] eqn:E.
  - now left.
  - right. apply clamp_of_number. discriminate.
  - right. apply clamp_of_number. discriminate.
Qed.

(** Apart from that case the clamp does its work: whenever the usage is a
    number at all, it is an integer between 0 and 100. *)
Lemma usage_is_NaN_or_percentage : forall cpus1 cpus2 u,
  getCPUPercent cpus1 cpus2 = Some u ->
  u = NaN \/ exists z, u = of_Z z /\ 0 <= z <= 100.
Proof.
  intros cpus1 cpus2 u. unfold getCPUPercent.
  destruct (accumulate_integers cpus1 cpus2 0 0) as [E|(i & t & E)]; rewrite E;
    [discriminate|].
  intros H.
  apply (f_equal (fun o => match o with Some x => x | None => NaN end)) in H.
  cbv beta iota in H. rewrite <- H. apply usage_of_totals.
Qed.
End SystemFacts.

(* ================================================================== *)
(** * Properties of the process table                                  *)
(* ================================================================== *)

Module ProcessesFacts.
Import JS Processes.
Local Open Scope string_scope.
Local Open Scope list_scope.

(** ** The pid of a record *)

(** C5 fails on the code, on the Windows path.  [getWindowsProcesses]
    pushes an object for every line of five fields without looking at its
    [pid], where [parseUnixProcesses] checks [process.pid].  The listing
    that [tasklist] prints starts with the idle process, whose PID is 0:
    the batch holds a record with [pid] 0, which is not positive; and a
    PID field that is no number gives a record whose [pid] is [NaN]. *)
Theorem C5_windows_batch_keeps_invalid_pids : forall localeCompare,
  map (fun p => (name p, pid p))
      (parseWindowsProcesses localeCompare tasklist_output 20 "memory") =
    [("chrome.exe", of_Z 1234); ("System", of_Z 4); ("System Idle Process", of_Z 0)] /\
  ~ Forall valid_pid (parseWindowsProcesses localeCompare tasklist_output 20 "memory") /\
  map (fun p => (name p, pid p))
      (parseWindowsProcesses localeCompare tasklist_garbled 20 "memory") =
    [("c.exe", of_Z 10); ("a.exe", NaN); ("b.exe", of_Z 30)].
Proof.
  intros localeCompare. split; [reflexivity|]. split; [|reflexivity].
  intros H. unfold valid_pid in H.
  apply (Forall_map pid (fun n => exists z, n = of_Z z /\ (0 < z)%Z)) in H.
  change (map pid (parseWindowsProcesses localeCompare tasklist_output 20 "memory"))
    with [of_Z 1234; of_Z 4; of_Z 0] in H.
  inversion_clear H as [|? ? _ Ha]. inversion_clear Ha as [|? ? _ Hb].
  inversion_clear Hb as [|? ? Hc _].
  destruct Hc as (z & Hz & Hpos). injection Hz as Hz. lia.
Qed.

(** ** The order of numbers *)

Lemma lt_Num_true : forall x y, lt (Num x) (Num y) = true <-> (x < y)%Q.
Proof.
  intros x y. cbn [lt]. rewrite Qlt_alt.
  destruct (Qcompare x y); split; congruence.
Qed.

Lemma lt_Num_false : forall x y, lt (Num x) (Num y) = false <-> (y <= x)%Q.
Proof.
  intros x y. rewrite <- not_true_iff_false, lt_Num_true. split.
  - apply Qnot_lt_le.
  - intros H1 H2. exact (Qlt_not_le _ _ H2 H1).
Qed.

Lemma le_total : forall a b,
  a <> NaN -> b <> NaN -> lt a b = false \/ lt b a = false.
Proof.
  intros [|s|x] [|t|y] Ha Hb; try congruence; cbn [lt].
  - destruct s, t; auto.
  - destruct s; auto.
  - destruct t; auto.
  - fold (lt (Num x) (Num y)). fold (lt (Num y) (Num x)).
    rewrite !lt_Num_false. destruct (Qlt_le_dec x y) as [H|H]; [right|left]; auto.
    now apply Qlt_le_weak.
Qed.

Lemma le_trans : forall a b c,
  a <> NaN -> b <> NaN -> c <> NaN ->
  lt b a = false -> lt c b = false -> lt c a = false.
Proof.
  intros [|s|x] [|t|y] [|u|z] Ha Hb Hc; try congruence; cbn [lt];
    try (destruct s); try (destruct t); try (destruct u); cbn; try congruence.
  fold (lt (Num y) (Num x)). fold (lt (Num z) (Num y)). fold (lt (Num z) (Num x)).
  rewrite !lt_Num_false. intros H1 H2. exact (Qle_trans _ _ _ H1 H2).
Qed.

(** The sign of a difference: [a - b > 0] is [b < a]. *)
Lemma sub_positive : forall a b,
  a <> NaN -> b <> NaN -> lt (of_Z 0) (sub a b) = lt b a.
Proof.
  intros [|s|x] [|t|y] Ha Hb; try congruence; cbn [sub].
  - destruct s, t; reflexivity.
  - destruct s; reflexivity.
  - destruct t; reflexivity.
  - unfold of_Z. destruct (lt (Num y) (Num x)) eqn:E.
    + apply lt_Num_true in E. apply lt_Num_true. rewrite Qred_correct.
      apply Qlt_minus_iff in E. exact E.
    + apply lt_Num_false in E. apply lt_Num_false. rewrite Qred_correct.
      apply Qle_minus_iff in E. setoid_replace (x - y)%Q with (- (y + - x))%Q by ring.
      change (inject_Z 0) with (- 0)%Q. now apply Qopp_le_compat.
Qed.

(** ** Sorting with a consistent comparator *)

Section SortFacts.
Context {A : Type} (comparefn : A -> A -> number) (P : A -> Prop).

Hypothesis total : forall x y,
  P x -> P y -> precedes comparefn x y \/ precedes comparefn y x.
Hypothesis transitive : forall x y z,
  P x -> P y -> P z ->
  precedes comparefn x y -> precedes comparefn y z -> precedes comparefn x z.

Lemma insert_permutation : forall x l, Permutation (insert comparefn x l) (x :: l).
Proof.
  intros x l. induction l as [|y r IH]; cbn [insert]; [reflexivity|].
  destruct (after comparefn x y); [|reflexivity].
  rewrite IH. apply perm_swap.
Qed.

Lemma sort_permutation : forall l, Permutation (sort comparefn l) l.
Proof.
  induction l as [|x r IH]; cbn [sort]; [reflexivity|].
  rewrite insert_permutation. now constructor.
Qed.

Lemma insert_sorted : forall x l,
  P x -> Forall P l -> StronglySorted (precedes comparefn) l ->
  StronglySorted (precedes comparefn) (insert comparefn x l).
Proof.
  intros x l Hx. induction l as [|y r IH]; intros Hl Hs; cbn [insert].
  - constructor; constructor.
  - inversion_clear Hl as [|? ? Hy Hr]. inversion_clear Hs as [|? ? Hsr Hyr].
    destruct (after comparefn x y) eqn:E.
    + constructor; [now apply IH|].
      rewrite insert_permutation. constructor; [|exact Hyr].
      destruct (total x y Hx Hy) as [H|H]; [unfold precedes in H; congruence|exact H].
    + constructor; [now constructor|]. constructor; [exact E|].
      rewrite Forall_forall in *. intros z Hz.
      apply (transitive x y z Hx Hy (Hr z Hz) E (Hyr z Hz)).
Qed.

Lemma sort_sorted : forall l,
  Forall P l -> StronglySorted (precedes comparefn) (sort comparefn l).
Proof.
  induction l as [|x r IH]; intros Hl; cbn [sort]; [constructor|].
  inversion_clear Hl as [|? ? Hx Hr].
  apply insert_sorted; [exact Hx| |now apply IH].
  now rewrite sort_permutation.
Qed.
End SortFacts.


Lemma firstn_incl : forall (A : Type) n (l : list A) x, In x (firstn n l) -> In x l.
Proof.
  intros A n l x H. rewrite <- (firstn_skipn n l). apply in_or_app. now left.
Qed.

Lemma firstn_sorted : forall (A : Type) (R : A -> A -> Prop) n l,
  StronglySorted R l -> StronglySorted R (firstn n l).
Proof.
  intros A R n. induction n as [|n IH]; intros l Hs; [constructor|].
  destruct l as [|x r]; [constructor|]. cbn [firstn].
  inversion_clear Hs as [|? ? Hr Hx]. constructor; [now apply IH|].
  rewrite Forall_forall in *. intros y Hy. apply Hx. now apply firstn_incl in Hy.
Qed.

Lemma slice0_sorted : forall (A : Type) (R : A -> A -> Prop) limit l,
  StronglySorted R l -> StronglySorted R (slice0 limit l).
Proof.
  intros A R limit l Hs. unfold slice0.
  destruct (limit <? 0)%Z; now apply firstn_sorted.
Qed.

Lemma slice0_incl : forall (A : Type) limit (l : list A) x, In x (slice0 limit l) -> In x l.
Proof.
  intros A limit l x. unfold slice0. destruct (limit <? 0)%Z; apply firstn_incl.
Qed.

(** A sorted list stays sorted for any relation the first one implies on
    its elements. *)
Lemma sorted_weaken : forall (A : Type) (P : A -> Prop) (R R' : A -> A -> Prop) l,
  Forall P l ->
  (forall x y, P x -> P y -> R x y -> R' x y) ->
  StronglySorted R l -> StronglySorted R' l.
Proof.
  intros A P R R' l Hl Himp Hs. induction Hs as [|x r Hr IH Hx]; [constructor|].
  inversion_clear Hl as [|? ? Px Pr]. constructor; [now apply IH|].
  rewrite Forall_forall in *. intros y Hy. apply Himp; auto.
Qed.

(** Sorting by a numeric key that is never [NaN], larger keys first. *)
Lemma sort_descending : forall (A : Type) (P : A -> Prop) (key : A -> number)
    (comparefn : A -> A -> number) l,
  (forall x, P x -> key x <> NaN) ->
  (forall a b, P a -> P b -> comparefn a b = sub (key b) (key a)) ->
  Forall P l ->
  StronglySorted (fun a b => num_le (key b) (key a)) (sort comparefn l).
Proof.
  intros A P key comparefn l Hkey Hcmp Hl.
  assert (Hp : forall a b, P a -> P b ->
               precedes comparefn a b <-> lt (key a) (key b) = false).
  { intros a b Pa Pb. unfold precedes, after. rewrite Hcmp by assumption.
    rewrite sub_positive by auto. tauto. }
  apply (sorted_weaken A P (precedes comparefn)).
  - now rewrite sort_permutation.
  - intros a b Pa Pb H. apply Hp in H; auto. unfold num_le. auto.
  - apply (sort_sorted comparefn P); [| |exact Hl].
    + intros x y Px Py. rewrite !Hp by assumption.
      destruct (le_total (key x) (key y)); auto.
    + intros x y z Px Py Pz. rewrite !Hp by assumption. intros H1 H2.
      apply (le_trans (key z) (key y) (key x)); auto.
Qed.

(** Sorting by a numeric key that is never [NaN], smaller keys first. *)
Lemma sort_ascending : forall (A : Type) (P : A -> Prop) (key : A -> number)
    (comparefn : A -> A -> number) l,
  (forall x, P x -> key x <> NaN) ->
  (forall a b, P a -> P b -> comparefn a b = sub (key a) (key b)) ->
  Forall P l ->
  StronglySorted (fun a b => num_le (key a) (key b)) (sort comparefn l).
Proof.
  intros A P key comparefn l Hkey Hcmp Hl.
  assert (Hp : forall a b, P a -> P b ->
               precedes comparefn a b <-> lt (key b) (key a) = false).
  { intros a b Pa Pb. unfold precedes, after. rewrite Hcmp by assumption.
    rewrite sub_positive by auto. tauto. }
  apply (sorted_weaken A P (precedes comparefn)).
  - now rewrite sort_permutation.
  - intros a b Pa Pb H. apply Hp in H; auto. unfold num_le. auto.
  - apply (sort_sorted comparefn P); [| |exact Hl].
    + intros x y Px Py. rewrite !Hp by assumption.
      destruct (le_total (key x) (key y)); auto.
    + intros x y z Px Py Pz. rewrite !Hp by assumption. intros H1 H2.
      apply (le_trans (key x) (key y) (key z)); auto.
Qed.

(** A list all of whose keys are one number is sorted by that key. *)
Lemma constant_key_sorted : forall (A : Type) (key : A -> number) (v : number) (l : list A),
  v <> NaN -> lt v v = false ->
  Forall (fun x => key x = v) l ->
  StronglySorted (fun a b => num_le (key b) (key a)) l.
Proof.
  intros A key v l Hv Hlt Hl. induction Hl as [|x r Hx Hr IH]; [constructor|].
  constructor; [exact IH|]. rewrite Forall_forall in *. intros y Hy.
  unfold num_le. rewrite Hx, (Hr y Hy). auto.
Qed.

(** ** What the parsers push *)

Lemma collect_Forall : forall (P : process -> Prop) parse lines,
  (forall l p, parse l = Some p -> P p) -> Forall P (collect parse lines).
Proof.
  intros P parse lines H. induction lines as [|l rest IH]; cbn [collect]; [constructor|].
  destruct (parse l) as [p|] eqn:E; [|exact IH]. constructor; [|exact IH]. now apply (H l).
Qed.

Lemma or_else_idempotent : forall x,
  or_else (or_else x (of_Z 0)) (of_Z 0) = or_else x (of_Z 0).
Proof.
  intros x. unfold or_else. destruct (truthy x) eqn:E; [now rewrite E|reflexivity].
Qed.

Lemma or_else_fixed_not_NaN : forall x, or_else x (of_Z 0) = x -> x <> NaN.
Proof. intros x H ->. discriminate. Qed.

Lemma truthy_not_NaN : forall x, truthy x = true -> x <> NaN.
Proof. intros x H ->. discriminate. Qed.

Lemma unix_line_object : forall commandUsed raw p,
  unix_line commandUsed raw = Some p -> unix_object p.
Proof.
  intros commandUsed raw p. unfold unix_line.
  destruct (trim raw) as [|c line]; [discriminate|].
  destruct (includes "aux" commandUsed).
  - unfold aux_process. destruct (11 <=? _)%nat; [|discriminate].
    match goal with |- context [truthy (pid ?r)] => destruct (truthy (pid r)) eqn:E end;
      [|discriminate].
    intros [= <-]. unfold unix_object. cbn [cpu memory pid] in *.
    rewrite !or_else_idempotent. auto.
  - unfold other_process. destruct (6 <=? _)%nat; [|discriminate].
    match goal with |- context [truthy (pid ?r)] => destruct (truthy (pid r)) eqn:E end;
      [|discriminate].
    intros [= <-]. unfold unix_object. cbn [cpu memory pid] in *.
    rewrite !or_else_idempotent. auto.
Qed.

Lemma windows_line_object : forall raw p,
  windows_line raw = Some p -> windows_object p.
Proof.
  intros raw p. unfold windows_line.
  destruct (trim raw) as [|c line]; [discriminate|].
  destruct (5 <=? _)%nat; [|discriminate].
  intros [= <-]. unfold windows_object. cbn [cpu memory].
  rewrite or_else_idempotent. auto.
Qed.

(** ** The pid on the POSIX path *)

Lemma parseInt_string_integer : forall s,
  parseInt_string s = NaN \/ exists z, parseInt_string s = of_Z z.
Proof.
  intros s. unfold parseInt_string.
  destruct (sign_of (trimStart s)) as [neg r].
  assert (H10 : forall r', decimal_integer neg r' = NaN \/
                           exists z, decimal_integer neg r' = of_Z z).
  { intros r'. unfold decimal_integer. destruct (digits_from 0 0 r') as [[v n] rest].
    destruct n; [now left|right; eauto]. }
  assert (H16 : forall h, hex_integer neg h = NaN \/ exists z, hex_integer neg h = of_Z z).
  { intros h. unfold hex_integer. destruct (hex_digits_from 0 0 h) as [v n].
    destruct n; [now left|right; eauto]. }
  destruct r as [|a [|x h]]; try apply H10.
  destruct (Ascii.eqb a "0" && (Ascii.eqb x "x" || Ascii.eqb x "X"))%bool;
    [apply H16|apply H10].
Qed.

Lemma parseInt_integer : forall s, parseInt s = NaN \/ exists z, parseInt s = of_Z z.
Proof. intros [s|]; apply parseInt_string_integer. Qed.

Lemma truthy_integer : forall n,
  (n = NaN \/ exists z, n = of_Z z) -> truthy n = true ->
  exists z, n = of_Z z /\ z <> 0%Z.
Proof.
  intros n [->|(z & ->)] H; [discriminate|]. exists z. split; [reflexivity|].
  intros ->. discriminate.
Qed.

Lemma unix_line_pid : forall commandUsed raw p,
  unix_line commandUsed raw = Some p -> exists z, pid p = of_Z z /\ z <> 0%Z.
Proof.
  intros commandUsed raw p H.
  assert (Ht : truthy (pid p) = true) by (now destruct (unix_line_object _ _ _ H) as (_ & _ & ?)).
  apply truthy_integer; [|exact Ht]. revert H. unfold unix_line.
  destruct (trim raw) as [|c line]; [discriminate|].
  destruct (includes "aux" commandUsed).
  - unfold aux_process. destruct (11 <=? _)%nat; [|discriminate].
    match goal with |- context [truthy (pid ?r)] => destruct (truthy (pid r)) end;
      [|discriminate].
    intros [= <-]. apply parseInt_integer.
  - unfold other_process. destruct (6 <=? _)%nat; [|discriminate].
    match goal with |- context [truthy (pid ?r)] => destruct (truthy (pid r)) end;
      [|discriminate].
    intros [= <-]. apply parseInt_integer.
Qed.

(** On the POSIX path the [pid] of every record of a batch is an integer
    other than 0: a line whose PID column gives [NaN] or 0 leaves no
    record. *)
Lemma unix_batch_pids : forall localeCompare stdout limit sortBy commandUsed,
  Forall (fun p => exists z, pid p = of_Z z /\ z <> 0%Z)
    (parseUnixProcesses localeCompare stdout limit sortBy commandUsed).
Proof.
  intros localeCompare stdout limit sortBy commandUsed. apply Forall_forall. intros p Hp.
  unfold parseUnixProcesses in Hp. apply slice0_incl in Hp.
  apply (Permutation_in _ (sort_permutation _ _)) in Hp.
  pose proof (collect_Forall _ (unix_line commandUsed) (body_lines stdout)
                (unix_line_pid commandUsed)) as H.
  rewrite Forall_forall in H. now apply H.
Qed.

(** Filtering such a batch again by its [pid] changes nothing. *)
Lemma unix_refilter_fixed_point : forall localeCompare stdout limit sortBy commandUsed,
  filter (fun p => truthy (pid p))
    (parseUnixProcesses localeCompare stdout limit sortBy commandUsed) =
  parseUnixProcesses localeCompare stdout limit sortBy commandUsed.
Proof.
  intros localeCompare stdout limit sortBy commandUsed.
  pose proof (unix_batch_pids localeCompare stdout limit sortBy commandUsed) as H.
  induction H as [|p l (z & Hz & Hne) Hl IH]; [reflexivity|].
  cbn [filter]. rewrite IH, Hz.
  destruct z; [congruence|reflexivity|reflexivity].
Qed.

(** A negative number in the PID column is truthy and passes. *)
Lemma unix_negative_pid_is_kept : forall localeCompare,
  map (fun p => (pid p, name p))
    (parseUnixProcesses localeCompare ps_aux_negative 20 "cpu" "ps aux") =
  [(of_Z (-7), "ghost")].
Proof. reflexivity. Qed.

(** ** The order of a batch *)

Lemma str_or_else_empty : forall s, str_or_else s "" = s.
Proof. now intros [|c s]. Qed.

Section Collation.
Variable localeCompare : string -> string -> number.

(** The collation is a consistent comparator: of two strings one does not
    come after the other, and not coming after is transitive. *)
Hypothesis collation_total : forall a b,
  lt (of_Z 0) (localeCompare a b) = false \/ lt (of_Z 0) (localeCompare b a) = false.
Hypothesis collation_transitive : forall a b c,
  lt (of_Z 0) (localeCompare a b) = false ->
  lt (of_Z 0) (localeCompare b c) = false ->
  lt (of_Z 0) (localeCompare a c) = false.

Lemma sort_by_name : forall (comparefn : process -> process -> number) l,
  (forall a b, comparefn a b = localeCompare (name a) (name b)) ->
  StronglySorted (fun a b => lt (of_Z 0) (localeCompare (name a) (name b)) = false)
    (sort comparefn l).
Proof.
  intros comparefn l Hcmp.
  assert (Hp : forall a b, precedes comparefn a b <->
                           lt (of_Z 0) (localeCompare (name a) (name b)) = false).
  { intros a b. unfold precedes, after. now rewrite Hcmp. }
  apply (sorted_weaken _ (fun _ => True) (precedes comparefn)).
  - apply Forall_forall. auto.
  - intros a b _ _ H. now apply Hp.
  - apply (sort_sorted comparefn (fun _ => True)).
    + intros x y _ _. rewrite !Hp. apply collation_total.
    + intros x y z _ _ _. rewrite !Hp. apply collation_transitive.
    + apply Forall_forall. auto.
Qed.

Lemma unix_sorted : forall sortBy l,
  Forall unix_object l ->
  StronglySorted (in_order localeCompare sortBy) (sort (unix_compare localeCompare sortBy) l).
Proof.
  intros sortBy l Hl. unfold in_order, unix_compare.
  destruct (String.eqb sortBy "memory");
    [|destruct (String.eqb sortBy "name"); [|destruct (String.eqb sortBy "pid")]].
  - apply (sort_descending _ unix_object memory); [| |exact Hl].
    + intros x (_ & H & _). now apply or_else_fixed_not_NaN.
    + intros a b (_ & Ha & _) (_ & Hb & _). now rewrite Ha, Hb.
  - apply sort_by_name. intros a b. now rewrite !str_or_else_empty.
  - apply (sort_ascending _ unix_object pid); [| |exact Hl].
    + intros x (_ & _ & H). now apply truthy_not_NaN.
    + reflexivity.
  - apply (sort_descending _ unix_object cpu); [| |exact Hl].
    + intros x (H & _). now apply or_else_fixed_not_NaN.
    + intros a b (Ha & _) (Hb & _). now rewrite Ha, Hb.
Qed.

Lemma windows_sorted : forall sortBy l,
  Forall windows_object l ->
  (sortBy = "pid" -> Forall (fun p => pid p <> NaN) l) ->
  StronglySorted (in_order localeCompare sortBy)
    (sort (windows_compare localeCompare sortBy) l).
Proof.
  intros sortBy l Hl Hpid. unfold in_order, windows_compare.
  destruct (String.eqb sortBy "memory");
    [|destruct (String.eqb sortBy "name"); [|destruct (String.eqb sortBy "pid") eqn:E]].
  - apply (sort_descending _ windows_object memory); [| |exact Hl].
    + intros x (_ & H). now apply or_else_fixed_not_NaN.
    + reflexivity.
  - apply sort_by_name. reflexivity.
  - apply String.eqb_eq in E.
    apply (sort_ascending _ (fun p => pid p <> NaN) pid); auto.
  - apply (constant_key_sorted _ cpu (of_Z 0)); [discriminate|reflexivity|].
    rewrite sort_permutation. apply Forall_forall. intros x Hx.
    rewrite Forall_forall in Hl. now destruct (Hl x Hx).
Qed.

(** X28. Whatever the listing, the limit and the key, the batch returned
    is the leading part of a rearrangement of all the objects the parser
    pushed, and that rearrangement, hence the batch, is ordered as the key
    asks: [memory] descending, [name] ascending in the collation, [pid]
    ascending, and [cpu] descending for [cpu] and any other key.  This
    holds of every listing on the POSIX path.  On the Windows path it
    holds for the key [pid] of the listings in which every line has a
    number as its pid; for the keys other than [name] and [pid] the batch
    is in descending order of [memory], and the [cpu] order holds because
    every [cpu] is 0 there. *)
Theorem batches_are_ordered_by_the_key :
  (forall stdout limit sortBy commandUsed,
     exists sorted,
       Permutation sorted (collect (unix_line commandUsed) (body_lines stdout)) /\
       parseUnixProcesses localeCompare stdout limit sortBy commandUsed = slice0 limit sorted /\
       StronglySorted (in_order localeCompare sortBy) sorted /\
       StronglySorted (in_order localeCompare sortBy)
         (parseUnixProcesses localeCompare stdout limit sortBy commandUsed)) /\
  (forall stdout limit sortBy,
     (sortBy = "pid" ->
      Forall (fun p => pid p <> NaN) (collect windows_line (body_lines stdout))) ->
     exists sorted,
       Permutation sorted (collect windows_line (body_lines stdout)) /\
       parseWindowsProcesses localeCompare stdout limit sortBy = slice0 limit sorted /\
       StronglySorted (in_order localeCompare sortBy) sorted /\
       StronglySorted (in_order localeCompare sortBy)
         (parseWindowsProcesses localeCompare stdout limit sortBy)) /\
  (forall stdout limit sortBy,
     sortBy <> "name" -> sortBy <> "pid" ->
     StronglySorted (fun a b => num_le (memory b) (memory a))
       (parseWindowsProcesses localeCompare stdout limit sortBy)).
Proof.
  split; [|split].
  - intros stdout limit sortBy commandUsed.
    assert (Hs : StronglySorted (in_order localeCompare sortBy)
                   (sort (unix_compare localeCompare sortBy)
                      (collect (unix_line commandUsed) (body_lines stdout)))).
    { apply unix_sorted. apply collect_Forall. apply unix_line_object. }
    eexists. split; [apply sort_permutation|]. split; [reflexivity|].
    split; [exact Hs|]. unfold parseUnixProcesses. now apply slice0_sorted.
  - intros stdout limit sortBy Hpid.
    assert (Hs : StronglySorted (in_order localeCompare sortBy)
                   (sort (windows_compare localeCompare sortBy)
                      (collect windows_line (body_lines stdout)))).
    { apply windows_sorted; [|exact Hpid]. apply collect_Forall. apply windows_line_object. }
    eexists. split; [apply sort_permutation|]. split; [reflexivity|].
    split; [exact Hs|]. unfold parseWindowsProcesses. now apply slice0_sorted.
  - intros stdout limit sortBy Hname Hpid. unfold parseWindowsProcesses.
    apply slice0_sorted.
    apply (sort_descending _ windows_object memory).
    + intros x (_ & H). now apply or_else_fixed_not_NaN.
    + intros a b _ _. unfold windows_compare.
      apply String.eqb_neq in Hname, Hpid. rewrite Hname, Hpid.
      now destruct (String.eqb sortBy "memory").
    + apply collect_Forall. apply windows_line_object.
Qed.
End Collation.

(** The order of the code units is a consistent comparator. *)
Lemma code_unit_compare_positive : forall a b,
  lt (of_Z 0) (code_unit_compare a b) = false <-> String.compare a b <> Gt.
Proof.
  intros a b. unfold code_unit_compare.
  destruct (String.compare a b); cbn; split; congruence.
Qed.

Lemma code_unit_total : forall a b,
  lt (of_Z 0) (code_unit_compare a b) = false \/
  lt (of_Z 0) (code_unit_compare b a) = false.
Proof.
  intros a b. rewrite !code_unit_compare_positive.
  pose proof (String_as_OT.cmp_antisym a b) as H. unfold String_as_OT.cmp in H.
  destruct (String.compare b a); [right|right|left]; cbn in H; congruence.
Qed.

Lemma code_unit_transitive : forall a b c,
  lt (of_Z 0) (code_unit_compare a b) = false ->
  lt (of_Z 0) (code_unit_compare b c) = false ->
  lt (of_Z 0) (code_unit_compare a c) = false.
Proof.
  intros a b c. rewrite !code_unit_compare_positive. intros H1 H2.
  destruct (String.compare a b) eqn:E1; [| |congruence].
  - apply String_as_OT.cmp_eq in E1. now subst.
  - destruct (String.compare b c) eqn:E2; [| |congruence].
    + apply String_as_OT.cmp_eq in E2. subst. congruence.
    + apply String_as_OT.cmp_lt in E1, E2.
      pose proof (String_as_OT.lt_trans _ _ _ E1 E2) as H.
      apply String_as_OT.cmp_lt in H. unfold String_as_OT.cmp in H. congruence.
Qed.

Lemma batches_are_ordered_witness :
  map (fun p => (pid p, name p)) (parseUnixProcesses code_unit_compare ps_aux_output 2 "cpu" "ps aux")
    = [(of_Z 2210, "node"); (of_Z 2301, "chrome")] /\
  StronglySorted (in_order code_unit_compare "cpu")
    (parseUnixProcesses code_unit_compare ps_aux_output 2 "cpu" "ps aux") /\
  map (fun p => (pid p, name p)) (parseWindowsProcesses code_unit_compare tasklist_output 10 "pid")
    = [(of_Z 0, "System Idle Process"); (of_Z 4, "System"); (of_Z 1234, "chrome.exe")] /\
  StronglySorted (in_order code_unit_compare "pid")
    (parseWindowsProcesses code_unit_compare tasklist_output 10 "pid") /\
  StronglySorted (fun a b => num_le (memory b) (memory a))
    (parseWindowsProcesses code_unit_compare tasklist_output 10 "cpu").
Proof.
  destruct (batches_are_ordered_by_the_key code_unit_compare code_unit_total
              code_unit_transitive) as (Hunix & Hwindows & Hmemory).
  split; [reflexivity|]. split.
  - destruct (Hunix ps_aux_output 2%Z "cpu" "ps aux") as (sorted & _ & _ & _ & H). exact H.
  - split; [reflexivity|]. split.
    + assert (Hpid : "pid" = "pid" ->
                     Forall (fun p => pid p <> NaN)
                       (collect windows_line (body_lines tasklist_output))).
      { intros _. vm_compute. repeat constructor; discriminate. }
      destruct (Hwindows tasklist_output 10%Z "pid" Hpid) as (sorted & _ & _ & _ & H). exact H.
    + apply Hmemory; discriminate.
Defined.

(** ** A pid that is no number *)

(** A batch of two records or more that is in the order of [pid] holds
    no record whose pid is [NaN]. *)
Lemma pid_order_has_numbers : forall localeCompare l,
  StronglySorted (in_order localeCompare "pid") l ->
  (2 <= List.length l)%nat ->
  Forall (fun p => pid p <> NaN) l.
Proof.
  intros localeCompare l Hs. induction Hs as [|x r Hr IH Hx]; intros Hl; [constructor|].
  destruct r as [|y r]; [cbn in Hl; lia|].
  assert (Hrest : Forall (fun p => pid p <> NaN) (y :: r)).
  { apply Forall_forall. intros z Hz. rewrite Forall_forall in Hx.
    specialize (Hx z Hz). cbv beta delta [in_order] in Hx. cbn in Hx.
    now destruct Hx as (_ & H & _). }
  constructor; [|exact Hrest].
  inversion_clear Hx as [|? ? Hy _]. cbv beta delta [in_order] in Hy. cbn in Hy.
  now destruct Hy as (H & _).
Qed.

End ProcessesFacts.

(* ================================================================== *)
(** * Reading decimal numerals                                         *)
(* ================================================================== *)

Module ParsingFacts.
Import JS Numbers.
Local Open Scope string_scope.
Local Open Scope Z_scope.

Lemma prefix_app : forall p s, prefix p (p ++ s) = true.
Proof.
  induction p as [|c p IH]; intros s; cbn; [now destruct s|].
  destruct (ascii_dec c c); [apply IH|congruence].
Qed.

Lemma append_empty : forall s : string, s ++ "" = s.
Proof. induction s as [|c s IH]; cbn [append]; [reflexivity|]. now rewrite IH. Qed.

Lemma is_digit_not_space : forall c, is_digit c = true -> is_space c = false.
Proof.
  intros [[] [] [] [] [] [] [] []] H; try discriminate H; reflexivity.
Qed.

Lemma is_digit_no_sign : forall c r, is_digit c = true -> sign_of (String c r) = (false, String c r).
Proof.
  intros [[] [] [] [] [] [] [] []] r H; try discriminate H; reflexivity.
Qed.

Lemma is_digit_not_x : forall c,
  is_digit c = true -> (Ascii.eqb c "x" || Ascii.eqb c "X")%bool = false.
Proof.
  intros [[] [] [] [] [] [] [] []] H; try discriminate H; reflexivity.
Qed.

Lemma digit_value_range : forall c, is_digit c = true -> 0 <= digit_value c <= 9.
Proof.
  intros c H. unfold is_digit in H. apply andb_true_iff in H. destruct H as [H1 H2].
  apply N.leb_le in H1, H2. unfold digit_value. lia.
Qed.

(** The count of the digits read only grows, and their value is not
    negative. *)
Lemma digits_from_count : forall s acc n v n' rest,
  digits_from acc n s = (v, n', rest) -> (n <= n')%nat.
Proof.
  induction s as [|c s IH]; intros acc n v n' rest H; cbn [digits_from] in H.
  - inversion H; subst. apply Nat.le_refl.
  - destruct (is_digit c).
    + apply IH in H. apply Nat.le_trans with (S n); auto.
    + inversion H; subst. apply Nat.le_refl.
Qed.

Lemma digits_from_bounds : forall s acc n v n' rest,
  digits_from acc n s = (v, n', rest) -> 0 <= acc -> 0 <= v.
Proof.
  induction s as [|c s IH]; intros acc n v n' rest H Hacc; cbn [digits_from] in H.
  - inversion H; subst. assumption.
  - destruct (is_digit c) eqn:Ec.
    + apply IH in H; [exact H|].
      pose proof (digit_value_range c Ec). lia.
    + inversion H; subst. assumption.
Qed.

(** A string of digits is read to its end. *)
Lemma digits_from_all : forall s acc n,
  all_digits s = true ->
  exists v, digits_from acc n s = (v, (n + String.length s)%nat, EmptyString).
Proof.
  induction s as [|c s IH]; intros acc n H; cbn [digits_from String.length].
  - exists acc. now rewrite Nat.add_0_r.
  - cbn [all_digits] in H. apply andb_true_iff in H. destruct H as [Hc Hs].
    rewrite Hc. destruct (IH (10 * acc + digit_value c) (S n) Hs) as [v Hv].
    exists v. rewrite Hv. now rewrite Nat.add_succ_r.
Qed.

(** A string of digits read in radix 10, with either sign. *)
Lemma decimal_integer_digits : forall negative s,
  all_digits s = true -> s <> EmptyString ->
  decimal_integer negative s = of_Z (signed negative (digits_value s)).
Proof.
  intros negative s H Hne. unfold decimal_integer, digits_value.
  destruct (digits_from_all s 0 0%nat H) as [v Hv]. rewrite Hv.
  destruct s as [|c r]; [congruence|]. reflexivity.
Qed.

(** Digits do not start a [0x] literal. *)
Lemma digits_are_decimal : forall negative s,
  all_digits s = true ->
  match s with
  | String z (String x h) =>
      if (Ascii.eqb z "0" && (Ascii.eqb x "x" || Ascii.eqb x "X"))%bool
      then hex_integer negative h
      else decimal_integer negative s
  | _ => decimal_integer negative s
  end = decimal_integer negative s.
Proof.
  intros negative [|c [|x h]] H; try reflexivity.
  cbn [all_digits] in H. apply andb_true_iff in H. destruct H as [_ H].
  apply andb_true_iff in H. destruct H as [Hx _].
  now rewrite (is_digit_not_x x Hx), andb_false_r.
Qed.

(** [parseInt] of a string of digits is its value, which is not negative. *)
Lemma parseInt_string_digits : forall s,
  all_digits s = true -> s <> EmptyString ->
  parseInt_string s = of_Z (digits_value s) /\ 0 <= digits_value s.
Proof.
  intros s H Hne. split.
  - assert (Hd : decimal_integer false s = of_Z (digits_value s))
      by exact (decimal_integer_digits false s H Hne).
    rewrite <- Hd. clear Hd.
    destruct s as [|c r]; [congruence|].
    pose proof H as H'. cbn [all_digits] in H'. apply andb_true_iff in H'.
    destruct H' as [Hc Hr].
    unfold parseInt_string. cbn [trimStart]. rewrite (is_digit_not_space c Hc).
    rewrite (is_digit_no_sign c r Hc). exact (digits_are_decimal false (String c r) H).
  - unfold digits_value. destruct (digits_from 0 0 s) as [[v n] rest] eqn:E.
    cbn [fst]. apply (digits_from_bounds _ _ _ _ _ _ E). lia.
Qed.

(** [parseInt] of a minus sign and digits. *)
Lemma parseInt_string_minus_digits : forall s,
  all_digits s = true -> s <> EmptyString ->
  parseInt_string (String "-" s) = of_Z (- digits_value s).
Proof.
  intros s H Hne.
  assert (Hd : decimal_integer true s = of_Z (- digits_value s))
    by exact (decimal_integer_digits true s H Hne).
  rewrite <- Hd. clear Hd.
  unfold parseInt_string. cbn [trimStart is_space code]. cbn [sign_of].
  change (sign_of (String "-" s)) with (true, s). exact (digits_are_decimal true s H).
Qed.

(** The digits [digits_from] counts are digits. *)
Lemma digits_from_prefix : forall s acc n v n' rest,
  digits_from acc n s = (v, n', rest) ->
  all_digits (substring 0 (n' - n) s) = true /\
  digits_from acc n (substring 0 (n' - n) s) = (v, n', EmptyString).
Proof.
  induction s as [|c s IH]; intros acc n v n' rest H; cbn [digits_from] in H.
  - inversion H; subst. rewrite Nat.sub_diag. now split.
  - destruct (is_digit c) eqn:Ec.
    + pose proof (digits_from_count _ _ _ _ _ _ H) as Hn.
      replace (n' - n)%nat with (S (n' - S n)) by lia.
      cbn [substring all_digits digits_from]. rewrite Ec. cbn [andb].
      apply (IH _ _ _ _ rest). exact H.
    + inversion H; subst. rewrite Nat.sub_diag. destruct s; now split.
Qed.

(** Digits followed by something else. *)
Lemma digits_from_app : forall d acc n s,
  all_digits d = true ->
  digits_from acc n (d ++ s) =
  digits_from (fst (fst (digits_from acc n d))) (n + String.length d)%nat s.
Proof.
  induction d as [|c d IH]; intros acc n s H; cbn [append String.length digits_from].
  - now rewrite Nat.add_0_r.
  - cbn [all_digits] in H. apply andb_true_iff in H. destruct H as [Hc Hd].
    rewrite Hc, (IH _ _ _ Hd), Nat.add_succ_r. reflexivity.
Qed.

(** [parseInt] stops at the first code unit that is no digit. *)
Lemma parseInt_string_digits_then : forall d c r,
  all_digits d = true -> d <> EmptyString ->
  is_digit c = false -> (Ascii.eqb c "x" || Ascii.eqb c "X")%bool = false ->
  parseInt_string (d ++ String c r) = of_Z (digits_value d).
Proof.
  intros d c r Hd Hne Hc Hx.
  assert (Hdec : decimal_integer false (d ++ String c r) = of_Z (digits_value d)).
  { unfold decimal_integer, digits_value. rewrite (digits_from_app d 0 0%nat _ Hd).
    cbn [digits_from]. rewrite Hc.
    destruct d as [|a d]; [congruence|]. reflexivity. }
  rewrite <- Hdec. destruct d as [|a d]; [congruence|].
  cbn [all_digits] in Hd. apply andb_true_iff in Hd. destruct Hd as [Ha Hd].
  unfold parseInt_string. cbn [append trimStart]. rewrite (is_digit_not_space a Ha).
  rewrite (is_digit_no_sign a _ Ha).
  destruct d as [|b d]; cbn [append].
  - now rewrite Hx, andb_false_r.
  - cbn [all_digits] in Hd. apply andb_true_iff in Hd. destruct Hd as [Hb _].
    now rewrite (is_digit_not_x b Hb), andb_false_r.
Qed.

(** ** Writing decimal numerals and reading them back *)

Lemma string_of_uint_digits : forall d,
  all_digits (DecimalString.NilEmpty.string_of_uint d) = true.
Proof. induction d; cbn; auto. Qed.

Lemma read_uint_acc : forall d acc n,
  digits_from (Z.pos acc) n (DecimalString.NilEmpty.string_of_uint d) =
  (Z.pos (Pos.of_uint_acc d acc), (n + Decimal.nb_digits d)%nat, EmptyString).
Proof.
  induction d; intros acc n; cbn [DecimalString.NilEmpty.string_of_uint digits_from
                                  Pos.of_uint_acc Decimal.nb_digits];
    [now rewrite Nat.add_0_r| ..];
    (change (is_digit _) with true; cbv iota;
     match goal with
     | |- digits_from ?a _ _ = (Z.pos (Pos.of_uint_acc _ ?b), _, _) =>
         replace a with (Z.pos b)
           by (match goal with
               | |- context [digit_value ?c] =>
                   let v := eval vm_compute in (digit_value c) in
                   change (digit_value c) with v
               end; lia)
     end;
     rewrite IHd, Nat.add_succ_r; reflexivity).
Qed.

Lemma read_uint : forall d n,
  digits_from 0 n (DecimalString.NilEmpty.string_of_uint d) =
  (Z.of_N (Pos.of_uint d), (n + Decimal.nb_digits d)%nat, EmptyString).
Proof.
  induction d; intros n; cbn [DecimalString.NilEmpty.string_of_uint digits_from
                              Pos.of_uint Decimal.nb_digits];
    [now rewrite Nat.add_0_r| ..];
    change (is_digit _) with true; cbv iota.
  - change (10 * 0 + digit_value "0") with 0. now rewrite IHd, Nat.add_succ_r.
  - change (10 * 0 + digit_value "1") with (Z.pos 1). now rewrite read_uint_acc, Nat.add_succ_r.
  - change (10 * 0 + digit_value "2") with (Z.pos 2). now rewrite read_uint_acc, Nat.add_succ_r.
  - change (10 * 0 + digit_value "3") with (Z.pos 3). now rewrite read_uint_acc, Nat.add_succ_r.
  - change (10 * 0 + digit_value "4") with (Z.pos 4). now rewrite read_uint_acc, Nat.add_succ_r.
  - change (10 * 0 + digit_value "5") with (Z.pos 5). now rewrite read_uint_acc, Nat.add_succ_r.
  - change (10 * 0 + digit_value "6") with (Z.pos 6). now rewrite read_uint_acc, Nat.add_succ_r.
  - change (10 * 0 + digit_value "7") with (Z.pos 7). now rewrite read_uint_acc, Nat.add_succ_r.
  - change (10 * 0 + digit_value "8") with (Z.pos 8). now rewrite read_uint_acc, Nat.add_succ_r.
  - change (10 * 0 + digit_value "9") with (Z.pos 9). now rewrite read_uint_acc, Nat.add_succ_r.
Qed.

(** The numeral of a positive integer: digits, and their value is the
    integer. *)
Lemma positive_text : forall p,
  integer_text (Z.pos p) = DecimalString.NilEmpty.string_of_uint (Pos.to_uint p) /\
  all_digits (integer_text (Z.pos p)) = true /\
  integer_text (Z.pos p) <> EmptyString /\
  digits_value (integer_text (Z.pos p)) = Z.pos p.
Proof.
  intros p.
  assert (E : integer_text (Z.pos p) =
              DecimalString.NilEmpty.string_of_uint (Pos.to_uint p)).
  { unfold integer_text. cbn [Z.to_int DecimalString.NilZero.string_of_int].
    unfold DecimalString.NilZero.string_of_uint.
    pose proof (DecimalPos.Unsigned.to_uint_nonnil p).
    destruct (Pos.to_uint p); congruence || reflexivity. }
  split; [exact E|]. rewrite E. split; [apply string_of_uint_digits|].
  assert (V : digits_value (DecimalString.NilEmpty.string_of_uint (Pos.to_uint p)) = Z.pos p).
  { unfold digits_value. rewrite read_uint. cbn [fst].
    now rewrite DecimalPos.Unsigned.of_to. }
  split; [|exact V].
  intros H. rewrite H in V. discriminate V.
Qed.

(** Reading the numeral of an integer gives the integer back. *)
Lemma parseInt_string_integer_text : forall z, parseInt_string (integer_text z) = of_Z z.
Proof.
  intros [|p|p].
  - reflexivity.
  - destruct (positive_text p) as (_ & Hd & Hne & Hv).
    rewrite (proj1 (parseInt_string_digits _ Hd Hne)). now rewrite Hv.
  - destruct (positive_text p) as (E & Hd & Hne & Hv).
    assert (En : integer_text (Z.neg p) = String "-" (integer_text (Z.pos p))).
    { rewrite E. unfold integer_text. cbn [Z.to_int DecimalString.NilZero.string_of_int].
      unfold DecimalString.NilZero.string_of_uint.
      pose proof (DecimalPos.Unsigned.to_uint_nonnil p).
      destruct (Pos.to_uint p); congruence || reflexivity. }
    rewrite En, (parseInt_string_minus_digits _ Hd Hne), Hv. reflexivity.
Qed.

Lemma all_digits_and_minus : forall s, all_digits s = true -> digits_and_minus s = true.
Proof.
  induction s as [|c s IH]; [reflexivity|]. cbn [all_digits digits_and_minus].
  intros H. apply andb_true_iff in H. destruct H as [Hc Hs]. now rewrite Hc, IH.
Qed.

(** The numeral of an integer holds digits and at most a minus sign. *)
Lemma integer_text_chars : forall z, digits_and_minus (integer_text z) = true.
Proof.
  intros [|p|p].
  - reflexivity.
  - apply all_digits_and_minus. apply positive_text.
  - destruct (positive_text p) as (E & Hd & _ & _).
    assert (En : integer_text (Z.neg p) = String "-" (integer_text (Z.pos p))).
    { rewrite E. unfold integer_text. cbn [Z.to_int DecimalString.NilZero.string_of_int].
      unfold DecimalString.NilZero.string_of_uint.
      pose proof (DecimalPos.Unsigned.to_uint_nonnil p).
      destruct (Pos.to_uint p); congruence || reflexivity. }
    rewrite En. cbn [digits_and_minus]. now rewrite all_digits_and_minus.
Qed.

Lemma to_integer_of_Z : forall z, to_integer (of_Z z) = Some z.
Proof.
  intros z. unfold to_integer, of_Z. rewrite Qfloor_Z.
  assert (H : Qeq_bool (inject_Z z) (inject_Z z) = true) by (apply Qeq_bool_iff; reflexivity).
  now rewrite H.
Qed.

Lemma toString_integer : forall z,
  safe z = true -> toString (of_Z z) = Some (integer_text z).
Proof.
  intros z H. unfold toString. change (of_Z z) with (Num (inject_Z z)) at 1.
  cbv iota. fold (of_Z z). now rewrite to_integer_of_Z, H.
Qed.

End ParsingFacts.

(* ================================================================== *)
(** * Further properties of the broadcast scheduler                    *)
(* ================================================================== *)

Module SchedulerFacts.
Import JS Monitor Scheduler MonitorFacts.
Local Open Scope string_scope.
Local Open Scope list_scope.

(** ** The invariant *)

Lemma Set_add_NoDup : forall w s, NoDup s -> NoDup (Set_add w s).
Proof.
  intros w s H. unfold Set_add. destruct (existsb (Nat.eqb w) s) eqn:E; [exact H|].
  apply NoDup_app; [exact H|repeat constructor; intros []|].
  intros x Hx [<-|[]].
  assert (Hex : existsb (Nat.eqb w) s = true).
  { apply existsb_exists. exists w. split; [exact Hx|apply Nat.eqb_refl]. }
  congruence.
Qed.

Lemma Set_delete_NoDup : forall w s, NoDup s -> NoDup (Set_delete w s).
Proof. intros w s H. now apply NoDup_filter. Qed.

Lemma push_NoDup : forall d w st,
  NoDup (connectedClients st) -> NoDup (connectedClients (fst (push d w st))).
Proof.
  intros d w st H. unfold push.
  destruct (Z.eqb (readyState (sockets st w)) OPEN); [|exact H].
  destruct (send_throws (sockets st w)); [|exact H].
  now apply Set_delete_NoDup.
Qed.

Lemma forEach_NoDup : forall d l st,
  NoDup (connectedClients st) -> NoDup (connectedClients (fst (forEach d l st))).
Proof.
  intros d l. induction l as [|w l IH]; intros st H; cbn [forEach]; [exact H|].
  pose proof (push_NoDup d w st H) as H1.
  destruct (push d w st) as [st1 e1]. cbn [fst] in H1.
  specialize (IH st1 H1). destruct (forEach d l st1) as [st2 e2]. exact IH.
Qed.

Lemma remove_nth_Forall : forall (A : Type) (P : A -> Prop) k l,
  Forall P l -> Forall P (remove_nth k l).
Proof.
  intros A P k l H. revert k. induction H as [|x l Hx Hl IH]; intros k.
  - destruct k; constructor.
  - destruct k; cbn [remove_nth]; [exact Hl|]. constructor; auto.
Qed.

(** The four things [handleClientMessage] does. *)
Lemma handleClientMessage_cases : forall members w st,
  handleClientMessage members w st =
    (set_subscribed st w true, [Console "Client subscribed to real-time updates"]) \/
  handleClientMessage members w st =
    (set_subscribed st w false, [Console "Client unsubscribed from real-time updates"]) \/
  handleClientMessage members w st = sendSystemUpdate_call w st \/
  handleClientMessage members w st = (st, [Console "Unknown message type:"]).
Proof.
  intros members w st. unfold handleClientMessage.
  destruct (member "type" members) as [[| | |s| |]|]; try (now right; right; right).
  destruct (String.eqb s "subscribe") eqn:E1;
    [apply String.eqb_eq in E1; subst; now left|].
  destruct (String.eqb s "unsubscribe") eqn:E2;
    [apply String.eqb_eq in E2; subst; now right; left|].
  destruct (String.eqb s "requestUpdate") eqn:E3;
    [apply String.eqb_eq in E3; subst; now right; right; left|].
  right; right; right.
  assert (H : forall A (a b c d : A),
            match s with
            | "subscribe" => a | "unsubscribe" => b | "requestUpdate" => c | _ => d
            end = d).
  { intros A a b c d.
    apply String.eqb_neq in E1, E2, E3.
    repeat (match goal with
            | |- context [match ?x with EmptyString => _ | String _ _ => _ end] => destruct x
            | |- context [match ?x with Ascii _ _ _ _ _ _ _ _ => _ end] => destruct x
            | |- context [if ?b then _ else _] => destruct b
            end; try reflexivity; try congruence). }
  apply H.
Qed.

Lemma handleClientMessage_sound : forall members w st,
  sound st -> sound (fst (handleClientMessage members w st)).
Proof.
  intros members w st [Hc Hp].
  destruct (handleClientMessage_cases members w st) as [H|[H|[H|H]]]; rewrite H;
    try (now split).
  unfold sendSystemUpdate_call.
  destruct (Z.eqb (readyState (sockets st w)) OPEN); [|now split].
  split; [exact Hc|]. cbn. apply Forall_app. split; [exact Hp|].
  repeat constructor.
Qed.

Lemma step_sound : forall st e, sound st -> sound (fst (step st e)).
Proof.
  intros st e [Hc Hp]. destruct e as [| |x|x|x|x parsed|x r t| |k c m p now]; cbn [step].
  - now split.
  - destruct (monitoringInterval st); now split.
  - split; [now apply Set_add_NoDup|exact Hp].
  - split; [now apply Set_delete_NoDup|exact Hp].
  - split; [now apply Set_delete_NoDup|exact Hp].
  - unfold on_message. destruct parsed as [[| | | | |members]|];
      try (now split); now apply handleClientMessage_sound.
  - now split.
  - destruct (monitoringInterval st); [|now split].
    assert (Hb : sound (fst (broadcastSystemUpdate_call st))).
    { unfold broadcastSystemUpdate_call.
      destruct (filter (fun w => subscribed (sockets st w)) (connectedClients st))
        as [|y ys] eqn:Ef; [now split|].
      split; [exact Hc|]. cbn. apply Forall_app. split; [exact Hp|].
      constructor; [|constructor]. split; [discriminate|].
      rewrite <- Ef. apply NoDup_filter. exact Hc. }
    assert (Hs : sound st) by now split.
    unfold tick. destruct (connectedClients st); [exact Hs|exact Hb].
  - destruct (nth_error (pending st) k) as [[l|x]|] eqn:Ek; [| |now split].
    + unfold broadcastSystemUpdate_resume. split.
      * now apply forEach_NoDup.
      * destruct (forEach_frame (broadcast_data now c m p) l
                    (with_pending st (remove_nth k (pending st)))) as (_ & -> & _).
        cbn. now apply remove_nth_Forall.
    + unfold sendSystemUpdate_resume.
      destruct (send_throws _); (split; [exact Hc|cbn; now apply remove_nth_Forall]).
Qed.

Lemma run_sound : forall es st, sound st -> sound (fst (run st es)).
Proof.
  induction es as [|e es IH]; intros st H; cbn [run]; [exact H|].
  pose proof (step_sound st e H) as H1. destruct (step st e) as [st1 t1].
  specialize (IH st1 H1). destruct (run st1 es) as [st2 t2]. exact IH.
Qed.

Lemma initial_sound : sound initial.
Proof. split; constructor. Qed.

(** ** One tick, from the timer to the sockets *)

Lemma invocations_app : forall t1 t2,
  invocations (t1 ++ t2) = invocations t1 ++ invocations t2.
Proof.
  intros t1 t2. induction t1 as [|e t1 IH]; [reflexivity|].
  destruct e; cbn [invocations app]; now rewrite ?IH.
Qed.

Lemma forEach_invokes_nothing : forall d l st, invocations (snd (forEach d l st)) = [].
Proof.
  intros d l. induction l as [|w l IH]; intros st; cbn [forEach]; [reflexivity|].
  destruct (push d w st) as [st1 e1] eqn:E1.
  specialize (IH st1). destruct (forEach d l st1) as [st2 e2]. cbn [snd] in *.
  rewrite invocations_app, IH, app_nil_r. unfold push in E1.
  destruct (Z.eqb (readyState (sockets st w)) OPEN);
    [destruct (send_throws (sockets st w))|]; inversion E1; reflexivity.
Qed.

Lemma tick_without_subscribers : forall st,
  subscribers st = [] -> tick st = (st, []).
Proof.
  intros st H. unfold tick, broadcastSystemUpdate_call. unfold subscribers in H.
  rewrite H. now destruct (connectedClients st).
Qed.

(** What a tick delivers, in a state whose registry names no socket
    twice. *)
Lemma broadcast_tick_delivery : forall st cpuData memoryData topProcesses now w,
  NoDup (connectedClients st) ->
  sent_to w (snd (broadcast_tick st cpuData memoryData topProcesses now)) =
  (if existsb (Nat.eqb w) (subscribers st) && ready st w
   then [snapshot now cpuData memoryData topProcesses]
   else []).
Proof.
  intros st c m p now w Hc.
  destruct (subscribers st) as [|x l] eqn:Es.
  - unfold broadcast_tick. rewrite (tick_without_subscribers st Es). reflexivity.
  - rewrite (broadcast_tick_unfold st c m p now x l Es). cbn [snd].
    rewrite sent_to_app. cbn [sent_to app]. rewrite forEach_sent_to.
    assert (Hnd : NoDup (x :: l)).
    { rewrite <- Es. unfold subscribers. now apply NoDup_filter. }
    destruct (ready st w); [|now rewrite andb_false_r].
    rewrite andb_true_r.
    destruct (existsb (Nat.eqb w) (x :: l)) eqn:Ex.
    + apply existsb_exists in Ex. destruct Ex as (y & Hy & Heq).
      apply Nat.eqb_eq in Heq. subst y.
      rewrite (proj1 (NoDup_count_occ' Nat.eq_dec (x :: l)) Hnd w Hy). reflexivity.
    + assert (Hn : ~ In w (x :: l)).
      { intros Hin. assert (existsb (Nat.eqb w) (x :: l) = true); [|congruence].
        apply existsb_exists. exists w. split; [exact Hin|apply Nat.eqb_refl]. }
      apply (count_occ_not_In Nat.eq_dec) in Hn. now rewrite Hn.
Qed.

(** X1. In any state the module can reach, a tick whose collectors settle
    at once calls each of the three collectors once if there is a
    subscriber and none otherwise, and it delivers the snapshot exactly
    once to every socket of the registry that is subscribed, open and whose
    [send] works, and nothing to any other socket. *)
Theorem tick_reaches_each_subscriber_once :
  forall es cpuData memoryData topProcesses now w,
  invocations (snd (broadcast_tick (fst (run initial es))
                      cpuData memoryData topProcesses now)) =
    match subscribers (fst (run initial es)) with
    | [] => []
    | _ => [getCPUUsage; getMemoryUsage; getProcessList]
    end /\
  sent_to w (snd (broadcast_tick (fst (run initial es))
                    cpuData memoryData topProcesses now)) =
    (if existsb (Nat.eqb w) (subscribers (fst (run initial es)))
        && ready (fst (run initial es)) w
     then [snapshot now cpuData memoryData topProcesses]
     else []).
Proof.
  intros es c m p now w.
  destruct (run_sound es initial initial_sound) as [Hc _].
  split; [|now apply broadcast_tick_delivery].
  destruct (subscribers (fst (run initial es))) as [|x l] eqn:Es.
  - unfold broadcast_tick. now rewrite (tick_without_subscribers _ Es).
  - rewrite (broadcast_tick_unfold _ c m p now x l Es). cbn [snd].
    rewrite invocations_app, forEach_invokes_nothing. reflexivity.
Qed.

(** ** A subscription is read when the tick starts *)

(** X2. Which sockets a broadcast serves is settled when the timer fires,
    not when the collectors have answered.  A socket of the suspended
    broadcast's array that unsubscribes in between still gets the
    snapshot, if it is open and its [send] works; and a socket outside the
    array that subscribes in between gets nothing from that broadcast. *)
Theorem subscription_is_read_at_the_tick :
  forall st k subscribedClients cpuData memoryData topProcesses now w,
  nth_error (pending st) k = Some (Broadcast subscribedClients) ->
  (In w subscribedClients -> ready st w = true ->
   In (Sent w (snapshot now cpuData memoryData topProcesses))
      (snd (run st [Message w (Some unsubscribe);
                    Settled k cpuData memoryData topProcesses now]))) /\
  (~ In w subscribedClients ->
   sent_to w (snd (run st [Message w (Some subscribe);
                           Settled k cpuData memoryData topProcesses now])) = []).
Proof.
  intros st k l c m p now w Hk.
  assert (Hun : step st (Message w (Some unsubscribe)) =
                (set_subscribed st w false,
                 [Console "Client unsubscribed from real-time updates"])) by reflexivity.
  assert (Hsub : step st (Message w (Some subscribe)) =
                 (set_subscribed st w true,
                  [Console "Client subscribed to real-time updates"])) by reflexivity.
  assert (Hready : forall b, ready (with_pending (set_subscribed st w b)
                                 (remove_nth k (pending st))) w = ready st w).
  { intros b. unfold ready, set_subscribed, with_socket, with_pending, update.
    cbn [sockets]. rewrite Nat.eqb_refl. reflexivity. }
  split.
  - intros Hin Hr. cbn [run]. rewrite Hun. cbn [step pending set_subscribed with_socket].
    rewrite Hk. unfold broadcastSystemUpdate_resume.
    destruct (forEach _ l _) as [st2 t2] eqn:E. cbn [snd]. apply in_or_app. right.
    apply in_or_app. left. apply sent_to_In.
    change t2 with (snd (st2, t2)). rewrite <- E, forEach_sent_to.
    change (with_pending _ _) with
      (with_pending (set_subscribed st w false) (remove_nth k (pending st))).
    rewrite Hready, Hr.
    assert (Hc : (count_occ Nat.eq_dec l w > 0)%nat) by now apply count_occ_In.
    destruct (count_occ Nat.eq_dec l w); [lia|]. cbn. now left.
  - intros Hn. cbn [run]. rewrite Hsub. cbn [step pending set_subscribed with_socket].
    rewrite Hk. unfold broadcastSystemUpdate_resume.
    destruct (forEach _ l _) as [st2 t2] eqn:E. cbn [snd].
    rewrite !sent_to_app. cbn [sent_to app].
    change t2 with (snd (st2, t2)). rewrite <- E, forEach_sent_to.
    apply (count_occ_not_In Nat.eq_dec) in Hn. rewrite Hn, app_nil_r, Hready.
    destruct (ready st w); reflexivity.
Qed.

Lemma subscription_is_read_at_the_tick_witness :
  nth_error (pending two_awaiting) 0 = Some (Broadcast [1%nat]) /\
  In (Sent 1%nat (snapshot "t" (fulfilled sample_cpu) (fulfilled sample_memory)
                    (fulfilled sample_processes)))
     (snd (run two_awaiting
             [Message 1%nat (Some unsubscribe);
              Settled 0 (fulfilled sample_cpu) (fulfilled sample_memory)
                (fulfilled sample_processes) "t"])) /\
  sent_to 2%nat
    (snd (run two_awaiting
            [Message 2%nat (Some subscribe);
             Settled 0 (fulfilled sample_cpu) (fulfilled sample_memory)
               (fulfilled sample_processes) "t"])) = [].
Proof.
  assert (Hk : nth_error (pending two_awaiting) 0 = Some (Broadcast [1%nat]))
    by reflexivity.
  split; [exact Hk|]. split.
  - apply (proj1 (subscription_is_read_at_the_tick two_awaiting 0 [1%nat]
                    (fulfilled sample_cpu) (fulfilled sample_memory)
                    (fulfilled sample_processes) "t" 1%nat Hk)).
    + cbn. tauto.
    + reflexivity.
  - apply (proj2 (subscription_is_read_at_the_tick two_awaiting 0 [1%nat]
                    (fulfilled sample_cpu) (fulfilled sample_memory)
                    (fulfilled sample_processes) "t" 2%nat Hk)).
    cbn. intros [H|[]]. discriminate.
Defined.

(** ** What a message can do *)

Lemma on_message_cases : forall parsed w st,
  (exists b text, on_message parsed w st = (set_subscribed st w b, [Console text])) \/
  on_message parsed w st = sendSystemUpdate_call w st \/
  (exists text, on_message parsed w st = (st, [Console text])).
Proof.
  intros parsed w st.
  assert (H : forall members,
            (exists b text, handleClientMessage members w st =
                            (set_subscribed st w b, [Console text])) \/
            handleClientMessage members w st = sendSystemUpdate_call w st \/
            (exists text, handleClientMessage members w st = (st, [Console text]))).
  { intros members.
    destruct (handleClientMessage_cases members w st) as [H|[H|[H|H]]]; rewrite H; eauto. }
  destruct parsed as [[| | | | |members]|]; cbn [on_message]; eauto.
Qed.

(** X3. A message from a socket, whatever it holds, leaves the registry
    and the timer as they are, touches no other socket, leaves the
    sender's connection state alone, sends nothing by itself, and never
    calls the process-list collector: it calls either no collector, or the
    CPU and the memory collector once each, and then only for a sender
    that is open. *)
Theorem a_message_touches_only_its_sender : forall st w parsed,
  connectedClients (fst (step st (Message w parsed))) = connectedClients st /\
  monitoringInterval (fst (step st (Message w parsed))) = monitoringInterval st /\
  (forall x, x <> w -> sockets (fst (step st (Message w parsed))) x = sockets st x) /\
  readyState (sockets (fst (step st (Message w parsed))) w) = readyState (sockets st w) /\
  send_throws (sockets (fst (step st (Message w parsed))) w) = send_throws (sockets st w) /\
  (forall to d, ~ In (Sent to d) (snd (step st (Message w parsed)))) /\
  (invocations (snd (step st (Message w parsed))) = [] \/
   invocations (snd (step st (Message w parsed))) = [getCPUUsage; getMemoryUsage] /\
   readyState (sockets st w) = OPEN).
Proof.
  intros st w parsed. cbn [step].
  assert (Hset : forall b x, x <> w -> sockets (set_subscribed st w b) x = sockets st x).
  { intros b x Hx. unfold set_subscribed, with_socket, update. cbn [sockets].
    apply Nat.eqb_neq in Hx. now rewrite Hx. }
  assert (Hsame : forall b, sockets (set_subscribed st w b) w =
                            {| subscribed := b; readyState := readyState (sockets st w);
                               send_throws := send_throws (sockets st w) |}).
  { intros b. unfold set_subscribed, with_socket, update. cbn [sockets].
    now rewrite Nat.eqb_refl. }
  destruct (on_message_cases parsed w st) as [(b & text & ->)|[->|(text & ->)]].
  - cbn [fst snd]. rewrite Hsame. cbn [readyState send_throws].
    repeat split; auto.
    intros to d [H|[]]. discriminate.
  - unfold sendSystemUpdate_call.
    destruct (Z.eqb (readyState (sockets st w)) OPEN) eqn:Eo; cbn [fst snd].
    + apply Z.eqb_eq in Eo. repeat split; auto.
      intros to d [H|[H|[]]]; discriminate.
    + repeat split; auto.
  - cbn [fst snd]. repeat split; auto.
    intros to d [H|[]]. discriminate.
Qed.

Lemma a_message_touches_witness :
  sockets (fst (step one_unsubscribed (Message 7%nat (Some subscribe)))) 8%nat =
    sockets one_unsubscribed 8%nat /\
  ~ In (Sent 7%nat JNull) (snd (step one_unsubscribed (Message 7%nat (Some requestUpdate)))).
Proof.
  split.
  - apply (proj1 (proj2 (proj2 (a_message_touches_only_its_sender one_unsubscribed 7%nat
                                  (Some subscribe))))).
    discriminate.
  - apply (proj1 (proj2 (proj2 (proj2 (proj2 (proj2
             (a_message_touches_only_its_sender one_unsubscribed 7%nat
                (Some requestUpdate)))))))).
Defined.

(** ** Stopping the timer *)

Lemma forEach_with_interval : forall d l st b,
  forEach d l (with_interval st b) =
  (with_interval (fst (forEach d l st)) b, snd (forEach d l st)).
Proof.
  intros d l. induction l as [|w l IH]; intros st b; cbn [forEach]; [reflexivity|].
  assert (Hp : push d w (with_interval st b) =
               (with_interval (fst (push d w st)) b, snd (push d w st))).
  { unfold push. cbn [sockets with_interval].
    destruct (Z.eqb (readyState (sockets st w)) OPEN); [|reflexivity].
    destruct (send_throws (sockets st w)); reflexivity. }
  rewrite Hp. destruct (push d w st) as [st1 e1]. cbn [fst snd].
  rewrite IH. destruct (forEach d l st1) as [st2 e2]. reflexivity.
Qed.

(** X4. Once [stopMonitoring] has run, the firing of the timer does
    nothing, however often, and a second [stopMonitoring] does nothing
    either; but the stop cancels nothing that is in flight: registry,
    sockets and suspended functions are as before, and a suspended
    broadcast or reply that resumes sends exactly what it would have sent
    without the stop. *)
Theorem stopMonitoring_stops_ticks_only : forall st n k cpuData memoryData topProcesses now,
  run (fst (step st StopMonitoring)) (repeat Tick n) = (fst (step st StopMonitoring), []) /\
  step (fst (step st StopMonitoring)) StopMonitoring = (fst (step st StopMonitoring), []) /\
  connectedClients (fst (step st StopMonitoring)) = connectedClients st /\
  sockets (fst (step st StopMonitoring)) = sockets st /\
  pending (fst (step st StopMonitoring)) = pending st /\
  snd (step (fst (step st StopMonitoring))
         (Settled k cpuData memoryData topProcesses now)) =
  snd (step st (Settled k cpuData memoryData topProcesses now)).
Proof.
  intros st n k c m p now.
  assert (Hs : fst (step st StopMonitoring) = with_interval st false).
  { cbn [step]. destruct (monitoringInterval st) eqn:E; [reflexivity|].
    destruct st; cbn in *; now subst. }
  rewrite Hs. split; [|split; [|split; [|split; [|split]]]]; try reflexivity.
  - induction n as [|n IH]; [reflexivity|]. cbn [repeat run step monitoringInterval with_interval].
    cbn [repeat] in IH. now rewrite IH.
  - cbn [step pending with_interval].
    destruct (nth_error (pending st) k) as [[l|x]|]; [| |reflexivity].
    + unfold broadcastSystemUpdate_resume.
      change (with_pending (with_interval st false) (remove_nth k (pending st)))
        with (with_interval (with_pending st (remove_nth k (pending st))) false).
      now rewrite forEach_with_interval.
    + unfold sendSystemUpdate_resume. cbn [sockets with_pending with_interval].
      now destruct (send_throws (sockets st x)).
Qed.

(** ** Readiness at the time of sending *)

(** X5. A broadcast looks at [readyState] when it sends: a socket that
    closes while the collectors run gets nothing from it.  The on-demand
    reply looks at [readyState] only when it is asked for: if the socket
    closes while the collectors run, [send] is still called on it. *)
Theorem readiness_is_checked_by_the_broadcast_only :
  forall st k cpuData memoryData topProcesses now w,
  (forall subscribedClients,
     nth_error (pending st) k = Some (Broadcast subscribedClients) ->
     sent_to w (snd (run st [Close w; Settled k cpuData memoryData topProcesses now])) = []) /\
  (nth_error (pending st) k = Some (Reply w) ->
   send_throws (sockets st w) = false ->
   snd (run st [Close w; Settled k cpuData memoryData topProcesses now]) =
     [Sent w (reply_data now cpuData memoryData)]).
Proof.
  intros st k c m p now w. split.
  - intros l Hk. cbn [run step pending with_clients with_socket]. rewrite Hk.
    unfold broadcastSystemUpdate_resume.
    destruct (forEach _ l _) as [st2 t2] eqn:E. cbn [snd app].
    rewrite app_nil_r. change t2 with (snd (st2, t2)). rewrite <- E, forEach_sent_to.
    unfold ready, with_pending, with_clients, with_socket, update. cbn [sockets].
    rewrite Nat.eqb_refl. reflexivity.
  - intros Hk Ht. cbn [run step pending with_clients with_socket]. rewrite Hk.
    unfold sendSystemUpdate_resume, with_pending, with_clients, with_socket, update.
    cbn [sockets]. rewrite Nat.eqb_refl. cbn [send_throws]. rewrite Ht. reflexivity.
Qed.

Lemma readiness_is_checked_witness :
  sent_to 1%nat
    (snd (run two_awaiting
            [Close 1%nat;
             Settled 0 (fulfilled sample_cpu) (fulfilled sample_memory)
               (fulfilled sample_processes) "t"])) = [] /\
  snd (run (fst (step one_unsubscribed (Message 7%nat (Some requestUpdate))))
         [Close 7%nat;
          Settled 0 (fulfilled sample_cpu) (fulfilled sample_memory)
            (fulfilled sample_processes) "t"]) =
    [Sent 7%nat (reply_data "t" (fulfilled sample_cpu) (fulfilled sample_memory))].
Proof.
  split.
  - apply (proj1 (readiness_is_checked_by_the_broadcast_only two_awaiting 0
                    (fulfilled sample_cpu) (fulfilled sample_memory)
                    (fulfilled sample_processes) "t" 1%nat) [1%nat]).
    reflexivity.
  - apply (proj2 (readiness_is_checked_by_the_broadcast_only
                    (fst (step one_unsubscribed (Message 7%nat (Some requestUpdate)))) 0
                    (fulfilled sample_cpu) (fulfilled sample_memory)
                    (fulfilled sample_processes) "t" 7%nat)); reflexivity.
Defined.

(** ** A socket that has left *)

Lemma Set_add_other : forall w x s, x <> w -> In x (Set_add w s) -> In x s.
Proof.
  intros w x s Hne. unfold Set_add. destruct (existsb (Nat.eqb w) s); [auto|].
  intros H. apply in_app_or in H. destruct H as [H|[H|[]]]; [exact H|congruence].
Qed.

Lemma step_keeps_out : forall st e w,
  ~ In w (connectedClients st) -> e <> Connection w ->
  ~ In w (connectedClients (fst (step st e))).
Proof.
  intros st e w Hout He.
  destruct e as [| |x|x|x|x parsed|x r t| |k c m p now]; cbn [step].
  - exact Hout.
  - now destruct (monitoringInterval st).
  - cbn [fst connectedClients with_clients]. intros H. apply Hout.
    apply (Set_add_other x w); [|exact H]. intros ->. now apply He.
  - cbn [fst connectedClients with_clients]. intros H. apply Set_delete_In in H. tauto.
  - cbn [fst connectedClients with_clients]. intros H. apply Set_delete_In in H. tauto.
  - now rewrite on_message_clients.
  - exact Hout.
  - destruct (monitoringInterval st); [|exact Hout]. now rewrite tick_clients.
  - destruct (nth_error (pending st) k) as [[l|x]|]; [| |exact Hout].
    + unfold broadcastSystemUpdate_resume. intros H. apply forEach_clients in H.
      apply Hout. exact (proj1 H).
    + unfold sendSystemUpdate_resume. now destruct (send_throws _).
Qed.

Lemma run_keeps_out : forall es st w,
  ~ In w (connectedClients st) -> Forall (fun e => e <> Connection w) es ->
  ~ In w (connectedClients (fst (run st es))).
Proof.
  induction es as [|e es IH]; intros st w Hout Hes; [exact Hout|].
  inversion_clear Hes as [|? ? He Hrest]. cbn [run].
  pose proof (step_keeps_out st e w Hout He) as H1.
  destruct (step st e) as [st1 t1]. cbn [fst] in H1.
  specialize (IH st1 w H1 Hrest). now destruct (run st1 es) as [st2 t2].
Qed.

Lemma run_app : forall es1 es2 st,
  fst (run st (es1 ++ es2)) = fst (run (fst (run st es1)) es2).
Proof.
  induction es1 as [|e es1 IH]; intros es2 st; [reflexivity|].
  cbn [app run]. destruct (step st e) as [st1 t1]. specialize (IH es2 st1).
  destruct (run st1 (es1 ++ es2)) as [st2 t2]. destruct (run st1 es1) as [st3 t3].
  exact IH.
Qed.

(** X6. A socket whose ['close'] or ['error'] event has been handled is
    out of the registry and stays out, whatever happens, until it connects
    again; and a tick that starts while it is out delivers nothing to it,
    whether or not it is still marked subscribed. *)
Theorem a_socket_that_left_is_not_served :
  forall es e es' w cpuData memoryData topProcesses now,
  e = Close w \/ e = Error w ->
  Forall (fun e' => e' <> Connection w) es' ->
  ~ In w (connectedClients (fst (run initial (es ++ e :: es')))) /\
  sent_to w (snd (broadcast_tick (fst (run initial (es ++ e :: es')))
                    cpuData memoryData topProcesses now)) = [].
Proof.
  intros es e es' w c m p now He Hes'.
  assert (Hout : ~ In w (connectedClients (fst (run initial (es ++ e :: es'))))).
  { change (e :: es') with ([e] ++ es'). rewrite app_assoc, run_app, run_app.
    apply run_keeps_out; [|exact Hes'].
    cbn [run]. destruct (step (fst (run initial es)) e) as [st1 t1] eqn:E. cbn [fst].
    assert (H1 : st1 = fst (step (fst (run initial es)) e)) by now rewrite E.
    rewrite H1. destruct He as [-> | ->]; cbn [step fst connectedClients with_clients];
      intros H; apply Set_delete_In in H; tauto. }
  split; [exact Hout|].
  rewrite broadcast_tick_delivery.
  - assert (Hn : existsb (Nat.eqb w) (subscribers (fst (run initial (es ++ e :: es')))) = false).
    { destruct (existsb _ _) eqn:Ex; [|reflexivity].
      apply existsb_exists in Ex. destruct Ex as (y & Hy & Heq).
      apply Nat.eqb_eq in Heq. subst y. unfold subscribers in Hy.
      apply filter_In in Hy. tauto. }
    now rewrite Hn.
  - exact (proj1 (run_sound _ initial initial_sound)).
Qed.

Lemma a_socket_that_left_witness :
  sent_to 1%nat
    (snd (broadcast_tick
            (fst (run initial
                    ([StartMonitoring; Connection 1%nat; Connection 2%nat;
                      Message 1%nat (Some subscribe); Message 2%nat (Some subscribe)]
                     ++ Error 1%nat :: [Tick; Message 1%nat (Some subscribe)])))
            (fulfilled sample_cpu) (fulfilled sample_memory) (fulfilled sample_processes)
            "t")) = [].
Proof.
  apply (a_socket_that_left_is_not_served
           [StartMonitoring; Connection 1%nat; Connection 2%nat;
            Message 1%nat (Some subscribe); Message 2%nat (Some subscribe)]
           (Error 1%nat) [Tick; Message 1%nat (Some subscribe)] 1%nat).
  - now right.
  - repeat constructor; discriminate.
Defined.

End SchedulerFacts.

(* ================================================================== *)
(** * Properties of the runs of the client hook                        *)
(* ================================================================== *)

Module SessionFacts.
Import JS Client Session.
Import Monitor (json, JNull, JBool, JNum, JStr, JArr, JObj, member).
Local Open Scope string_scope.
Local Open Scope list_scope.

Lemma scheduled_app : forall t u, scheduled (t ++ u) = scheduled t ++ scheduled u.
Proof.
  induction t as [|e t IH]; intros u; [reflexivity|].
  destruct e; cbn [scheduled app]; rewrite ?IH; reflexivity.
Qed.

Lemma subscriptions_app : forall t u,
  subscriptions (t ++ u) = subscriptions t ++ subscriptions u.
Proof.
  induction t as [|e t IH]; intros u; [reflexivity|].
  destruct e; cbn [subscriptions app]; rewrite ?IH; try reflexivity.
  now destruct (is_intent "subscribe" message).
Qed.

Lemma sent_app : forall t u, sent (t ++ u) = sent t ++ sent u.
Proof.
  induction t as [|e t IH]; intros u; [reflexivity|].
  destruct e; cbn [sent app]; rewrite ?IH; reflexivity.
Qed.

Lemma run_cons : forall h e es,
  run h (e :: es) =
  (fst (run (fst (step h e)) es), snd (step h e) ++ snd (run (fst (step h e)) es)).
Proof.
  intros h e es. cbn [run]. destruct (step h e) as [h1 t1]. cbn [fst snd].
  destruct (run h1 es) as [h2 t2]. reflexivity.
Qed.

(** What one event does to the count of attempts and to the timeouts. *)
Lemma step_attempts : forall h e,
  (reconnectAttempts h <= maxReconnectAttempts)%nat ->
  Forall (fun d => d = reconnectDelay) (scheduled (snd (step h e))) /\
  match e with
  | Open _ => reconnectAttempts (fst (step h e)) = 0%nat /\ scheduled (snd (step h e)) = []
  | _ => (List.length (scheduled (snd (step h e))) + reconnectAttempts h)%nat =
         reconnectAttempts (fst (step h e)) /\
         (reconnectAttempts (fst (step h e)) <= maxReconnectAttempts)%nat
  end.
Proof.
  intros h e Hle. destruct e; cbn [step].
  - unfold connect; cbn; auto.
  - unfold onopen; cbn; auto.
  - unfold onmessage.
    destruct parsed as [[| | | | |members]|]; cbn; auto.
    destruct (member "type" members) as [[| | |s| |]|]; cbn; auto.
    destruct (String.eqb s "systemUpdate") eqn:E.
    + apply String.eqb_eq in E. subst. cbn. auto.
    + assert (H : forall (X : Type) (a b : X),
                match s with "systemUpdate" => a | _ => b end = b).
      { intros X a b. apply String.eqb_neq in E.
        repeat (match goal with
                | |- context [match ?x with EmptyString => _ | String _ _ => _ end] => destruct x
                | |- context [match ?x with Ascii _ _ _ _ _ _ _ _ => _ end] => destruct x
                | |- context [if ?b then _ else _] => destruct b
                end; try reflexivity; try congruence). }
      rewrite H. cbn. auto.
  - unfold onclose.
    destruct (Nat.ltb (reconnectAttempts h) maxReconnectAttempts) eqn:E.
    + apply Nat.ltb_lt in E. cbn. split; [repeat constructor|]. split; [reflexivity|].
      unfold maxReconnectAttempts in *. lia.
    + cbn. auto.
  - unfold onerror; cbn; auto.
  - destruct (existsb (Nat.eqb timer) (timers h)); cbn; auto.
  - unfold disconnect. cbn [fst snd reconnectAttempts].
    assert (Hs : scheduled
                   (match reconnectTimeoutRef h with
                    | Some t => [ClearTimeout t] | None => [] end ++
                    match wsRef h with
                    | Some ws =>
                        (if Z.eqb (readyState h ws) OPEN
                         then [Send ws (intent "unsubscribe")] else []) ++ [CloseSocket ws]
                    | None => [] end) = []).
    { destruct (reconnectTimeoutRef h), (wsRef h) as [ws|]; cbn; try reflexivity;
        destruct (Z.eqb (readyState h ws) OPEN); reflexivity. }
    rewrite Hs. cbn. auto.
  - unfold connect; cbn; auto.
  - unfold requestUpdate. destruct (wsRef h) as [ws|]; cbn; auto.
    destruct (Z.eqb (readyState h ws) OPEN); cbn; auto.
Qed.

Lemma run_attempts : forall es h,
  (reconnectAttempts h <= maxReconnectAttempts)%nat ->
  Forall (fun d => d = reconnectDelay) (scheduled (snd (run h es))) /\
  (reconnectAttempts (fst (run h es)) <= maxReconnectAttempts)%nat /\
  (List.length (scheduled (snd (run h es))) + reconnectAttempts h <=
   maxReconnectAttempts * (1 + List.length (opened es)))%nat.
Proof.
  induction es as [|e es IH]; intros h Hle.
  - cbn. split; [constructor|]. split; [exact Hle|]. unfold maxReconnectAttempts in *. lia.
  - rewrite run_cons. cbn [fst snd]. rewrite scheduled_app, length_app.
    destruct (step_attempts h e Hle) as [Hd He].
    assert (Hle1 : (reconnectAttempts (fst (step h e)) <= maxReconnectAttempts)%nat).
    { destruct e; try (exact (proj2 He)). destruct He as [-> _]. apply Nat.le_0_l. }
    destruct (IH _ Hle1) as (IHd & IHle & IHn).
    split; [apply Forall_app; split; assumption|]. split; [exact IHle|].
    unfold maxReconnectAttempts in *.
    destruct e; cbn [opened List.length];
      try (destruct He as [He _]; lia).
    destruct He as [He0 He1]. rewrite He0 in IHn. rewrite He1. cbn [List.length]. lia.
Qed.

(** X7. However the events of a session follow one another (losses,
    errors, manual reconnects and disconnects, timeouts that fire or were
    cancelled), the count of attempts never exceeds five, every timeout
    the hook sets is of 3000 ms, and the hook sets at most five timeouts
    plus five more for each [open] event it has seen. *)
Theorem retries_are_bounded_by_the_opens : forall es,
  (reconnectAttempts (fst (run initial es)) <= 5)%nat /\
  Forall (fun d => d = 3000%Z) (scheduled (snd (run initial es))) /\
  (List.length (scheduled (snd (run initial es))) <= 5 * (1 + List.length (opened es)))%nat.
Proof.
  intros es.
  destruct (run_attempts es initial) as (Hd & Hle & Hn).
  - cbn. unfold maxReconnectAttempts. lia.
  - split; [exact Hle|]. split; [exact Hd|].
    unfold maxReconnectAttempts in Hn. lia.
Qed.

(** The two things [ws.onmessage] does. *)
Lemma onmessage_cases : forall parsed h,
  (exists members,
     parsed = Some (JObj members) /\ member "type" members = Some (JStr "systemUpdate") /\
     snd (onmessage parsed h) = [] /\
     data (fst (onmessage parsed h)) = Some (JObj members) /\
     lastUpdate (fst (onmessage parsed h)) = member "timestamp" members) \/
  (fst (onmessage parsed h) = h /\
   (snd (onmessage parsed h) = [] \/
    snd (onmessage parsed h) = [Console "Failed to parse WebSocket message:"])).
Proof.
  intros parsed h. unfold onmessage.
  destruct parsed as [[| | | | |members]|]; cbn; auto.
  destruct (member "type" members) as [[| | |s| |]|] eqn:Em; cbn; auto.
  destruct (String.eqb s "systemUpdate") eqn:E.
  - apply String.eqb_eq in E. subst. cbn. left. exists members. auto.
  - assert (H : forall (X : Type) (a b : X),
              match s with "systemUpdate" => a | _ => b end = b).
    { intros X a b. apply String.eqb_neq in E.
      repeat (match goal with
              | |- context [match ?x with EmptyString => _ | String _ _ => _ end] => destruct x
              | |- context [match ?x with Ascii _ _ _ _ _ _ _ _ => _ end] => destruct x
              | |- context [if ?b then _ else _] => destruct b
              end; try reflexivity; try congruence). }
    rewrite H. cbn. auto.
Qed.

Lemma step_sends : forall h e,
  subscriptions (snd (step h e)) = opened [e] /\
  Forall (fun m => m = intent "subscribe" \/ m = intent "unsubscribe" \/
                   m = intent "requestUpdate") (sent (snd (step h e))).
Proof.
  intros h e. destruct e; cbn [step opened].
  - cbn. auto.
  - cbn. split; [reflexivity|]. repeat constructor.
  - destruct (onmessage_cases parsed h) as [(ms & _ & _ & -> & _)|[_ [->| ->]]]; cbn; auto.
  - unfold onclose. destruct (Nat.ltb (reconnectAttempts h) maxReconnectAttempts); cbn; auto.
  - cbn. auto.
  - destruct (existsb (Nat.eqb timer) (timers h)); cbn; auto.
  - unfold disconnect. cbn [snd].
    destruct (reconnectTimeoutRef h), (wsRef h) as [ws|]; cbn; auto;
      destruct (Z.eqb (readyState h ws) OPEN); cbn; auto.
  - cbn. auto.
  - unfold requestUpdate. destruct (wsRef h) as [ws|]; cbn; auto.
    destruct (Z.eqb (readyState h ws) OPEN); cbn; auto.
Qed.

(** X8. In any run of the hook, from any state, the subscribe intent is
    sent exactly once for each [open] event, on the socket that opened and
    in the order of the events, and at no other moment; and whatever the
    hook sends is one of its three intents. *)
Theorem subscribe_is_sent_once_per_open : forall es h,
  subscriptions (snd (run h es)) = opened es /\
  Forall (fun m => m = intent "subscribe" \/ m = intent "unsubscribe" \/
                   m = intent "requestUpdate") (sent (snd (run h es))).
Proof.
  induction es as [|e es IH]; intros h; [cbn; auto|].
  rewrite run_cons. cbn [snd]. rewrite subscriptions_app, sent_app.
  destruct (step_sends h e) as [Hs Hf]. destruct (IH (fst (step h e))) as [IHs IHf].
  split.
  - rewrite Hs, IHs. destruct e; reflexivity.
  - apply Forall_app. split; assumption.
Qed.

Lemma onclose_retries : forall h ws,
  (reconnectAttempts h < maxReconnectAttempts)%nat ->
  snd (onclose ws h) =
    [Console "WebSocket disconnected"; Console "Attempting to reconnect";
     SetTimeout (timeouts h) reconnectDelay] /\
  timers (fst (onclose ws h)) = timers h ++ [timeouts h] /\
  reconnectTimeoutRef (fst (onclose ws h)) = Some (timeouts h) /\
  sockets (fst (onclose ws h)) = sockets h.
Proof.
  intros h ws Hlt. apply Nat.ltb_lt in Hlt. unfold onclose. rewrite Hlt.
  repeat split.
Qed.

(** X9. [disconnect()] does not end the reconnection: when the socket it
    closed reports its close, and fewer than five attempts are counted,
    [onclose] sets a timeout of 3000 ms as after any loss, and when that
    fires a new socket is opened and becomes the current one. *)
Theorem disconnect_does_not_stop_reconnection : forall h ws,
  wsRef h = Some ws ->
  (reconnectAttempts h < maxReconnectAttempts)%nat ->
  In (CloseSocket ws) (snd (run h [Disconnect; Close ws])) /\
  scheduled (snd (run h [Disconnect; Close ws])) = [3000%Z] /\
  reconnectTimeoutRef (fst (run h [Disconnect; Close ws])) = Some (timeouts h) /\
  In (timeouts h) (timers (fst (run h [Disconnect; Close ws]))) /\
  attempts (snd (step (fst (run h [Disconnect; Close ws])) (Timeout (timeouts h)))) =
    [sockets h] /\
  wsRef (fst (step (fst (run h [Disconnect; Close ws])) (Timeout (timeouts h)))) =
    Some (sockets h).
Proof.
  intros h ws Hws Hlt.
  assert (Hrun : run h [Disconnect; Close ws] =
                 (fst (onclose ws (fst (disconnect h))),
                  snd (disconnect h) ++ snd (onclose ws (fst (disconnect h))))).
  { rewrite !run_cons. cbn [run step fst snd]. now rewrite app_nil_r. }
  rewrite Hrun. cbn [fst snd].
  destruct (onclose_retries (fst (disconnect h)) ws Hlt) as (Ht & Htimers & Href & Hsockets).
  change (timeouts (fst (disconnect h))) with (timeouts h) in *.
  change (sockets (fst (disconnect h))) with (sockets h) in *.
  assert (Hd : snd (disconnect h) =
               match reconnectTimeoutRef h with Some t => [ClearTimeout t] | None => [] end ++
               (if Z.eqb (readyState h ws) OPEN then [Send ws (intent "unsubscribe")] else [])
               ++ [CloseSocket ws]).
  { unfold disconnect. cbn [snd]. now rewrite Hws. }
  assert (Hfire : step (fst (onclose ws (fst (disconnect h)))) (Timeout (timeouts h)) =
                  connect (without_timer (timeouts h) (fst (onclose ws (fst (disconnect h)))))).
  { cbn [step]. rewrite Htimers, existsb_app. cbn [existsb]. rewrite Nat.eqb_refl.
    now rewrite orb_true_r. }
  split; [|split; [|split; [|split; [|split]]]].
  - rewrite Hd. apply in_or_app. left. apply in_or_app. right. apply in_or_app. right.
    now left.
  - rewrite scheduled_app, Ht, Hd.
    destruct (reconnectTimeoutRef h), (Z.eqb (readyState h ws) OPEN); reflexivity.
  - exact Href.
  - rewrite Htimers. apply in_or_app. right. now left.
  - rewrite Hfire. unfold connect, without_timer. cbn [snd attempts sockets].
    now rewrite Hsockets.
  - rewrite Hfire. unfold connect, without_timer. cbn [fst wsRef sockets].
    now rewrite Hsockets.
Qed.

Lemma disconnect_does_not_stop_witness :
  wsRef recovered = Some 2%nat /\
  scheduled (snd (run recovered [Disconnect; Close 2%nat])) = [3000%Z] /\
  attempts (snd (step (fst (run recovered [Disconnect; Close 2%nat]))
                   (Timeout (timeouts recovered)))) = [3%nat].
Proof.
  assert (H1 : wsRef recovered = Some 2%nat) by reflexivity.
  assert (H2 : (reconnectAttempts recovered < maxReconnectAttempts)%nat) by (cbv; lia).
  destruct (disconnect_does_not_stop_reconnection recovered 2%nat H1 H2)
    as (_ & Hs & _ & _ & Ha & _).
  split; [exact H1|]. split; [exact Hs|exact Ha].
Defined.

Lemma step_consistent : forall h e, consistent h -> consistent (fst (step h e)).
Proof.
  intros h e Hc. destruct e; cbn [step]; try exact Hc.
  - destruct (onmessage_cases parsed h) as [(ms & _ & Hm & _ & Hd & Hl)|[-> _]];
      [|exact Hc].
    unfold consistent. rewrite Hd, Hl. auto.
  - unfold onclose. now destruct (Nat.ltb (reconnectAttempts h) maxReconnectAttempts).
  - now destruct (existsb (Nat.eqb timer) (timers h)).
  - unfold requestUpdate. destruct (wsRef h) as [ws|]; [|exact Hc].
    now destruct (Z.eqb (readyState h ws) OPEN).
Qed.

(** X10. In every state the hook reaches, [data] and [lastUpdate] belong
    together: both are unset, or [data] is a message of type
    [systemUpdate] and [lastUpdate] is its [timestamp].  An event leaves
    both as they are, a loss of the connection and a [disconnect()]
    included, unless it is a message that parses to an object of type
    [systemUpdate], which replaces both. *)
Theorem data_and_lastUpdate_belong_together :
  (forall es, consistent (fst (run initial es))) /\
  (forall h e,
     (data (fst (step h e)) = data h /\ lastUpdate (fst (step h e)) = lastUpdate h) \/
     (exists ws members,
        e = Message ws (Some (JObj members)) /\
        member "type" members = Some (JStr "systemUpdate") /\
        data (fst (step h e)) = Some (JObj members) /\
        lastUpdate (fst (step h e)) = member "timestamp" members)).
Proof.
  split.
  - assert (H : forall es h, consistent h -> consistent (fst (run h es))).
    { induction es as [|e es IH]; intros h Hc; [exact Hc|].
      rewrite run_cons. cbn [fst]. apply IH, step_consistent, Hc. }
    intros es. apply H. reflexivity.
  - intros h e. destruct e; cbn [step]; auto.
    + destruct (onmessage_cases parsed h) as [(ms & -> & Hm & _ & Hd & Hl)|[-> _]]; auto.
      right. exists ws, ms. auto.
    + unfold onclose. destruct (Nat.ltb (reconnectAttempts h) maxReconnectAttempts); auto.
    + destruct (existsb (Nat.eqb timer) (timers h)); auto.
    + unfold requestUpdate. destruct (wsRef h) as [ws|]; auto.
      destruct (Z.eqb (readyState h ws) OPEN); auto.
Qed.

End SessionFacts.

(* ================================================================== *)
(** * The hook and the server understand each other                    *)
(* ================================================================== *)

Module ProtocolFacts.
Import JS Protocol.
Import Monitor (json, JNull, JBool, JNum, JStr, JArr, JObj, member).
Local Open Scope string_scope.
Local Open Scope list_scope.

(** X11. What the scheduler sends, the hook takes: a snapshot of a tick
    and the reply to a request both arrive as messages of type
    [systemUpdate], so that the hook's [data] becomes the object that
    arrived and its [lastUpdate] the time stamp of the server, and nothing
    is logged.  The greeting of [index.js] changes nothing in the hook.
    In the other direction each of the three intents of the hook reaches
    a case of [handleClientMessage] of its own: the subscription is set,
    cleared, or an update is started, and none is answered as an unknown
    type. *)
Theorem the_hook_and_the_server_understand_each_other :
  (forall now cpuData memoryData topProcesses h ws,
     snd (Client.step h
            (Client.Message ws
               (Some (wire (Monitor.broadcast_data now cpuData memoryData topProcesses)))))
       = [] /\
     Client.data
       (fst (Client.step h
               (Client.Message ws
                  (Some (wire (Monitor.broadcast_data now cpuData memoryData topProcesses))))))
       = Some (wire (Monitor.broadcast_data now cpuData memoryData topProcesses)) /\
     Client.lastUpdate
       (fst (Client.step h
               (Client.Message ws
                  (Some (wire (Monitor.broadcast_data now cpuData memoryData topProcesses))))))
       = Some (JStr now)) /\
  (forall now cpuData memoryData h ws,
     Client.data
       (fst (Client.step h
               (Client.Message ws (Some (wire (Monitor.reply_data now cpuData memoryData))))))
       = Some (wire (Monitor.reply_data now cpuData memoryData)) /\
     Client.lastUpdate
       (fst (Client.step h
               (Client.Message ws (Some (wire (Monitor.reply_data now cpuData memoryData))))))
       = Some (JStr now)) /\
  (forall now h ws,
     Client.step h (Client.Message ws (Some (wire (greeting now)))) = (h, [])) /\
  (forall w st,
     Monitor.on_message (Some (wire (Client.intent "subscribe"))) w st =
       (Monitor.set_subscribed st w true,
        [Monitor.Console "Client subscribed to real-time updates"]) /\
     Monitor.on_message (Some (wire (Client.intent "unsubscribe"))) w st =
       (Monitor.set_subscribed st w false,
        [Monitor.Console "Client unsubscribed from real-time updates"]) /\
     Monitor.on_message (Some (wire (Client.intent "requestUpdate"))) w st =
       Monitor.sendSystemUpdate_call w st).
Proof.
  split; [|split; [|split]].
  - intros now c m p h ws. repeat split.
  - intros now c m h ws. repeat split.
  - intros now h ws. destruct now; reflexivity.
  - intros w st. repeat split.
Qed.

End ProtocolFacts.

(* ================================================================== *)
(** * Properties of the samplers                                       *)
(* ================================================================== *)

Module SamplingFacts.
Import JS System Numbers Sampling SystemFacts ParsingFacts.
Local Open Scope string_scope.
Local Open Scope Z_scope.

(** ** The CPU usage *)

Lemma sum_values_total : forall t, sum (values t) = of_Z (total_of t).
Proof. intros t. rewrite sum_values. reflexivity. Qed.

Lemma accumulate_deltas : forall cpus1 cpus2 a b,
  (List.length cpus1 <= List.length cpus2)%nat ->
  accumulate cpus1 cpus2 (of_Z a) (of_Z b) =
  Some (of_Z (a + idle_delta cpus1 cpus2), of_Z (b + tick_delta cpus1 cpus2)).
Proof.
  induction cpus1 as [|c1 cpus1 IH]; intros cpus2 a b Hl; cbn [accumulate].
  - unfold idle_delta, tick_delta. cbn. now rewrite !Z.add_0_r.
  - destruct cpus2 as [|c2 cpus2]; [cbn in Hl; lia|].
    rewrite !sum_values_total, !sub_of_Z, !add_of_Z.
    rewrite IH by (cbn in Hl; lia).
    unfold idle_delta, tick_delta. cbn [combine map fold_right fst snd].
    do 2 f_equal; f_equal; ring.
Qed.

Lemma accumulate_short : forall cpus1 cpus2 a b,
  (List.length cpus2 < List.length cpus1)%nat ->
  accumulate cpus1 cpus2 a b = None.
Proof.
  induction cpus1 as [|c1 cpus1 IH]; intros cpus2 a b Hl; [cbn in Hl; lia|].
  destruct cpus2 as [|c2 cpus2]; [reflexivity|].
  cbn [accumulate]. apply IH. cbn in Hl. lia.
Qed.

Lemma getCPUPercent_deltas : forall cpus1 cpus2,
  (List.length cpus1 <= List.length cpus2)%nat ->
  getCPUPercent cpus1 cpus2 =
  Some (Math_max (of_Z 0) (Math_min (of_Z 100)
          (sub (of_Z 100)
             (Math_round (product (quotient (of_Z (idle_delta cpus1 cpus2))
                                          (of_Z (tick_delta cpus1 cpus2)))
                                (of_Z 100)))))).
Proof.
  intros cpus1 cpus2 Hl. unfold getCPUPercent.
  now rewrite (accumulate_deltas cpus1 cpus2 0 0 Hl).
Qed.

(** The usage computed from the two totals: [NaN] for [0 / 0] and for
    nothing else. *)
Lemma usage_cases : forall i t,
  (i = 0 /\ t = 0 /\
   Math_max (of_Z 0) (Math_min (of_Z 100)
     (sub (of_Z 100) (Math_round (product (quotient (of_Z i) (of_Z t)) (of_Z 100))))) = NaN) \/
  ((i <> 0 \/ t <> 0) /\
   exists z,
     Math_max (of_Z 0) (Math_min (of_Z 100)
       (sub (of_Z 100) (Math_round (product (quotient (of_Z i) (of_Z t)) (of_Z 100))))) =
       of_Z z /\
     0 <= z <= 100).
Proof.
  intros i t.
  destruct (Z.eq_dec i 0) as [->|Hi]; [destruct (Z.eq_dec t 0) as [->|Ht]|].
  - now left.
  - right. split; [now right|]. apply clamp_of_number. intros H.
    apply product_NaN in H; [|lia]. apply quotient_NaN in H. lia.
  - right. split; [now left|]. apply clamp_of_number. intros H.
    apply product_NaN in H; [|lia]. apply quotient_NaN in H. lia.
Qed.




(** ** The temperature *)

(** Rounding the quotient of an integer by a positive even integer. *)
Lemma round_div_even : forall v h,
  0 < h -> Math_round (div (of_Z v) (of_Z (2 * h))) = of_Z ((v + h) / (2 * h)).
Proof.
  intros v h Hh. unfold of_Z at 1. rewrite div_by_positive by lia.
  rewrite (round_quotient _ v (2 * h)); [|lia|].
  - f_equal. replace (2 * v + 2 * h) with (2 * (v + h)) by ring.
    apply Z.div_mul_cancel_l; lia.
  - rewrite Qred_correct. reflexivity.
Qed.

Lemma getCPUTemperature_skips : forall before rest,
  forallb unusable before = true ->
  getCPUTemperature (before ++ rest) = getCPUTemperature rest.
Proof.
  induction before as [|[temp|] before IH]; intros rest H; [reflexivity| |].
  - cbn [forallb unusable] in H. apply andb_true_iff in H. destruct H as [Hn Hb].
    cbn [app getCPUTemperature]. rewrite Hn. now apply IH.
  - cbn [forallb unusable] in H. cbn [app getCPUTemperature]. now apply IH.
Qed.

(** X14. [getCPUTemperature] answers [null] exactly when every zone is
    unreadable or holds no integer at its head.  Otherwise the answer
    comes from the first zone that holds one, whatever the later zones
    hold: for millidegrees up to [2 ^ 53] either way, their number divided
    by 1000 and rounded half up. *)
Theorem temperature_is_the_first_usable_zone :
  (forall thermal, getCPUTemperature thermal = None <-> forallb unusable thermal = true) /\
  (forall before temp after v,
     forallb unusable before = true ->
     parseInt_string (trim temp) = of_Z v ->
     safe v = true ->
     getCPUTemperature (before ++ Some temp :: after) = Some (of_Z ((v + 500) / 1000))).
Proof.
  split.
  - induction thermal as [|[temp|] thermal IH]; cbn [getCPUTemperature forallb unusable].
    + now split.
    + destruct (is_NaN (parseInt_string (trim temp))); cbn [andb]; [exact IH|].
      split; discriminate.
    + exact IH.
  - intros before temp after v Hb Hv _. rewrite (getCPUTemperature_skips _ _ Hb).
    cbn [getCPUTemperature]. rewrite Hv. cbn [is_NaN of_Z]. fold (of_Z v).
    f_equal. apply (round_div_even v 500). lia.
Qed.

Lemma temperature_witness :
  getCPUTemperature zones = Some (of_Z 46) /\
  (getCPUTemperature [None; Some "n/a"] = None <->
   forallb unusable [None; Some "n/a"] = true).
Proof.
  split.
  - apply (proj2 temperature_is_the_first_usable_zone [None; Some "n/a"] "45500"
             [Some "60000"] 45500); reflexivity.
  - apply (proj1 temperature_is_the_first_usable_zone).
Defined.

(** ** The fields read from [/proc/meminfo] *)

Lemma first_digits_digits : forall line m,
  first_digits line = Some m -> all_digits m = true /\ m <> EmptyString.
Proof.
  induction line as [|c r IH]; intros m H; cbn [first_digits] in H; [discriminate|].
  destruct (is_digit c) eqn:Ec; [|now apply IH].
  destruct (digits_from 0 0 (String c r)) as [[v n] rest] eqn:E.
  inversion H; subst m. clear H.
  destruct (digits_from_prefix _ _ _ _ _ _ E) as [Hd _].
  rewrite Nat.sub_0_r in Hd. split; [exact Hd|].
  cbn [digits_from] in E. rewrite Ec in E. apply digits_from_count in E.
  destruct n as [|n]; [lia|]. cbn [substring]. discriminate.
Qed.

(** The first run of digits of a line that starts without digits. *)
Lemma first_digits_skip : forall a s,
  no_digit a = true -> first_digits (a ++ s) = first_digits s.
Proof.
  induction a as [|c a IH]; intros s H; [reflexivity|].
  cbn [no_digit] in H. apply andb_true_iff in H. destruct H as [Hc Ha].
  cbn [append first_digits]. apply negb_true_iff in Hc. rewrite Hc. now apply IH.
Qed.

Lemma substring_app : forall d s, substring 0 (String.length d) (d ++ s) = d.
Proof.
  induction d as [|c d IH]; intros s; cbn; [now destruct s|]. now rewrite IH.
Qed.

Lemma first_digits_head : forall d rest,
  all_digits d = true -> d <> EmptyString -> starts_with_digit rest = false ->
  first_digits (d ++ rest) = Some d.
Proof.
  intros d rest Hd Hne Hr. destruct d as [|c d]; [congruence|].
  assert (Hc : is_digit c = true) by (cbn in Hd; now apply andb_true_iff in Hd).
  change (String c d ++ rest) with (String c (d ++ rest)).
  cbn [first_digits]. rewrite Hc.
  change (String c (d ++ rest)) with (String c d ++ rest).
  rewrite (digits_from_app (String c d) 0 0 rest Hd).
  assert (E : digits_from (fst (fst (digits_from 0 0 (String c d))))
                (0 + String.length (String c d)) rest =
              (fst (fst (digits_from 0 0 (String c d))), String.length (String c d), rest)).
  { destruct rest as [|x rest]; [reflexivity|]. cbn [starts_with_digit] in Hr.
    cbn [digits_from]. now rewrite Hr. }
  rewrite E. now rewrite substring_app.
Qed.

Lemma find_first : forall (A : Type) (f : A -> bool) before x after,
  (forall y, In y before -> f y = false) -> f x = true ->
  find f (before ++ x :: after) = Some x.
Proof.
  intros A f before x after Hb Hx. induction before as [|y before IH]; cbn [app find].
  - now rewrite Hx.
  - rewrite (Hb y) by now left. apply IH. intros z Hz. apply Hb. now right.
Qed.

(** What [getMemValue] reads is never negative. *)
Lemma getMemValue_megabytes : forall lines name,
  exists kB, 0 <= kB /\ getMemValue lines name = of_Z ((kB + 512) / 1024).
Proof.
  intros lines name. unfold getMemValue.
  destruct (find (fun l => prefix name l) lines) as [line|];
    [|exists 0; split; [lia|reflexivity]].
  destruct (first_digits line) as [m|] eqn:Em; [|exists 0; split; [lia|reflexivity]].
  destruct (first_digits_digits _ _ Em) as [Hd Hne].
  destruct (parseInt_string_digits m Hd Hne) as [Hp Hv].
  exists (digits_value m). split; [exact Hv|]. rewrite Hp. apply (round_div_even _ 512). lia.
Qed.



End SamplingFacts.

(* ================================================================== *)
(** * Properties of the description of the host                        *)
(* ================================================================== *)

Module HostFacts.
Import JS Host SystemFacts ParsingFacts.
Local Open Scope string_scope.
Local Open Scope Z_scope.

Lemma prefix_drop : forall p s, prefix p s = true -> s = p ++ drop (String.length p) s.
Proof.
  induction p as [|c p IH]; intros s H; [reflexivity|].
  destruct s as [|d s]; [discriminate|]. cbn in H.
  destruct (ascii_dec c d) as [->|]; [|discriminate].
  cbn [String.length drop append]. f_equal. now apply IH.
Qed.

Lemma append_associative : forall a b c : string, (a ++ b) ++ c = a ++ b ++ c.
Proof. induction a as [|x a IH]; intros b c; cbn [append]; [reflexivity|]. now rewrite IH. Qed.

Lemma includes_prefix : forall p s, prefix p s = true -> includes p s = true.
Proof. intros p [|c s] H; cbn [includes]; now rewrite H. Qed.

Lemma includes_tail : forall p c s, includes p s = true -> includes p (String c s) = true.
Proof. intros p c s H. cbn [includes]. rewrite H. apply orb_true_r. Qed.

(** What [until_quote] returns stands before a double quote and holds
    none. *)
Lemma until_quote_spec : forall s t,
  until_quote s = Some t ->
  has_quote t = false /\
  s = t ++ String double_quote (drop (S (String.length t)) s).
Proof.
  induction s as [|c s IH]; intros t H; cbn [until_quote] in H; [discriminate|].
  destruct (Ascii.eqb c double_quote) eqn:Ec.
  - inversion H; subst t. apply Ascii.eqb_eq in Ec. subst c. now split.
  - destruct (until_quote s) as [t'|]; [|discriminate].
    inversion H; subst t. destruct (IH t' eq_refl) as [Hq Hs].
    cbn [has_quote String.length drop append]. rewrite Ec. split; [exact Hq|].
    f_equal. exact Hs.
Qed.

Lemma until_quote_app : forall t rest,
  has_quote t = false -> until_quote (t ++ String double_quote rest) = Some t.
Proof.
  induction t as [|c t IH]; intros rest H; cbn [append until_quote].
  - now rewrite Ascii.eqb_refl.
  - cbn [has_quote] in H. apply orb_false_iff in H. destruct H as [Hc Ht].
    now rewrite Hc, (IH rest Ht).
Qed.

Lemma drop_app : forall p s, drop (String.length p) (p ++ s) = s.
Proof. induction p as [|c p IH]; intros s; [reflexivity|]. cbn. apply IH. Qed.

(** The name that is found stands in the file between the key and a
    double quote. *)
Lemma pretty_name_sound : forall text name,
  pretty_name text = Some name ->
  name <> EmptyString /\ has_quote name = false /\
  includes (pretty_key ++ name ++ String double_quote EmptyString) text = true.
Proof.
  induction text as [|c text IH]; intros name H; [discriminate|].
  cbn [pretty_name] in H.
  destruct (prefix pretty_key (String c text)) eqn:Ep.
  - destruct (until_quote (drop (String.length pretty_key) (String c text)))
      as [[|d t]|] eqn:Eu.
    + destruct (IH name H) as (H1 & H2 & H3). repeat split; auto. now apply includes_tail.
    + inversion H; subst name. destruct (until_quote_spec _ _ Eu) as [Hq Hs].
      split; [discriminate|]. split; [exact Hq|].
      apply includes_prefix.
      rewrite (prefix_drop _ _ Ep), Hs.
      replace (pretty_key ++ String d t ++ String double_quote
                 (drop (S (String.length (String d t)))
                    (drop (String.length pretty_key) (String c text))))
        with ((pretty_key ++ String d t ++ String double_quote EmptyString) ++
              drop (S (String.length (String d t)))
                (drop (String.length pretty_key) (String c text))).
      * apply prefix_app.
      * now rewrite !append_associative.
    + destruct (IH name H) as (H1 & H2 & H3). repeat split; auto. now apply includes_tail.
  - destruct (IH name H) as (H1 & H2 & H3). repeat split; auto. now apply includes_tail.
Qed.

(** A file that starts with the key line gives the name of that line. *)
Lemma pretty_name_first_line : forall name rest,
  name <> EmptyString -> has_quote name = false ->
  pretty_name (pretty_key ++ name ++ String double_quote rest) = Some name.
Proof.
  intros name rest Hne Hq.
  assert (Hp : prefix pretty_key (pretty_key ++ name ++ String double_quote rest) = true)
    by apply prefix_app.
  assert (Hd : drop (String.length pretty_key)
                 (pretty_key ++ name ++ String double_quote rest) =
               name ++ String double_quote rest) by apply drop_app.
  remember (pretty_key ++ name ++ String double_quote rest) as text eqn:Et.
  destruct text as [|c text]; [discriminate|].
  cbn [pretty_name]. rewrite Hp, Hd, (until_quote_app name rest Hq).
  destruct name; [congruence|reflexivity].
Qed.

(** The search passes over the positions at which the key does not
    stand. *)
Lemma pretty_name_skip : forall before rest,
  key_not_before before rest = true -> pretty_name (before ++ rest) = pretty_name rest.
Proof.
  induction before as [|c b IH]; intros rest H; [reflexivity|].
  cbn [key_not_before] in H. apply andb_true_iff in H. destruct H as [Hk Hb].
  apply negb_true_iff in Hk.
  change (String c b ++ rest) with (String c (b ++ rest)) in *.
  cbn [pretty_name]. rewrite Hk. now apply IH.
Qed.

(** X16. [getSystemInfo] names the system [Linux] when [/etc/os-release]
    cannot be read.  When it can be read, the name is the text between the
    first [PRETTY_NAME=] with its opening double quote and the double
    quote that follows, on whatever line the key stands: a name the code
    returns is never empty, holds no quote and stands in the file after
    the key; a text that is not empty and holds no quote is returned when
    it stands after the key and the key stands at no earlier position;
    and the name is missing when the file does not hold the key.  On a
    platform other than [linux], [win32] and [darwin] there is no name and
    no version at all. *)
Theorem the_system_is_named_after_its_release_file :
  forall host arch version totalmem cpus interfaces exec,
  osName (getSystemInfo host "linux" arch version totalmem cpus interfaces None exec) =
    Some "Linux" /\
  (forall text name,
     osName (getSystemInfo host "linux" arch version totalmem cpus interfaces (Some text) exec) =
       Some name ->
     name <> EmptyString /\ has_quote name = false /\
     includes (pretty_key ++ name ++ String double_quote EmptyString) text = true) /\
  (forall before name rest,
     key_not_before before (pretty_key ++ name ++ String double_quote rest) = true ->
     name <> EmptyString -> has_quote name = false ->
     osName (getSystemInfo host "linux" arch version totalmem cpus interfaces
               (Some (before ++ pretty_key ++ name ++ String double_quote rest)) exec) =
       Some name) /\
  (forall text,
     includes pretty_key text = false ->
     osName (getSystemInfo host "linux" arch version totalmem cpus interfaces (Some text) exec) =
       None) /\
  (forall platform_ os_release,
     platform_ <> "linux" -> platform_ <> "win32" -> platform_ <> "darwin" ->
     let info := getSystemInfo host platform_ arch version totalmem cpus interfaces
                   os_release exec in
     osName info = None /\ kernelVersion info = None /\
     windowsVersion info = None /\ macVersion info = None).
Proof.
  intros host arch version totalmem cpus interfaces exec.
  split; [reflexivity|]. split; [|split; [|split]].
  - intros text name H. cbn in H. now apply pretty_name_sound.
  - intros before name rest Hk Hne Hq. cbn [osName getSystemInfo].
    cbn [String.eqb Ascii.eqb Bool.eqb].
    rewrite (pretty_name_skip _ _ Hk). now apply pretty_name_first_line.
  - intros text H. cbn [osName getSystemInfo]. cbn [String.eqb Ascii.eqb Bool.eqb].
    destruct (pretty_name text) as [name|] eqn:E; [|reflexivity].
    destruct (pretty_name_sound _ _ E) as (_ & _ & Hi).
    assert (Hk : includes pretty_key text = true).
    { clear - Hi. induction text as [|c text IH].
      - cbn in Hi. discriminate.
      - cbn [includes] in Hi. apply orb_true_iff in Hi. destruct Hi as [Hi|Hi].
        + apply includes_prefix. apply prefix_drop in Hi. rewrite Hi.
          rewrite append_associative. apply prefix_app.
        + apply includes_tail. now apply IH. }
    congruence.
  - intros platform_ os_release H1 H2 H3. cbn [osName kernelVersion windowsVersion macVersion
                                                getSystemInfo].
    apply String.eqb_neq in H1, H2, H3. rewrite H1, H2, H3. repeat split.
Qed.

Lemma the_system_is_named_witness :
  osName (getSystemInfo "pixel" "linux" "arm64" "v20.11.0" 8000000000 8 3
            (Some os_release_fedora) (fun _ => None)) =
    Some "Fedora Linux 39 (Workstation Edition)" /\
  osName (getSystemInfo "pixel" "linux" "arm64" "v20.11.0" 8000000000 8 3
            (Some os_release_sample) (fun _ => None)) =
    Some "Debian GNU/Linux 12 (bookworm)" /\
  osName (getSystemInfo "pixel" "linux" "arm64" "v20.11.0" 8000000000 8 3
            (Some os_release_bare) (fun _ => None)) = None /\
  osName (getSystemInfo "pixel" "android" "arm64" "v20.11.0" 8000000000 8 3
            None (fun _ => None)) = None.
Proof.
  pose proof (the_system_is_named_after_its_release_file "pixel" "arm64" "v20.11.0"
                8000000000 8 3 (fun _ => None)) as (_ & _ & Hkey & Hbare & Hother).
  split; [|split; [|split]].
  - apply (Hkey fedora_head "Fedora Linux 39 (Workstation Edition)");
      [reflexivity|discriminate|reflexivity].
  - apply (Hkey "" "Debian GNU/Linux 12 (bookworm)"); [reflexivity|discriminate|reflexivity].
  - apply Hbare. reflexivity.
  - apply (Hother "android" None); discriminate.
Defined.

End HostFacts.

(* ================================================================== *)
(** * Properties of the process list                                   *)
(* ================================================================== *)

Module ListingFacts.
Import JS Processes Numbers Listing ProcessesFacts ParsingFacts.
Import SamplingFacts (round_div_even).
Local Open Scope string_scope.
Local Open Scope list_scope.

(** ** Which command is used *)

Lemma first_success_skips : forall exec before rest,
  Forall (fun c => exec c = None) before ->
  first_success exec (before ++ rest) = first_success exec rest.
Proof.
  intros exec before rest H. induction H as [|c before Hc _ IH]; [reflexivity|].
  cbn [app first_success]. now rewrite Hc.
Qed.

(** X17. On a POSIX host the list is parsed from the output of the first
    of the four commands that runs, in the format that command's text
    selects; if that output is empty the function throws, whatever the
    later commands would print.  When it throws, and on Windows when
    [tasklist] does not run, [getProcessList] answers with the one entry
    of the monitoring process itself. *)
Theorem the_first_command_that_runs_decides :
  forall localeCompare exec limit sortBy self,
  (forall before cmd after stdout,
     commands = before ++ cmd :: after ->
     Forall (fun c => exec c = None) before ->
     exec cmd = Some stdout ->
     getUnixProcesses localeCompare exec limit sortBy =
       match stdout with
       | EmptyString => None
       | _ => Some (parseUnixProcesses localeCompare stdout limit sortBy cmd)
       end) /\
  (Forall (fun c => exec c = None) commands ->
   getUnixProcesses localeCompare exec limit sortBy = None) /\
  (forall platform,
     platform <> "win32" ->
     getUnixProcesses localeCompare exec limit sortBy = None ->
     getProcessList localeCompare exec platform self limit sortBy = [self]) /\
  (exec "tasklist /FO CSV" = None ->
   getProcessList localeCompare exec "win32" self limit sortBy = [self]).
Proof.
  intros localeCompare exec limit sortBy self.
  split; [|split; [|split]].
  - intros before cmd after stdout Hc Hb Hr. unfold getUnixProcesses.
    rewrite Hc, (first_success_skips exec before _ Hb). cbn [first_success].
    rewrite Hr. reflexivity.
  - intros H. unfold getUnixProcesses.
    rewrite <- (app_nil_r commands), (first_success_skips exec commands [] H).
    reflexivity.
  - intros platform Hp H. unfold getProcessList.
    apply String.eqb_neq in Hp. now rewrite Hp, H.
  - intros H. unfold getProcessList, getWindowsProcesses. cbn. now rewrite H.
Qed.

Lemma the_first_command_witness :
  getUnixProcesses code_unit_compare plain_ps 2 "cpu" =
    Some (parseUnixProcesses code_unit_compare ps_aux_output 2 "cpu" "ps aux") /\
  getUnixProcesses code_unit_compare silent_first 2 "cpu" = None /\
  getProcessList code_unit_compare nothing_runs "linux" node_self 2 "cpu" = [node_self] /\
  getProcessList code_unit_compare nothing_runs "win32" node_self 2 "cpu" = [node_self].
Proof.
  split; [|split; [|split]].
  - rewrite (proj1 (the_first_command_that_runs_decides code_unit_compare plain_ps 2 "cpu"
                      node_self)
               ["ps aux --sort=-%cpu"] "ps aux"
               ["ps -eo pid,ppid,user,cpu,pmem,comm,args"; "ps -A"] ps_aux_output
               eq_refl ltac:(repeat constructor) eq_refl).
    reflexivity.
  - rewrite (proj1 (the_first_command_that_runs_decides code_unit_compare silent_first 2
                      "cpu" node_self)
               [] "ps aux --sort=-%cpu"
               ["ps aux"; "ps -eo pid,ppid,user,cpu,pmem,comm,args"; "ps -A"] ""
               eq_refl ltac:(constructor) eq_refl).
    reflexivity.
  - apply (proj1 (proj2 (proj2 (the_first_command_that_runs_decides code_unit_compare
                                  nothing_runs 2 "cpu" node_self))));
      [discriminate|].
    apply (proj1 (proj2 (the_first_command_that_runs_decides code_unit_compare
                           nothing_runs 2 "cpu" node_self))).
    repeat constructor.
  - apply (proj2 (proj2 (proj2 (the_first_command_that_runs_decides code_unit_compare
                                  nothing_runs 2 "cpu" node_self)))).
    reflexivity.
Defined.

(** ** How much a batch holds *)

Lemma slice0_length : forall (A : Type) limit (l : list A),
  Z.of_nat (List.length (slice0 limit l)) = kept limit (List.length l).
Proof.
  intros A limit l. unfold slice0, kept.
  destruct (limit <? 0)%Z eqn:E; rewrite length_firstn.
  - apply Z.ltb_lt in E. lia.
  - apply Z.ltb_ge in E. lia.
Qed.

Lemma slice0_all : forall (A : Type) limit (l : list A),
  (Z.of_nat (List.length l) <= limit)%Z -> slice0 limit l = l.
Proof.
  intros A limit l H. unfold slice0.
  destruct (limit <? 0)%Z eqn:E; [apply Z.ltb_lt in E; lia|].
  apply firstn_all2. lia.
Qed.

Lemma batch_of_sorted : forall (comparefn : process -> process -> number) limit l,
  Z.of_nat (List.length (slice0 limit (sort comparefn l))) = kept limit (List.length l) /\
  (forall p, In p (slice0 limit (sort comparefn l)) -> In p l) /\
  ((Z.of_nat (List.length l) <= limit)%Z -> Permutation l (slice0 limit (sort comparefn l))).
Proof.
  intros comparefn limit l.
  pose proof (sort_permutation comparefn l) as Hp.
  split; [|split].
  - rewrite slice0_length. now rewrite (Permutation_length Hp).
  - intros p H. apply slice0_incl in H. now apply (Permutation_in _ Hp).
  - intros H. rewrite slice0_all; [now apply Permutation_sym|].
    now rewrite (Permutation_length Hp).
Qed.

(** X18. Of the [n] lines that gave an object, a batch holds [limit] if
    there are that many and all [n] otherwise; a negative [limit] does not
    give an empty batch but drops that many objects from the end of the
    sorted list.  A batch holds nothing that was not parsed, and when the
    limit leaves room it holds every parsed object as often as it was
    parsed.  This is so on the POSIX path and on Windows. *)
Theorem a_batch_holds_what_the_limit_allows :
  forall localeCompare stdout limit sortBy commandUsed,
  (Z.of_nat (List.length (parseUnixProcesses localeCompare stdout limit sortBy commandUsed)) =
     kept limit (List.length (unix_parsed stdout commandUsed)) /\
   (forall p, In p (parseUnixProcesses localeCompare stdout limit sortBy commandUsed) ->
              In p (unix_parsed stdout commandUsed)) /\
   ((Z.of_nat (List.length (unix_parsed stdout commandUsed)) <= limit)%Z ->
    Permutation (unix_parsed stdout commandUsed)
      (parseUnixProcesses localeCompare stdout limit sortBy commandUsed))) /\
  (Z.of_nat (List.length (parseWindowsProcesses localeCompare stdout limit sortBy)) =
     kept limit (List.length (windows_parsed stdout)) /\
   (forall p, In p (parseWindowsProcesses localeCompare stdout limit sortBy) ->
              In p (windows_parsed stdout)) /\
   ((Z.of_nat (List.length (windows_parsed stdout)) <= limit)%Z ->
    Permutation (windows_parsed stdout)
      (parseWindowsProcesses localeCompare stdout limit sortBy))).
Proof.
  intros localeCompare stdout limit sortBy commandUsed. split; apply batch_of_sorted.
Qed.

Lemma a_batch_holds_witness :
  List.length (unix_parsed ps_aux_output "ps aux") = 3%nat /\
  List.length (parseUnixProcesses code_unit_compare ps_aux_output 2 "cpu" "ps aux") = 2%nat /\
  List.length (parseUnixProcesses code_unit_compare ps_aux_output (-1) "cpu" "ps aux") = 2%nat /\
  Permutation (unix_parsed ps_aux_output "ps aux")
    (parseUnixProcesses code_unit_compare ps_aux_output 10 "cpu" "ps aux") /\
  Permutation (windows_parsed tasklist_output)
    (parseWindowsProcesses code_unit_compare tasklist_output 3 "name").
Proof.
  split; [reflexivity|]. split; [reflexivity|]. split; [reflexivity|]. split.
  - apply (proj1 (a_batch_holds_what_the_limit_allows code_unit_compare ps_aux_output 10
                    "cpu" "ps aux")).
    vm_compute. discriminate.
  - apply (proj2 (a_batch_holds_what_the_limit_allows code_unit_compare tasklist_output 3
                    "name" "")).
    vm_compute. discriminate.
Defined.

(** ** What a record of a POSIX batch holds *)

Lemma at_or_not_empty : forall parts i d, d <> "" -> at_or parts i d <> "".
Proof.
  intros parts i d Hd. unfold at_or. destruct (nth_error parts i) as [[|c s]|]; cbn; congruence.
Qed.

Lemma unix_line_name : forall commandUsed raw p,
  unix_line commandUsed raw = Some p -> name p <> "".
Proof.
  intros commandUsed raw p. unfold unix_line.
  destruct (trim raw) as [|c line]; [discriminate|].
  destruct (includes "aux" commandUsed).
  - unfold aux_process. destruct (11 <=? _)%nat; [|discriminate].
    match goal with |- context [truthy (pid ?r)] => destruct (truthy (pid r)) end;
      [|discriminate].
    intros [= <-]. cbn [name]. now apply at_or_not_empty.
  - unfold other_process. destruct (6 <=? _)%nat; [|discriminate].
    match goal with |- context [truthy (pid ?r)] => destruct (truthy (pid r)) end;
      [|discriminate].
    intros [= <-]. cbn [name]. now apply at_or_not_empty.
Qed.


(** ** Reading a line by its columns *)

Local Open Scope string_scope.

Lemma split_spaces_from_not_nil : forall s in_run, split_spaces_from in_run s <> [].
Proof.
  induction s as [|c s IH]; intros in_run; cbn [split_spaces_from]; [discriminate|].
  destruct (is_space c).
  - destruct in_run; [apply IH|discriminate].
  - destruct (split_spaces_from false s); discriminate.
Qed.

Lemma split_spaces_from_head : forall a r in_run,
  is_space a = false ->
  split_spaces_from in_run (String a r) =
  match split_spaces_from false r with
  | t :: ts => String a t :: ts
  | [] => [String a EmptyString]
  end.
Proof. intros a r in_run H. cbn [split_spaces_from]. now rewrite H. Qed.

(** A column at the head of a line goes to the head of the first piece. *)
Lemma split_spaces_column : forall c s in_run,
  column c = true ->
  split_spaces_from in_run (c ++ s) =
  match split_spaces_from false s with
  | t :: ts => (c ++ t) :: ts
  | [] => [c]
  end.
Proof.
  induction c as [|a c IH]; intros s in_run Hc; [discriminate|].
  cbn [column no_space] in Hc. apply andb_true_iff in Hc. destruct Hc as [Ha Hc].
  apply negb_true_iff in Ha.
  change (String a c ++ s) with (String a (c ++ s)).
  rewrite (split_spaces_from_head a (c ++ s) in_run Ha).
  destruct c as [|b c].
  - cbn [append]. destruct (split_spaces_from false s); reflexivity.
  - rewrite (IH s false Hc). destruct (split_spaces_from false s); reflexivity.
Qed.

(** A gap before a column opens a new piece. *)
Lemma split_spaces_gap : forall g c s,
  gap g = true -> column c = true ->
  split_spaces_from false (g ++ c ++ s) = EmptyString :: split_spaces_from false (c ++ s).
Proof.
  intros g c s Hg Hc. destruct g as [|a g]; [discriminate|]. cbn [gap all_space] in Hg.
  apply andb_true_iff in Hg. destruct Hg as [Ha Hg].
  cbn [append split_spaces_from]. rewrite Ha. f_equal.
  induction g as [|b g IH]; cbn [append].
  - now rewrite !(split_spaces_column c s _ Hc).
  - cbn [all_space] in Hg. apply andb_true_iff in Hg. destruct Hg as [Hb Hg].
    cbn [split_spaces_from]. rewrite Hb. now apply IH.
Qed.

Lemma append_associative' : forall a b c : string, (a ++ b) ++ c = a ++ b ++ c.
Proof. induction a as [|x a IH]; intros b c; cbn [append]; [reflexivity|]. now rewrite IH. Qed.

(** The pieces of a line of columns are its columns. *)
Lemma split_spaces_row : forall rest first,
  column first = true -> well_spaced rest ->
  split_spaces (row first rest) = first :: map snd rest.
Proof.
  unfold split_spaces.
  induction rest as [|[g c] rest IH]; intros first Hf Hr; cbn [row map snd].
  - rewrite <- (append_empty first) at 1. rewrite (split_spaces_column first "" false Hf).
    cbn [split_spaces_from]. now rewrite append_empty.
  - inversion_clear Hr as [|? ? [Hg Hc] Hr']. cbn [fst snd] in Hg, Hc.
    rewrite (split_spaces_column first _ false Hf).
    assert (E : exists s, row c rest = c ++ s).
    { destruct rest as [|[g' c'] rest']; [exists EmptyString; now rewrite append_empty|].
      cbn [row]. eauto. }
    destruct E as [s Es]. rewrite Es, (split_spaces_gap g c s Hg Hc), <- Es.
    rewrite (IH c Hc Hr'). now rewrite append_empty.
Qed.

Lemma trimEnd_solid : forall s,
  s <> EmptyString -> (forall t c, s = t ++ String c EmptyString -> is_space c = false) ->
  trimEnd s = s.
Proof.
  induction s as [|a s IH]; intros Hne Hlast; [congruence|].
  cbn [trimEnd]. destruct s as [|b s].
  - cbn [trimEnd]. now rewrite (Hlast EmptyString a eq_refl).
  - rewrite IH; [reflexivity|discriminate|].
    intros t c Ht. apply (Hlast (String a t) c). cbn [append]. now rewrite Ht.
Qed.

Lemma no_space_last : forall s t c,
  no_space s = true -> s = t ++ String c EmptyString -> is_space c = false.
Proof.
  induction s as [|a s IH]; intros t c Hs Ht.
  - destruct t; discriminate.
  - cbn [no_space] in Hs. apply andb_true_iff in Hs. destruct Hs as [Ha Hs].
    destruct t as [|b t]; cbn [append] in Ht.
    + inversion Ht; subst. now apply negb_true_iff.
    + inversion Ht; subst. now apply (IH t c).
Qed.

Lemma append_last : forall a b t c,
  b <> EmptyString -> a ++ b = t ++ String c EmptyString ->
  exists t', b = t' ++ String c EmptyString.
Proof.
  induction a as [|x a IH]; intros b t c Hb H; cbn [append] in H; [eauto|].
  destruct t as [|y t]; cbn [append] in H.
  - inversion H as [[Hx Ha]]. destruct a; [cbn in Ha; congruence|discriminate].
  - inversion H as [[Hx Ha]]. now apply (IH b t c).
Qed.

Lemma row_last : forall rest first t c,
  column first = true -> well_spaced rest ->
  row first rest = t ++ String c EmptyString -> is_space c = false.
Proof.
  induction rest as [|[g k] rest IH]; intros first t c Hf Hr H; cbn [row] in H.
  - destruct first as [|a f]; [discriminate|]. now apply (no_space_last _ t c Hf).
  - inversion_clear Hr as [|? ? [Hg Hk] Hr']. cbn [fst snd] in Hg, Hk.
    assert (Hne : row k rest <> EmptyString).
    { destruct k as [|a k]; [discriminate|]. destruct rest as [|[g' k'] rest']; discriminate. }
    assert (Hne2 : g ++ row k rest <> EmptyString).
    { destruct g; [discriminate|discriminate]. }
    destruct (append_last _ _ _ _ Hne2 H) as [t1 H1].
    destruct (append_last _ _ _ _ Hne H1) as [t2 H2].
    now apply (IH k t2 c Hk Hr').
Qed.

(** The line of columns has no white space to trim. *)
Lemma trim_row : forall first rest,
  column first = true -> well_spaced rest -> trim (row first rest) = row first rest.
Proof.
  intros first rest Hf Hr. unfold trim.
  assert (Hs : trimStart (row first rest) = row first rest).
  { destruct first as [|a f]; [discriminate|]. cbn [column no_space] in Hf.
    apply andb_true_iff in Hf. destruct Hf as [Ha _]. apply negb_true_iff in Ha.
    destruct rest as [|[g k] rest]; cbn [row append trimStart]; now rewrite Ha. }
  rewrite Hs. apply trimEnd_solid.
  - destruct first as [|a f]; [discriminate|]. destruct rest as [|[g k] rest]; discriminate.
  - intros t c H. now apply (row_last rest first t c).
Qed.

Lemma column_not_empty : forall cols i c,
  Forall (fun c => column c = true) cols -> nth_error cols i = Some c -> c <> EmptyString.
Proof.
  intros cols i c H Hi. apply nth_error_In in Hi. rewrite Forall_forall in H.
  specialize (H c Hi). destruct c; [discriminate|discriminate].
Qed.

Lemma at_or_column : forall cols i d,
  Forall (fun c => column c = true) cols -> (i < List.length cols)%nat ->
  at_or cols i d = nth i cols "".
Proof.
  intros cols i d H Hi. unfold at_or.
  destruct (nth_error cols i) as [c|] eqn:E.
  - rewrite (nth_error_nth _ _ _ E). pose proof (column_not_empty _ _ _ H E).
    destruct c; [congruence|reflexivity].
  - apply nth_error_None in E. lia.
Qed.

Lemma at_column : forall cols i,
  (i < List.length cols)%nat -> at_ cols i = Some (nth i cols "").
Proof.
  intros cols i Hi. unfold at_. destruct (nth_error cols i) as [c|] eqn:E.
  - now rewrite (nth_error_nth _ _ _ E).
  - apply nth_error_None in E. lia.
Qed.

Lemma columns_of_row : forall first rest,
  column first = true -> well_spaced rest ->
  Forall (fun c => column c = true) (first :: map snd rest).
Proof.
  intros first rest Hf Hr. constructor; [exact Hf|].
  induction Hr as [|[g c] rest [_ Hc] _ IH]; cbn [map snd]; constructor; auto.
Qed.

(** X20. A line of a [ps aux] listing that has eleven columns or more,
    set apart by white space of any width, is read by its columns: the
    user is the first column, the pid what [parseInt] reads of the second,
    the state the eighth and the name the eleventh; the command is the
    eleventh column and those after it, joined by single blanks, whatever
    the width of the gaps was.  The line is dropped when the second column
    does not read as an integer other than 0, and a line of fewer than
    eleven columns is dropped whatever it holds.  A pid written as the
    numeral of an integer other than 0, up to [2 ^ 53] either way, is read
    as that integer. *)
Theorem a_ps_aux_line_is_read_by_columns : forall commandUsed first rest,
  includes "aux" commandUsed = true ->
  column first = true -> well_spaced rest ->
  ((List.length rest < 10)%nat -> unix_line commandUsed (row first rest) = None) /\
  ((10 <= List.length rest)%nat ->
   match unix_line commandUsed (row first rest) with
   | Some p =>
       truthy (parseInt_string (nth 0 (map snd rest) "")) = true /\
       user p = first /\
       pid p = parseInt_string (nth 0 (map snd rest) "") /\
       status p = Some (nth 6 (map snd rest) "") /\
       name p = nth 9 (map snd rest) "" /\
       command p = join " " (skipn 9 (map snd rest))
   | None => truthy (parseInt_string (nth 0 (map snd rest) "")) = false
   end) /\
  (forall z,
     (10 <= List.length rest)%nat -> z <> 0%Z -> safe z = true ->
     nth 0 (map snd rest) "" = integer_text z ->
     exists p, unix_line commandUsed (row first rest) = Some p /\ pid p = of_Z z).
Proof.
  intros commandUsed first rest Ha Hf Hr.
  pose proof (columns_of_row first rest Hf Hr) as Hcols.
  assert (Hline : unix_line commandUsed (row first rest) =
                  match aux_process (row first rest) with
                  | Some p => if truthy (pid p) then Some p else None
                  | None => None
                  end).
  { unfold unix_line. rewrite (trim_row first rest Hf Hr), Ha.
    destruct (row first rest) eqn:E; [|reflexivity].
    destruct first; [discriminate|]. destruct rest as [|[g k] rest]; discriminate. }
  assert (Hlen : List.length (first :: map snd rest) = S (List.length rest))
    by (cbn [List.length]; now rewrite length_map).
  assert (Hlong : (10 <= List.length rest)%nat ->
            aux_process (row first rest) =
            Some {|
              pid := parseInt_string (nth 0 (map snd rest) "");
              ppid := Some (of_Z 0);
              user := first;
              cpu := or_else (parseFloat (at_ (first :: map snd rest) 2)) (of_Z 0);
              memory := or_else (parseFloat (at_ (first :: map snd rest) 3)) (of_Z 0);
              memoryMB := Some (calculateMemoryMB (at_ (first :: map snd rest) 4)
                                  (at_ (first :: map snd rest) 5));
              vsz := Some (or_else (parseInt (at_ (first :: map snd rest) 4)) (of_Z 0));
              rss := Some (or_else (parseInt (at_ (first :: map snd rest) 5)) (of_Z 0));
              status := Some (nth 6 (map snd rest) "");
              start := Some (at_or (first :: map snd rest) 8 "");
              time := Some (at_or (first :: map snd rest) 9 "");
              name := nth 9 (map snd rest) "";
              command := join " " (skipn 9 (map snd rest));
              sessionName := None;
              sessionId := None
            |}).
  { intros Hl. unfold aux_process. rewrite (split_spaces_row rest first Hf Hr), Hlen.
    assert (E : (11 <=? S (List.length rest))%nat = true) by (apply Nat.leb_le; lia).
    rewrite E.
    rewrite (at_column (first :: map snd rest) 1) by lia.
    rewrite (at_or_column (first :: map snd rest) 7 "unknown" Hcols) by lia.
    rewrite (at_or_column (first :: map snd rest) 10 "unknown" Hcols) by lia.
    reflexivity. }
  split; [|split].
  - intros Hs. rewrite Hline. unfold aux_process.
    rewrite (split_spaces_row rest first Hf Hr), Hlen.
    assert (E : (11 <=? S (List.length rest))%nat = false) by (apply Nat.leb_gt; lia).
    now rewrite E.
  - intros Hl. rewrite Hline, (Hlong Hl). cbn [pid].
    destruct (truthy (parseInt_string (nth 0 (map snd rest) ""))) eqn:Et; [|reflexivity].
    cbn [user pid status name command]. repeat split.
  - intros z Hl Hz _ Hn. rewrite Hline, (Hlong Hl). cbn [pid]. rewrite Hn.
    rewrite parseInt_string_integer_text.
    assert (Ht : truthy (of_Z z) = true) by (destruct z; [congruence|reflexivity|reflexivity]).
    rewrite Ht. eexists. split; [reflexivity|reflexivity].
Qed.

Lemma a_ps_aux_line_witness :
  match unix_line "ps aux" (row "bob" chrome_row) with
  | Some p =>
      truthy (parseInt_string "2301") = true /\
      user p = "bob" /\
      pid p = parseInt_string "2301" /\
      status p = Some "Sl" /\
      name p = "/opt/chrome/chrome" /\
      command p = "/opt/chrome/chrome --type=renderer --lang=en"
  | None => truthy (parseInt_string "2301") = false
  end /\
  exists p, unix_line "ps aux" (row "bob" chrome_row) = Some p /\ pid p = of_Z 2301.
Proof.
  assert (Hr : well_spaced chrome_row) by (repeat constructor).
  split.
  - exact (proj1 (proj2 (a_ps_aux_line_is_read_by_columns "ps aux" "bob" chrome_row
                           eq_refl eq_refl Hr))
             ltac:(cbn; lia)).
  - exact (proj2 (proj2 (a_ps_aux_line_is_read_by_columns "ps aux" "bob" chrome_row
                           eq_refl eq_refl Hr))
             2301%Z ltac:(cbn; lia) ltac:(discriminate) eq_refl eq_refl).
Defined.

(** ** Reading a line of [tasklist] by its fields *)

Lemma prefix_other_head : forall q p c s,
  c <> q -> prefix (String q p) (String c s) = false.
Proof.
  intros q p c s H. cbn [prefix]. destruct (ascii_dec q c); [congruence|reflexivity].
Qed.

Lemma prefix_same_head : forall q p s, prefix (String q p) (String q s) = prefix p s.
Proof.
  intros q p s. cbn [prefix]. destruct (ascii_dec q q); [reflexivity|congruence].
Qed.

Lemma quote_free_head : forall c f,
  quote_free (String c f) = true -> c <> quote /\ quote_free f = true.
Proof.
  intros c f H. cbn [quote_free] in H. apply andb_true_iff in H. destruct H as [Hc Hf].
  split; [|exact Hf]. apply negb_true_iff in Hc. intros ->.
  now rewrite Ascii.eqb_refl in Hc.
Qed.

(** The last field, with the closing quote. *)
Lemma split_last_field : forall f,
  quote_free f = true ->
  split_string_from separator 0 (f ++ String quote "") = [f ++ String quote ""].
Proof.
  induction f as [|c f IH]; intros H; [reflexivity|].
  destruct (quote_free_head c f H) as [Hc Hf].
  cbn [append split_string_from]. unfold separator at 1.
  rewrite (prefix_other_head quote _ c _ Hc). now rewrite (IH Hf).
Qed.

(** A field that a separator follows. *)
Lemma split_field : forall f rest,
  quote_free f = true ->
  split_string_from separator 0 (f ++ separator ++ rest) =
  f :: split_string_from separator 0 rest.
Proof.
  induction f as [|c f IH]; intros rest H.
  - cbn [append]. unfold separator at 2. cbn [append split_string_from].
    replace (prefix separator (String quote (String "," (String quote rest)))) with true.
    + reflexivity.
    + symmetry. unfold separator. cbn [prefix].
      destruct (ascii_dec quote quote); [|congruence].
      destruct (ascii_dec "," ","); [|congruence].
      destruct (ascii_dec quote quote); [|congruence]. now destruct rest.
  - destruct (quote_free_head c f H) as [Hc Hf].
    cbn [append split_string_from]. unfold separator at 1.
    rewrite (prefix_other_head quote _ c _ Hc). now rewrite (IH rest Hf).
Qed.

Lemma split_fields : forall fields,
  Forall (fun f => quote_free f = true) fields ->
  split_string_from separator 0 (join separator fields ++ String quote "") = closed fields.
Proof.
  induction fields as [|f fields IH]; intros H; [reflexivity|].
  inversion_clear H as [|? ? Hf Hrest].
  destruct fields as [|g fields].
  - cbn [join String.concat closed]. now apply split_last_field.
  - change (join separator (f :: g :: fields))
      with (f ++ separator ++ join separator (g :: fields)).
    rewrite !append_associative', (split_field f _ Hf).
    cbn [closed]. f_equal. now apply IH.
Qed.

Lemma remove_all_quote_free : forall f,
  quote_free f = true -> remove_all (Ascii.eqb quote) f = f.
Proof.
  induction f as [|c f IH]; intros H; [reflexivity|].
  cbn [quote_free] in H. apply andb_true_iff in H. destruct H as [Hc Hf].
  apply negb_true_iff in Hc. cbn [remove_all]. now rewrite Hc, (IH Hf).
Qed.

Lemma remove_all_app : forall class a b,
  remove_all class (a ++ b) = remove_all class a ++ remove_all class b.
Proof.
  intros class a b. induction a as [|c a IH]; [reflexivity|].
  cbn [append remove_all]. destruct (class c); [exact IH|]. cbn [append]. now rewrite IH.
Qed.

Lemma remove_quotes_closed : forall fields,
  fields <> [] -> Forall (fun f => quote_free f = true) fields ->
  map (remove_all (Ascii.eqb quote)) (closed fields) = fields.
Proof.
  induction fields as [|f fields IH]; intros Hne H; [congruence|].
  inversion_clear H as [|? ? Hf Hrest].
  destruct fields as [|g fields].
  - cbn [closed map]. rewrite remove_all_app, (remove_all_quote_free f Hf).
    cbn [remove_all]. rewrite Ascii.eqb_refl. cbn [remove_all]. now rewrite append_empty.
  - cbn [closed map]. rewrite (remove_all_quote_free f Hf). f_equal.
    apply IH; [discriminate|exact Hrest].
Qed.

(** The fields of a line are read back from it. *)
Lemma fields_of_csv : forall fields,
  fields <> [] -> Forall (fun f => quote_free f = true) fields ->
  starts_with_comma (hd "" fields) = false ->
  map (remove_all (Ascii.eqb quote)) (split_string separator (csv fields)) = fields.
Proof.
  intros fields Hne H Hc. unfold split_string, csv.
  assert (Hp : prefix separator
                 (String quote (join separator fields ++ String quote "")) = false).
  { destruct fields as [|f fields]; [congruence|]. cbn [hd] in Hc.
    assert (E : exists t, join separator (f :: fields) ++ String quote "" =
                          f ++ String quote t).
    { destruct fields as [|g fields].
      - cbn [join String.concat]. eauto.
      - change (join separator (f :: g :: fields))
          with (f ++ separator ++ join separator (g :: fields)).
        rewrite append_associative'. unfold separator at 1. cbn [append]. eauto. }
    destruct E as [t ->].
    unfold separator. rewrite prefix_same_head.
    destruct f as [|c f]; cbn [append].
    - apply prefix_other_head. discriminate.
    - cbn [starts_with_comma] in Hc. apply prefix_other_head.
      intros ->. discriminate Hc. }
  cbn [split_string_from]. rewrite Hp, (split_fields fields H).
  pose proof (remove_quotes_closed fields Hne H) as Hr.
  destruct (closed fields) as [|t ts] eqn:Ecl.
  - destruct fields as [|f [|g fs]]; discriminate.
  - cbn [map] in *. cbn [remove_all]. now rewrite Ascii.eqb_refl.
Qed.

Lemma last_code_unit : forall a t c d,
  a ++ String c "" = t ++ String d "" -> c = d.
Proof.
  induction a as [|x a IH]; intros t c d H; destruct t as [|y t]; cbn [append] in H.
  - now inversion H.
  - inversion H as [[Hx Ht]]. destruct t; discriminate.
  - inversion H as [[Hx Ha]]. destruct a; discriminate.
  - inversion H as [[Hx Ha]]. now apply (IH t).
Qed.

Lemma trim_csv : forall fields, trim (csv fields) = csv fields.
Proof.
  intros fields. unfold trim, csv. cbn [trimStart].
  change (is_space quote) with false. cbv iota.
  apply trimEnd_solid; [discriminate|].
  intros t c H.
  change (String quote (join separator fields ++ String quote ""))
    with (String quote (join separator fields) ++ String quote "") in H.
  apply last_code_unit in H. now subst c.
Qed.

Lemma digit_kept : forall c,
  is_digit c = true -> (Ascii.eqb c "," || is_space c)%bool = false.
Proof.
  intros [[] [] [] [] [] [] [] []] H; try discriminate H; reflexivity.
Qed.

Lemma remove_all_digits : forall d,
  all_digits d = true ->
  remove_all (fun c => Ascii.eqb c "," || is_space c)%bool d = d.
Proof.
  induction d as [|c d IH]; intros H; [reflexivity|].
  cbn [all_digits] in H. apply andb_true_iff in H. destruct H as [Hc Hd].
  cbn [remove_all]. now rewrite (digit_kept c Hc), (IH Hd).
Qed.

(** The thousands separators and the blank before the unit go away. *)
Lemma memory_column : forall groups,
  Forall (fun g => all_digits g = true) groups ->
  remove_all (fun c => Ascii.eqb c "," || is_space c)%bool (join "," groups ++ " K") =
  String.concat "" groups ++ "K".
Proof.
  intros groups H. rewrite remove_all_app.
  replace (remove_all (fun c => Ascii.eqb c "," || is_space c)%bool " K") with "K"
    by reflexivity.
  f_equal. induction H as [|g groups Hg Hrest IH]; [reflexivity|].
  destruct groups as [|h groups].
  - cbn [join String.concat]. now apply remove_all_digits.
  - change (join "," (g :: h :: groups)) with (g ++ "," ++ join "," (h :: groups)).
    change (String.concat "" (g :: h :: groups))
      with (g ++ "" ++ String.concat "" (h :: groups)).
    rewrite remove_all_app, (remove_all_digits g Hg). f_equal.
    cbn [append remove_all]. change (Ascii.eqb "," "," || is_space ",")%bool with true.
    cbv iota. exact IH.
Qed.

Lemma concat_digits : forall groups,
  Forall (fun g => all_digits g = true) groups ->
  all_digits (String.concat "" groups) = true.
Proof.
  intros groups H. induction H as [|g groups Hg Hrest IH]; [reflexivity|].
  destruct groups as [|h groups]; [exact Hg|].
  change (String.concat "" (g :: h :: groups))
    with (g ++ "" ++ String.concat "" (h :: groups)).
  cbn [append]. clear - Hg IH. induction g as [|c g IHg]; [exact IH|].
  cbn [all_digits] in Hg. apply andb_true_iff in Hg. destruct Hg as [Hc Hg].
  cbn [append all_digits]. now rewrite Hc, (IHg Hg).
Qed.

Lemma or_else_of_Z : forall v, or_else (of_Z v) (of_Z 0) = of_Z v.
Proof. now intros [|p|p]. Qed.

(** X21. A line of [tasklist /FO CSV] whose fields hold no double quote
    (and whose first field does not start with a comma) is read back by
    its fields: the image name becomes the name and the command, the
    second field is read as the pid, the third is the session name, the
    fourth is read as the session number; [cpu] is 0 and [user] is
    [unknown].  A memory field that is written in groups of digits with
    commas between them and [ K] after them is read as the number all the
    digits form, in kB, when that number is [2 ^ 53] at most, and
    [memoryMB] is that number divided by 1024 and rounded half up.  A line
    of fewer than five fields leaves no record. *)
Theorem a_tasklist_line_is_read_by_fields :
  (forall image pid_ session sid mem more,
     Forall (fun f => quote_free f = true)
       (image :: pid_ :: session :: sid :: mem :: more) ->
     starts_with_comma image = false ->
     exists p,
       windows_line (csv (image :: pid_ :: session :: sid :: mem :: more)) = Some p /\
       name p = image /\ command p = image /\
       pid p = parseInt_string pid_ /\
       sessionName p = Some session /\
       sessionId p = Some (or_else (parseInt_string sid) (of_Z 0)) /\
       cpu p = of_Z 0 /\ user p = "unknown" /\
       (forall groups,
          mem = join "," groups ++ " K" ->
          Forall (fun g => all_digits g = true) groups ->
          String.concat "" groups <> "" ->
          (digits_value (String.concat "" groups) <= 2 ^ 53)%Z ->
          memory p = of_Z (digits_value (String.concat "" groups)) /\
          memoryMB p =
            Some (of_Z ((digits_value (String.concat "" groups) + 512) / 1024)))) /\
  (forall fields,
     fields <> [] -> Forall (fun f => quote_free f = true) fields ->
     starts_with_comma (hd "" fields) = false ->
     (List.length fields < 5)%nat ->
     windows_line (csv fields) = None).
Proof.
  split.
  - intros image pid_ session sid mem more Hq Hc.
    assert (Hparts : map (remove_all (Ascii.eqb quote))
                       (split_string separator
                          (csv (image :: pid_ :: session :: sid :: mem :: more))) =
                     image :: pid_ :: session :: sid :: mem :: more)
      by (apply fields_of_csv; [discriminate|exact Hq|exact Hc]).
    eexists. split.
    + unfold windows_line. rewrite trim_csv.
      unfold csv at 1. cbv iota. rewrite Hparts.
      cbn [List.length Nat.leb nth at_ nth_error parseInt]. reflexivity.
    + cbn [name command pid sessionName sessionId cpu user memory memoryMB].
      repeat (split; [reflexivity|]).
      intros groups Hm Hg Hne _. rewrite Hm, (memory_column groups Hg).
      rewrite (parseInt_string_digits_then _ "K" "" (concat_digits groups Hg) Hne eq_refl
                 eq_refl).
      rewrite or_else_of_Z. split; [reflexivity|].
      f_equal. apply (round_div_even _ 512). lia.
  - intros fields Hne Hq Hc Hl.
    unfold windows_line. rewrite trim_csv. unfold csv at 1. cbv iota.
    rewrite (fields_of_csv fields Hne Hq Hc).
    assert (E : (5 <=? List.length fields)%nat = false) by (apply Nat.leb_gt; exact Hl).
    now rewrite E.
Qed.

Lemma a_tasklist_line_witness :
  exists p,
    windows_line (csv ["chrome.exe"; "1234"; "Console"; "1"; "123,456 K"]) = Some p /\
    name p = "chrome.exe" /\ pid p = of_Z 1234 /\
    memory p = of_Z 123456 /\ memoryMB p = Some (of_Z 121).
Proof.
  destruct (proj1 a_tasklist_line_is_read_by_fields
              "chrome.exe" "1234" "Console" "1" "123,456 K" []
              ltac:(repeat constructor) eq_refl)
    as (p & Hp & Hname & _ & Hpid & _ & _ & _ & _ & Hmem).
  exists p. split; [exact Hp|]. split; [exact Hname|]. split; [exact Hpid|].
  exact (Hmem ["123"; "456"] eq_refl ltac:(repeat constructor) ltac:(discriminate)
           ltac:(discriminate)).
Defined.

End ListingFacts.

(* ================================================================== *)
(** * Properties of the process routes                                 *)
(* ================================================================== *)

Module RoutesFacts.
Import JS Processes Numbers Listing Routes ProcessesFacts ParsingFacts ListingFacts.
Local Open Scope string_scope.
Local Open Scope list_scope.

(** ** [GET /] *)

Lemma integer_of_of_Z : forall z, integer_of (of_Z z) = z.
Proof. intros z. unfold integer_of. now rewrite to_integer_of_Z. Qed.

Lemma truthy_of_Z : forall z, truthy (of_Z z) = negb (Z.eqb z 0).
Proof. intros [|p|p]; reflexivity. Qed.

Lemma limit_of_cases : forall q,
  (exists z, z <> 0%Z /\ parseInt q = of_Z z /\ limit_of q = of_Z z) \/
  ((parseInt q = NaN \/ parseInt q = of_Z 0) /\ limit_of q = of_Z 20).
Proof.
  intros q. unfold limit_of, or_else.
  destruct (parseInt_integer q) as [->|(z & ->)]; [right; auto|].
  rewrite truthy_of_Z. destruct (Z.eqb_spec z 0) as [->|Hz]; cbn [negb].
  - right. auto.
  - left. exists z. auto.
Qed.

Lemma getProcessList_length : forall localeCompare exec platform self limit sortBy,
  (0 < limit)%Z ->
  (Z.of_nat (List.length (getProcessList localeCompare exec platform self limit sortBy))
   <= limit)%Z.
Proof.
  intros localeCompare exec platform self limit sortBy Hl.
  assert (Hk : forall n, (kept limit n <= limit)%Z).
  { intros n. unfold kept. destruct (limit <? 0)%Z eqn:E; [apply Z.ltb_lt in E|]; lia. }
  unfold getProcessList, getWindowsProcesses, getUnixProcesses.
  destruct (String.eqb platform "win32").
  - destruct (exec "tasklist /FO CSV") as [stdout|]; [|cbn; lia].
    unfold parseWindowsProcesses. rewrite (proj1 (batch_of_sorted _ _ _)). apply Hk.
  - destruct (first_success exec commands) as [stdout commandUsed].
    destruct stdout as [|c stdout]; [cbn; lia|].
    unfold parseUnixProcesses. rewrite (proj1 (batch_of_sorted _ _ _)). apply Hk.
Qed.

(** X22. [GET /] never asks for zero processes.  When the [limit]
    parameter is missing or does not start with an integer, and when that
    integer is 0, the limit passed on is 20; when it starts with an
    integer other than 0, up to [2 ^ 53] either way, the limit is that
    integer, a negative one included.  For a positive limit in that range
    the answer's [count] does not exceed it.  A missing or empty [sort]
    parameter sorts by [cpu]. *)
Theorem the_list_route_replaces_a_zero_limit :
  forall localeCompare exec platform self,
  (forall q, parseInt q = NaN \/ parseInt q = of_Z 0 -> limit_of q = of_Z 20) /\
  (forall q z, parseInt q = of_Z z -> z <> 0%Z -> safe z = true -> limit_of q = of_Z z) /\
  (forall q,
     (parseInt q = NaN \/ exists z, parseInt q = of_Z z /\ safe z = true) ->
     exists l, limit_of q = of_Z l /\ l <> 0%Z /\ safe l = true) /\
  (forall z, z <> 0%Z -> safe z = true -> limit_of (Some (integer_text z)) = of_Z z) /\
  (forall ql qs l,
     limit_of ql = of_Z l -> (0 < l)%Z -> safe l = true ->
     (fst (list_route localeCompare exec platform self ql qs) <= l)%Z) /\
  (forall ql,
     list_route localeCompare exec platform self ql None =
       list_route localeCompare exec platform self ql (Some "cpu") /\
     list_route localeCompare exec platform self ql (Some "") =
       list_route localeCompare exec platform self ql (Some "cpu")).
Proof.
  intros localeCompare exec platform self.
  assert (Hzero : forall q, parseInt q = NaN \/ parseInt q = of_Z 0 -> limit_of q = of_Z 20).
  { intros q H. destruct (limit_of_cases q) as [(z & Hz & Hp & _)|[_ E]]; [|exact E].
    destruct H as [H|H]; rewrite H in Hp; [discriminate|].
    apply (f_equal integer_of) in Hp. rewrite !integer_of_of_Z in Hp. congruence. }
  assert (Hother : forall q z, parseInt q = of_Z z -> z <> 0%Z -> limit_of q = of_Z z).
  { intros q z Hp Hz. unfold limit_of, or_else. rewrite Hp, truthy_of_Z.
    destruct (Z.eqb_spec z 0); [congruence|reflexivity]. }
  split; [exact Hzero|]. split; [intros q z Hp Hz _; now apply Hother|].
  split; [|split; [|split]].
  - intros q [H|(z & Hp & Hs)].
    + exists 20%Z. split; [apply Hzero; now left|]. split; [discriminate|reflexivity].
    + destruct (Z.eq_dec z 0) as [->|Hz].
      * exists 20%Z. split; [apply Hzero; now right|]. split; [discriminate|reflexivity].
      * exists z. split; [now apply Hother|]. split; assumption.
  - intros z Hz _. apply Hother; [|exact Hz]. cbn [parseInt].
    apply parseInt_string_integer_text.
  - intros ql qs l Hl Hpos _. unfold list_route. cbn [fst]. rewrite Hl, integer_of_of_Z.
    now apply getProcessList_length.
  - intros ql. split; reflexivity.
Qed.

Lemma the_list_route_witness :
  limit_of (Some "abc") = of_Z 20 /\
  limit_of (Some "0") = of_Z 20 /\
  limit_of (Some (integer_text (-1))) = of_Z (-1) /\
  (fst (list_route code_unit_compare plain_ps "linux" node_self (Some "2") None) <= 2)%Z.
Proof.
  pose proof (the_list_route_replaces_a_zero_limit code_unit_compare plain_ps "linux"
                node_self) as (Hdefault & _ & _ & Hnumeral & Hcount & _).
  split; [apply Hdefault; left; reflexivity|].
  split; [apply Hdefault; right; reflexivity|].
  split; [apply Hnumeral; [discriminate|reflexivity]|].
  apply (Hcount (Some "2") None); reflexivity.
Defined.

(** ** [GET /:pid] *)

Lemma strict_equal_of_Z : forall a b, strict_equal (of_Z a) (of_Z b) = Z.eqb a b.
Proof.
  intros a b. unfold strict_equal, of_Z.
  destruct (Z.eqb_spec a b) as [->|Hne].
  - apply Qeq_bool_iff. reflexivity.
  - destruct (Qeq_bool (inject_Z a) (inject_Z b)) eqn:E; [|reflexivity].
    apply Qeq_bool_iff in E. unfold Qeq, inject_Z in E. cbn in E. lia.
Qed.

(** X23. [GET /:pid] answers 400 and runs nothing when the parameter does
    not start with an integer.  When it starts with one, a safe integer,
    exactly one command is run, and what the parameter contributes to its
    text is the decimal numeral of that integer, digits with at most a
    minus sign before them: nothing that follows the integer in the
    parameter reaches the shell.  If the command fails, the answer is the
    entry of the Node.js process when the integer is its pid, and a 404
    otherwise. *)
Theorem the_pid_route_runs_a_numeral_only :
  forall exec platform self_pid param,
  (parseInt_string param = NaN ->
   detail_route exec platform self_pid param = Some (invalid_pid, [])) /\
  (forall z,
     parseInt_string param = of_Z z -> safe z = true ->
     exists answer,
       detail_route exec platform self_pid param =
         Some (answer,
               [if String.eqb platform "win32" then tasklist_command (integer_text z)
                else ps_command (integer_text z)]) /\
       answer <> invalid_pid /\
       digits_and_minus (integer_text z) = true /\
       parseInt_string (integer_text z) = of_Z z /\
       (exec (if String.eqb platform "win32" then tasklist_command (integer_text z)
              else ps_command (integer_text z)) = None ->
        answer = if Z.eqb z self_pid then self_fallback else not_found_or_denied)).
Proof.
  intros exec platform self_pid param. split.
  - intros H. unfold detail_route. now rewrite H.
  - intros z Hz Hs. unfold detail_route. rewrite Hz.
    change (is_NaN (of_Z z)) with false. cbv iota.
    rewrite (toString_integer z Hs), strict_equal_of_Z.
    destruct (String.eqb platform "win32"); cbn [negb].
    + destruct (exec (tasklist_command (integer_text z))) as [stdout|].
      * exists not_implemented. split; [reflexivity|]. split; [discriminate|].
        split; [apply integer_text_chars|]. split; [apply parseInt_string_integer_text|].
        discriminate.
      * exists (if Z.eqb z self_pid then self_fallback else not_found_or_denied).
        split; [reflexivity|]. split; [destruct (Z.eqb z self_pid); discriminate|].
        split; [apply integer_text_chars|]. split; [apply parseInt_string_integer_text|].
        reflexivity.
    + destruct (exec (ps_command (integer_text z))) as [stdout|].
      * destruct (trim stdout) as [|c line] eqn:Et.
        -- exists not_found. split; [reflexivity|]. split; [discriminate|].
           split; [apply integer_text_chars|]. split; [apply parseInt_string_integer_text|].
           discriminate.
        -- eexists. split; [reflexivity|]. split; [discriminate|].
           split; [apply integer_text_chars|]. split; [apply parseInt_string_integer_text|].
           discriminate.
      * exists (if Z.eqb z self_pid then self_fallback else not_found_or_denied).
        split; [reflexivity|]. split; [destruct (Z.eqb z self_pid); discriminate|].
        split; [apply integer_text_chars|]. split; [apply parseInt_string_integer_text|].
        reflexivity.
Qed.

Lemma the_pid_route_witness :
  detail_route one_process "linux" 4242 "; reboot" = Some (invalid_pid, []) /\
  exists answer,
    detail_route one_process "linux" 4242 "2210; reboot" =
      Some (answer, [ps_command "2210"]) /\
    answer <> invalid_pid.
Proof.
  split.
  - apply (proj1 (the_pid_route_runs_a_numeral_only one_process "linux" 4242 "; reboot")).
    reflexivity.
  - destruct (proj2 (the_pid_route_runs_a_numeral_only one_process "linux" 4242
                       "2210; reboot") 2210%Z eq_refl eq_refl)
      as (answer & Hr & Hne & _).
    exists answer. split; [exact Hr|exact Hne].
Defined.

(** ** [GET /tree/view] *)

Lemma strict_equal_sym : forall a b, strict_equal a b = strict_equal b a.
Proof.
  intros [|s|x] [|t|y]; cbn; try reflexivity.
  - now destruct s, t.
  - destruct (Qeq_bool x y) eqn:E, (Qeq_bool y x) eqn:F; try reflexivity.
    + apply Qeq_bool_iff in E. symmetry in E. apply Qeq_bool_iff in E. congruence.
    + apply Qeq_bool_iff in F. symmetry in F. apply Qeq_bool_iff in F. congruence.
Qed.

Lemma strict_equal_trans : forall a b c,
  strict_equal a b = true -> strict_equal b c = true -> strict_equal a c = true.
Proof.
  intros [|s|x] [|t|y] [|u|z]; cbn; try discriminate.
  - destruct s, t, u; auto.
  - intros H1 H2. apply Qeq_bool_iff in H1, H2. apply Qeq_bool_iff.
    now rewrite H1.
Qed.

Lemma strict_equal_refl : forall a, a <> NaN -> strict_equal a a = true.
Proof.
  intros [|s|x] H; [congruence|now destruct s|]. apply Qeq_bool_iff. reflexivity.
Qed.

(** Two keys that are equal find the same group. *)
Lemma strict_equal_same : forall a b c,
  strict_equal a b = true -> strict_equal c a = strict_equal c b.
Proof.
  intros a b c H.
  destruct (strict_equal c a) eqn:E1, (strict_equal c b) eqn:E2; try reflexivity.
  - rewrite (strict_equal_trans c a b E1 H) in E2. discriminate.
  - rewrite strict_equal_sym in H.
    rewrite (strict_equal_trans c b a E2 H) in E1. discriminate.
Qed.

Lemma strict_equal_same_l : forall a b c,
  strict_equal a b = true -> strict_equal a c = strict_equal b c.
Proof.
  intros a b c H. rewrite (strict_equal_sym a c), (strict_equal_sym b c).
  now apply strict_equal_same.
Qed.

Lemma parent_of_not_NaN : forall proc, parent_of proc <> NaN.
Proof.
  intros proc. unfold parent_of. destruct (ppid proc) as [n|]; [|discriminate].
  unfold or_else. destruct (truthy n) eqn:E; [|discriminate].
  now apply truthy_not_NaN.
Qed.

Lemma group_of_file_under : forall key k proc tree,
  k <> NaN ->
  group_of key (file_under k proc tree) =
  if strict_equal k key
  then Some (match group_of key tree with Some g => g ++ [proc] | None => [proc] end)
  else group_of key tree.
Proof.
  intros key k proc tree Hk. induction tree as [|[k' g] tree IH]; cbn [file_under group_of].
  - destruct (strict_equal k key); reflexivity.
  - destruct (strict_equal k' k) eqn:E1.
    + cbn [group_of]. rewrite (strict_equal_same_l _ _ key E1).
      destruct (strict_equal k key); reflexivity.
    + cbn [group_of]. destruct (strict_equal k' key) eqn:E3.
      * destruct (strict_equal k key) eqn:E2; [|reflexivity].
        rewrite strict_equal_sym in E2.
        rewrite (strict_equal_trans _ _ _ E3 E2) in E1. discriminate.
      * exact IH.
Qed.

Lemma group_of_fold : forall key processes tree,
  group_of key (fold_left (fun tree proc => file_under (parent_of proc) proc tree)
                  processes tree) =
  match group_of key tree, filter (fun p => strict_equal (parent_of p) key) processes with
  | Some g, l => Some (g ++ l)
  | None, [] => None
  | None, l => Some l
  end.
Proof.
  intros key processes. induction processes as [|p processes IH]; intros tree;
    cbn [fold_left filter].
  - destruct (group_of key tree); [now rewrite app_nil_r|reflexivity].
  - rewrite IH, (group_of_file_under key _ p tree (parent_of_not_NaN p)).
    destruct (strict_equal (parent_of p) key).
    + destruct (group_of key tree); [now rewrite <- app_assoc|reflexivity].
    + reflexivity.
Qed.

Lemma processTree_flat : forall processes,
  Forall (fun p => parent_of p = of_Z 0) processes ->
  processTree processes =
  match processes with [] => [] | _ => [(of_Z 0, processes)] end.
Proof.
  intros processes H. unfold processTree.
  assert (G : forall l g,
            Forall (fun p => parent_of p = of_Z 0) l ->
            fold_left (fun tree proc => file_under (parent_of proc) proc tree) l
              [(of_Z 0, g)] = [(of_Z 0, g ++ l)]).
  { induction l as [|p l IH]; intros g Hl; cbn [fold_left]; [now rewrite app_nil_r|].
    inversion_clear Hl as [|? ? Hp Hl']. rewrite Hp. cbn [file_under].
    change (strict_equal (of_Z 0) (of_Z 0)) with true. cbv iota.
    rewrite (IH _ Hl'). now rewrite <- app_assoc. }
  destruct H as [|p l Hp Hl]; [reflexivity|].
  cbn [fold_left file_under]. rewrite Hp. apply (G l [p] Hl).
Qed.

Lemma aux_line_parent : forall commandUsed raw p,
  includes "aux" commandUsed = true ->
  unix_line commandUsed raw = Some p -> parent_of p = of_Z 0.
Proof.
  intros commandUsed raw p Ha. unfold unix_line. rewrite Ha.
  destruct (trim raw) as [|c line]; [discriminate|].
  unfold aux_process. destruct (11 <=? _)%nat; [|discriminate].
  match goal with |- context [truthy (pid ?r)] => destruct (truthy (pid r)) end;
    [|discriminate].
  intros [= <-]. reflexivity.
Qed.

Lemma windows_line_parent : forall raw p, windows_line raw = Some p -> parent_of p = of_Z 0.
Proof.
  intros raw p. unfold windows_line.
  destruct (trim raw) as [|c line]; [discriminate|].
  destruct (5 <=? _)%nat; [|discriminate].
  intros [= <-]. reflexivity.
Qed.

Lemma batch_Forall : forall (P : process -> Prop) (comparefn : process -> process -> number)
    limit l,
  Forall P l -> Forall P (slice0 limit (sort comparefn l)).
Proof.
  intros P comparefn limit l H. rewrite Forall_forall in *. intros p Hp.
  apply slice0_incl in Hp. apply (Permutation_in _ (sort_permutation _ _)) in Hp. auto.
Qed.

(** X24. The tree of [GET /tree/view] files every process once, under
    its [ppid], or under 0 when it has none or a falsy one: the group of a
    key holds the processes of that key in the order of the list, and a key
    without a process has no group.  A list read from a [ps aux] listing
    or from [tasklist] carries no parent at all, so that its tree is flat:
    one group, under 0, that holds the whole list. *)
Theorem the_process_tree_groups_by_parent :
  (forall processes key,
     group_of key (processTree processes) =
     match filter (fun p => strict_equal (parent_of p) key) processes with
     | [] => None
     | group => Some group
     end) /\
  (forall localeCompare stdout limit sortBy commandUsed,
     includes "aux" commandUsed = true ->
     processTree (parseUnixProcesses localeCompare stdout limit sortBy commandUsed) =
     match parseUnixProcesses localeCompare stdout limit sortBy commandUsed with
     | [] => []
     | _ :: _ =>
         [(of_Z 0, parseUnixProcesses localeCompare stdout limit sortBy commandUsed)]
     end) /\
  (forall localeCompare stdout limit sortBy,
     processTree (parseWindowsProcesses localeCompare stdout limit sortBy) =
     match parseWindowsProcesses localeCompare stdout limit sortBy with
     | [] => []
     | _ :: _ => [(of_Z 0, parseWindowsProcesses localeCompare stdout limit sortBy)]
     end).
Proof.
  split; [|split].
  - intros processes key. unfold processTree. rewrite group_of_fold. reflexivity.
  - intros localeCompare stdout limit sortBy commandUsed Ha.
    apply processTree_flat. unfold parseUnixProcesses. apply batch_Forall.
    apply collect_Forall. intros l p. now apply aux_line_parent.
  - intros localeCompare stdout limit sortBy.
    apply processTree_flat. unfold parseWindowsProcesses. apply batch_Forall.
    apply collect_Forall. intros l p. now apply windows_line_parent.
Qed.

Lemma the_process_tree_witness :
  tree_route code_unit_compare plain_ps "linux" node_self =
  [(of_Z 0, parseUnixProcesses code_unit_compare ps_aux_output 50 "cpu" "ps aux")].
Proof.
  change (tree_route code_unit_compare plain_ps "linux" node_self)
    with (processTree (parseUnixProcesses code_unit_compare ps_aux_output 50 "cpu" "ps aux")).
  rewrite (proj1 (proj2 the_process_tree_groups_by_parent) code_unit_compare ps_aux_output
             50%Z "cpu" "ps aux" eq_refl).
  reflexivity.
Defined.

End RoutesFacts.

(* ================================================================== *)
(** * Properties of the formatting functions                           *)
(* ================================================================== *)

Module FormatFacts.
Import JS Numbers Format SystemFacts ParsingFacts.
Local Open Scope string_scope.
Local Open Scope Z_scope.

(** ** Whole parts of rationals *)

Lemma Qfloor_div_Z : forall q n, 0 < n -> Qfloor (q / inject_Z n) = Qfloor q / n.
Proof.
  intros [a b] n Hn. destruct n as [|p|p]; try lia.
  unfold Qdiv, Qinv, Qmult, inject_Z. cbn [Qnum Qden Qfloor].
  rewrite Z.mul_1_r, Pos2Z.inj_mul. symmetry. apply Z.div_div; lia.
Qed.

Lemma Qfloor_sub_Z : forall q k, Qfloor (q - inject_Z k) = Qfloor q - k.
Proof.
  intros [a b] k. unfold Qminus, Qplus, Qopp, inject_Z. cbn [Qnum Qden Qfloor].
  rewrite Z.mul_1_r, Pos.mul_1_r.
  replace (a + - k * Z.pos b) with (a + (- k) * Z.pos b) by ring.
  rewrite Z.div_add by lia. ring.
Qed.

Lemma Qfloor_nonneg : forall q, (0 <= q)%Q -> 0 <= Qfloor q.
Proof.
  intros q H. change 0 with (Qfloor 0). now apply Qfloor_resp_le.
Qed.

Lemma floor_div : forall q n,
  0 < n -> Math_floor (div (Num q) (of_Z n)) = of_Z (Qfloor q / n).
Proof.
  intros q n Hn. rewrite div_by_positive by exact Hn. unfold Math_floor. f_equal.
  rewrite (Qfloor_comp _ _ (Qred_correct _)). now apply Qfloor_div_Z.
Qed.

(** The remainder of a number that is not negative by a positive
    integer. *)
Lemma rem_nonneg : forall q n,
  (0 <= q)%Q -> 0 < n ->
  exists r, rem (Num q) (of_Z n) = Num r /\ (r == q - inject_Z (n * (Qfloor q / n)))%Q.
Proof.
  intros q n Hq Hn. unfold rem, of_Z, Qsign. cbn [Qnum inject_Z].
  destruct n as [|p|p]; try lia. cbn [Z.sgn].
  eexists. split; [reflexivity|]. rewrite Qred_correct.
  assert (E : Z.quot (Qnum (q / inject_Z (Z.pos p))) (Z.pos (Qden (q / inject_Z (Z.pos p)))) =
              Qfloor q / Z.pos p).
  { rewrite <- (Qfloor_div_Z q (Z.pos p)) by lia.
    destruct q as [a b]. unfold Qle in Hq. cbn [Qnum Qden] in Hq.
    unfold Qdiv, Qinv, Qmult, inject_Z. cbn [Qnum Qden Qfloor].
    apply Z.quot_div_nonneg; lia. }
  cbv zeta. rewrite E. rewrite inject_Z_mult. reflexivity.
Qed.

Lemma floor_rem_div : forall q n k,
  (0 <= q)%Q -> 0 < n -> 0 < k ->
  Math_floor (div (rem (Num q) (of_Z n)) (of_Z k)) = of_Z ((Qfloor q mod n) / k).
Proof.
  intros q n k Hq Hn Hk. destruct (rem_nonneg q n Hq Hn) as (r & -> & Hr).
  rewrite floor_div by exact Hk. f_equal. f_equal.
  rewrite (Qfloor_comp _ _ Hr), Qfloor_sub_Z. rewrite Z.mod_eq by lia. reflexivity.
Qed.

(** The three numbers of an uptime that is not negative. *)
Lemma uptime_parts : forall q,
  (0 <= q)%Q ->
  days_of (Num q) = of_Z (whole_days (Qfloor q)) /\
  hours_of (Num q) = of_Z (whole_hours (Qfloor q)) /\
  minutes_of (Num q) = of_Z (whole_minutes (Qfloor q)).
Proof.
  intros q Hq. unfold days_of, hours_of, minutes_of, whole_days, whole_hours, whole_minutes.
  rewrite floor_div by lia. rewrite !floor_rem_div by (assumption || lia). auto.
Qed.

Lemma whole_parts : forall s,
  0 <= s ->
  s = 86400 * whole_days s + 3600 * whole_hours s + 60 * whole_minutes s + s mod 60 /\
  0 <= whole_days s <= s /\ 0 <= whole_hours s < 24 /\ 0 <= whole_minutes s < 60.
Proof.
  intros s Hs. unfold whole_days, whole_hours, whole_minutes.
  pose proof (Z.div_mod s 86400 ltac:(lia)) as H1.
  pose proof (Z.mod_pos_bound s 86400 ltac:(lia)) as B1.
  pose proof (Z.div_mod (s mod 86400) 3600 ltac:(lia)) as H2.
  pose proof (Z.mod_pos_bound (s mod 86400) 3600 ltac:(lia)) as B2.
  pose proof (Z.div_mod s 3600 ltac:(lia)) as H3.
  pose proof (Z.mod_pos_bound s 3600 ltac:(lia)) as B3.
  pose proof (Z.div_mod (s mod 3600) 60 ltac:(lia)) as H4.
  pose proof (Z.mod_pos_bound (s mod 3600) 60 ltac:(lia)) as B4.
  assert (E1 : (s mod 86400) mod 3600 = s mod 3600).
  { apply Z.mod_mod_divide. exists 24. reflexivity. }
  assert (E2 : (s mod 3600) mod 60 = s mod 60).
  { apply Z.mod_mod_divide. exists 60. reflexivity. }
  assert (D : 0 <= s / 86400) by (apply Z.div_pos; lia).
  assert (D2 : 0 <= s mod 86400 / 3600) by (apply Z.div_pos; lia).
  assert (D3 : 0 <= s mod 3600 / 60) by (apply Z.div_pos; lia).
  lia.
Qed.

Lemma safe_part : forall s z, safe s = true -> 0 <= z <= s -> safe z = true.
Proof.
  intros s z Hs Hz. unfold safe in *. apply Z.leb_le in Hs. apply Z.leb_le. lia.
Qed.

Lemma with_unit_integer : forall z unit,
  safe z = true -> with_unit (of_Z z) unit = Some (integer_text z ++ unit).
Proof. intros z unit H. unfold with_unit. now rewrite (toString_integer z H). Qed.

(** The numeral of a positive integer does not start with 0. *)
Lemma to_uint_no_leading_zero : forall p u, Pos.to_uint p <> Decimal.D0 u.
Proof.
  intros p u H.
  pose proof (DecimalPos.Unsigned.to_of (Pos.to_uint p)) as Hto.
  rewrite DecimalPos.Unsigned.of_to in Hto. cbn [N.to_uint] in Hto.
  rewrite H in Hto. unfold Decimal.unorm in Hto. cbn [Decimal.nzhead] in Hto.
  pose proof (DecimalFacts.nb_digits_nzhead u) as Hn.
  destruct (Decimal.nzhead u) eqn:En; try discriminate Hto.
  - inversion Hto; subst u. exact (DecimalPos.Unsigned.to_uint_nonzero p H).
  - inversion Hto; subst. cbn [Decimal.nb_digits] in Hn. lia.
Qed.

Lemma integer_text_leading : forall z,
  0 < z -> exists c t, integer_text z = String c t /\ c <> "0"%char.
Proof.
  intros [|p|p] Hz; try lia. destruct (positive_text p) as (E & _).
  rewrite E. pose proof (DecimalPos.Unsigned.to_uint_nonnil p) as Hnil.
  pose proof (to_uint_no_leading_zero p) as Hzero.
  destruct (Pos.to_uint p) as [|u|u|u|u|u|u|u|u|u|u];
    [congruence|exfalso; now apply (Hzero u)| ..];
    cbn [DecimalString.NilEmpty.string_of_uint]; eexists; eexists;
    (split; [reflexivity|discriminate]).
Qed.

(** X25. For an uptime that is not negative, [GET /uptime] answers the
    whole seconds and a text made of the days, the hours below 24 and the
    minutes below 60 of exactly those seconds: the text is the uptime cut
    to the minute.  The days are shown only when there is one, and the
    hours only when there is a day or an hour.  An uptime that is [NaN] is
    formatted as [NaNm]. *)
Theorem the_uptime_is_shown_to_the_minute : forall q,
  (0 <= q)%Q -> safe (Qfloor q) = true ->
  uptime_route (Num q) =
    (of_Z (Qfloor q),
     Some (if 0 <? whole_days (Qfloor q) then
             join " " [integer_text (whole_days (Qfloor q)) ++ "d";
                       integer_text (whole_hours (Qfloor q)) ++ "h";
                       integer_text (whole_minutes (Qfloor q)) ++ "m"]
           else if 0 <? whole_hours (Qfloor q) then
             join " " [integer_text (whole_hours (Qfloor q)) ++ "h";
                       integer_text (whole_minutes (Qfloor q)) ++ "m"]
           else integer_text (whole_minutes (Qfloor q)) ++ "m")) /\
  Qfloor q = 86400 * whole_days (Qfloor q) + 3600 * whole_hours (Qfloor q)
             + 60 * whole_minutes (Qfloor q) + Qfloor q mod 60 /\
  0 <= whole_hours (Qfloor q) < 24 /\ 0 <= whole_minutes (Qfloor q) < 60 /\
  formatUptime NaN = Some "NaNm".
Proof.
  intros q Hq Hs.
  pose proof (Qfloor_nonneg q Hq) as H0.
  destruct (whole_parts (Qfloor q) H0) as (Hsum & Hd & Hh & Hm).
  destruct (uptime_parts q Hq) as (Ed & Eh & Em).
  split; [|repeat split; try lia; exact Hsum].
  unfold uptime_route, formatUptime. rewrite Ed, Eh, Em, !lt_of_Z.
  assert (Sd : safe (whole_days (Qfloor q)) = true) by (apply (safe_part _ _ Hs); lia).
  assert (Sh : safe (whole_hours (Qfloor q)) = true).
  { unfold safe. apply Z.leb_le. lia. }
  assert (Sm : safe (whole_minutes (Qfloor q)) = true).
  { unfold safe. apply Z.leb_le. lia. }
  unfold joined. cbn [pieces].
  rewrite (with_unit_integer _ "d" Sd), (with_unit_integer _ "h" Sh),
    (with_unit_integer _ "m" Sm).
  cbn [Math_floor].
  destruct (0 <? whole_days (Qfloor q)); [reflexivity|].
  destruct (0 <? whole_hours (Qfloor q)); reflexivity.
Qed.

Lemma the_uptime_witness :
  uptime_route (Num (1938037 # 10)) = (of_Z 193803, Some "2d 5h 50m") /\
  uptime_route (Num (59 # 1)) = (of_Z 59, Some "0m").
Proof.
  split.
  - apply (proj1 (the_uptime_is_shown_to_the_minute (1938037 # 10)
                    ltac:(unfold Qle; cbn; lia) eq_refl)).
  - apply (proj1 (the_uptime_is_shown_to_the_minute (59 # 1)
                    ltac:(unfold Qle; cbn; lia) eq_refl)).
Defined.

(** X26. The client's [formatUptime] shows the same days, hours and
    minutes of an uptime that is not negative, but leaves out each of the
    three that is 0; the text is never empty, and it is [0m] exactly when
    the uptime is below a minute.  [NaN] is formatted as [0m] as well. *)
Theorem the_client_uptime_leaves_out_zeros : forall q,
  (0 <= q)%Q -> safe (Qfloor q) = true ->
  client_formatUptime (Num q) =
    Some (match
            (shown (whole_days (Qfloor q)) "d" ++ shown (whole_hours (Qfloor q)) "h" ++
             shown (whole_minutes (Qfloor q)) "m")%list
          with
          | [] => "0m"
          | parts => join " " parts
          end) /\
  (client_formatUptime (Num q) = Some "0m" <-> Qfloor q < 60) /\
  client_formatUptime (Num q) <> Some "" /\
  client_formatUptime NaN = Some "0m".
Proof.
  intros q Hq Hs.
  pose proof (Qfloor_nonneg q Hq) as H0.
  destruct (whole_parts (Qfloor q) H0) as (Hsum & Hd & Hh & Hm).
  destruct (uptime_parts q Hq) as (Ed & Eh & Em).
  assert (Sd : safe (whole_days (Qfloor q)) = true) by (apply (safe_part _ _ Hs); lia).
  assert (Sh : safe (whole_hours (Qfloor q)) = true).
  { unfold safe. apply Z.leb_le. lia. }
  assert (Sm : safe (whole_minutes (Qfloor q)) = true).
  { unfold safe. apply Z.leb_le. lia. }
  assert (E : client_formatUptime (Num q) =
    Some (match
            (shown (whole_days (Qfloor q)) "d" ++ shown (whole_hours (Qfloor q)) "h" ++
             shown (whole_minutes (Qfloor q)) "m")%list
          with
          | [] => "0m"
          | parts => join " " parts
          end)).
  { unfold client_formatUptime, shown. rewrite Ed, Eh, Em, !lt_of_Z.
    rewrite (with_unit_integer _ "d" Sd), (with_unit_integer _ "h" Sh),
      (with_unit_integer _ "m" Sm).
    destruct (0 <? whole_days (Qfloor q)), (0 <? whole_hours (Qfloor q)),
      (0 <? whole_minutes (Qfloor q)); reflexivity. }
  assert (Hne : forall z, integer_text z <> "").
  { intros [|p|p]; try discriminate. apply positive_text. }
  assert (Hhead : forall z u rest,
            0 < z -> (integer_text z ++ u)%string <> String "0" rest).
  { intros z u rest Hz H. destruct (integer_text_leading z Hz) as (c & t & Ec & Hc).
    rewrite Ec in H. cbn [append] in H. inversion H. congruence. }
  assert (Hhead2 : forall z u v rest,
            0 < z -> ((integer_text z ++ u) ++ v)%string <> String "0" rest).
  { intros z u v rest Hz H. destruct (integer_text_leading z Hz) as (c & t & Ec & Hc).
    rewrite Ec in H. cbn [append] in H. inversion H. congruence. }
  split; [exact E|]. split; [|split; [|reflexivity]].
  - rewrite E. unfold shown. split.
    + intros H.
      destruct (Z.ltb_spec 0 (whole_days (Qfloor q))) as [Pd|Pd];
        destruct (Z.ltb_spec 0 (whole_hours (Qfloor q))) as [Ph|Ph];
        destruct (Z.ltb_spec 0 (whole_minutes (Qfloor q))) as [Pm|Pm];
        cbn [app] in H; unfold join in H; cbn [String.concat] in H;
        try (pose proof (Z.mod_pos_bound (Qfloor q) 60 ltac:(lia)); lia);
        exfalso; inversion H as [H'];
        match type of H' with
        | ((integer_text ?z ++ ?u) ++ ?v)%string = _ => now apply (Hhead2 z u v "m")
        | (integer_text ?z ++ ?u)%string = _ => now apply (Hhead z u "m")
        end.
    + intros H.
      assert (Zd : whole_days (Qfloor q) = 0) by (unfold whole_days; apply Z.div_small; lia).
      assert (Zh : whole_hours (Qfloor q) = 0).
      { unfold whole_hours. rewrite Z.mod_small by lia. apply Z.div_small. lia. }
      assert (Zm : whole_minutes (Qfloor q) = 0).
      { unfold whole_minutes. rewrite Z.mod_small by lia. apply Z.div_small. lia. }
      rewrite Zd, Zh, Zm. reflexivity.
  - rewrite E. unfold shown.
    destruct (0 <? whole_days (Qfloor q)), (0 <? whole_hours (Qfloor q)),
      (0 <? whole_minutes (Qfloor q)); cbn [app]; unfold join; cbn [String.concat];
      try discriminate;
      intros H; inversion H as [H'];
      match type of H' with
      | ((integer_text ?z ++ _) ++ _)%string = _ =>
          destruct (integer_text z) eqn:Ez; [now apply (Hne z)|discriminate]
      | (integer_text ?z ++ _)%string = _ =>
          destruct (integer_text z) eqn:Ez; [now apply (Hne z)|discriminate]
      end.
Qed.

Lemma the_client_uptime_witness :
  client_formatUptime (Num (172805 # 1)) = Some "2d" /\
  (client_formatUptime (Num (59 # 1)) = Some "0m" <-> Qfloor (59 # 1) < 60).
Proof.
  split.
  - apply (proj1 (the_client_uptime_leaves_out_zeros (172805 # 1)
                    ltac:(unfold Qle; cbn; lia) eq_refl)).
  - apply (proj1 (proj2 (the_client_uptime_leaves_out_zeros (59 # 1)
                           ltac:(unfold Qle; cbn; lia) eq_refl))).
Defined.

(** ** [formatCommand] *)

Lemma substring_length : forall s k,
  String.length (substring 0 k s) = Nat.min k (String.length s).
Proof.
  induction s as [|c s IH]; intros [|k]; cbn [substring String.length Nat.min]; auto.
Qed.

Lemma append_length : forall a b : string,
  String.length (a ++ b) = (String.length a + String.length b)%nat.
Proof.
  induction a as [|c a IH]; intros b; cbn [append String.length Nat.add]; [reflexivity|].
  now rewrite IH.
Qed.

(** X27. [formatCommand] returns a command that fits as it is.  A
    command that does not fit is cut to [maxLength - 3] code units and
    three dots, so that the result has exactly [maxLength] code units, but
    for a [maxLength] below 3 nothing is left of the command and the three
    dots alone exceed it.  From a [maxLength] of 3 on the result never
    exceeds [maxLength], and formatting it again changes nothing. *)
Theorem a_long_command_is_cut_to_length : forall command maxLength,
  (Z.of_nat (String.length command) <= maxLength ->
   formatCommand command maxLength = command) /\
  (maxLength < Z.of_nat (String.length command) ->
   formatCommand command maxLength =
     substring 0 (Z.to_nat (maxLength - 3)) command ++ "..." /\
   Z.of_nat (String.length (formatCommand command maxLength)) = Z.max maxLength 3) /\
  (3 <= maxLength ->
   Z.of_nat (String.length (formatCommand command maxLength)) <= maxLength /\
   formatCommand (formatCommand command maxLength) maxLength =
     formatCommand command maxLength).
Proof.
  intros command maxLength.
  assert (Hfit : Z.of_nat (String.length command) <= maxLength ->
                 formatCommand command maxLength = command).
  { intros H. unfold formatCommand. apply Z.leb_le in H. now rewrite H. }
  assert (Hcut : maxLength < Z.of_nat (String.length command) ->
                 formatCommand command maxLength =
                   substring 0 (Z.to_nat (maxLength - 3)) command ++ "..." /\
                 Z.of_nat (String.length (formatCommand command maxLength)) =
                   Z.max maxLength 3).
  { intros H. unfold formatCommand.
    assert (E : (Z.of_nat (String.length command) <=? maxLength) = false)
      by (apply Z.leb_gt; exact H).
    rewrite E. split; [reflexivity|].
    rewrite append_length, substring_length. cbn [String.length]. lia. }
  split; [exact Hfit|]. split; [exact Hcut|].
  intros H3.
  destruct (Z.le_gt_cases (Z.of_nat (String.length command)) maxLength) as [Hle|Hgt].
  - rewrite (Hfit Hle). split; [exact Hle|exact (Hfit Hle)].
  - destruct (Hcut Hgt) as [E L]. split; [lia|].
    unfold formatCommand at 1.
    assert (E2 : (Z.of_nat (String.length (formatCommand command maxLength)) <=? maxLength)
                 = true) by (apply Z.leb_le; lia).
    now rewrite E2.
Qed.

Lemma a_long_command_witness :
  formatCommand "node server.js" 50 = "node server.js" /\
  formatCommand "/usr/lib/chromium/chromium --type=renderer" 20 = "/usr/lib/chromium..." /\
  formatCommand "node server.js" 2 = "..." /\
  formatCommand (formatCommand "/usr/lib/chromium/chromium --type=renderer" 20) 20 =
    formatCommand "/usr/lib/chromium/chromium --type=renderer" 20.
Proof.
  split; [|split; [|split]].
  - apply (proj1 (a_long_command_is_cut_to_length "node server.js" 50)). cbn. lia.
  - rewrite (proj1 (proj1 (proj2 (a_long_command_is_cut_to_length
                                    "/usr/lib/chromium/chromium --type=renderer" 20))
                      ltac:(cbn; lia))).
    reflexivity.
  - rewrite (proj1 (proj1 (proj2 (a_long_command_is_cut_to_length "node server.js" 2))
                      ltac:(cbn; lia))).
    reflexivity.
  - apply (proj2 (proj2 (a_long_command_is_cut_to_length
                           "/usr/lib/chromium/chromium --type=renderer" 20))).
    lia.
Defined.

End FormatFacts.
